(** * pr-reviewer-plugin: provider-fallback router, routes, prompts and configuration

    A shallow embedding of
      - [src/services/modelRouter.js]            (modules [Router] and
        [RouterExports]),
      - [src/services/modelRouter_optimized.js]  (modules [Optimized] and
        [OptimizedExports]),
      - the review route [src/routes/reviewPR.js]: [extractJSON],
        [createDefaultReview], [validateReview] (module [Review]),
        [validatePRInput] and the handler (module [ReviewPR]),
      - the chat and completion routes [src/routes/chat.js] and
        [src/routes/completion.js] (modules [Chat] and [Completion]),
      - [src/services/prompts.js] (module [Prompts]) and
        [src/services/contextBuilder.js] (module [ContextBuilder]),
      - [src/utils/envValidator.js] (module [EnvValidator]),
    over a small model of the JavaScript values these functions inspect. *)

From Stdlib Require Import List NArith ZArith QArith Bool Arith Lia String Ascii.
From Stdlib Require Import DecimalString.
Import ListNotations.

Set Implicit Arguments.
Set Warnings "-register-all".
Close Scope Q_scope.
Open Scope string_scope.
Open Scope list_scope.

(* ================================================================== *)
(** * JavaScript strings

    A JavaScript string is a sequence of UTF-16 code units; [length],
    [substring], [trim] and regular expressions without the [u] flag all work
    on code units. *)

Definition jschar := N.
Definition jsstring := list jschar.

(** An ASCII literal as a JavaScript string. *)
Definition str (s : string) : jsstring :=
  map N_of_ascii (list_ascii_of_string s).

Fixpoint jseqb (a b : jsstring) : bool :=
  match a, b with
  | [], [] => true
  | x :: a', y :: b' => N.eqb x y && jseqb a' b'
  | _, _ => false
  end.

(** ECMAScript WhiteSpace and LineTerminator code points: what
    [String.prototype.trim] strips and what [\s] matches. *)
Definition is_ws (c : jschar) : bool :=
  ((9 <=? c) && (c <=? 13) || (c =? 32) || (c =? 160) || (c =? 5760)
   || (8192 <=? c) && (c <=? 8202) || (c =? 8232) || (c =? 8233)
   || (c =? 8239) || (c =? 8287) || (c =? 12288) || (c =? 65279))%N.

Fixpoint trimStart (s : jsstring) : jsstring :=
  match s with
  | c :: s' => if is_ws c then trimStart s' else s
  | [] => []
  end.

Definition trimEnd (s : jsstring) : jsstring := rev (trimStart (rev s)).

(** [s.trim()] *)
Definition trim (s : jsstring) : jsstring := trimEnd (trimStart s).

(** [s.substring(0, n)] *)
Definition substring0 (n : nat) (s : jsstring) : jsstring := firstn n s.

(** [parts.join(sep)] on an array of strings. *)
Fixpoint join (sep : jsstring) (parts : list jsstring) : jsstring :=
  match parts with
  | [] => []
  | [p] => p
  | p :: rest => p ++ sep ++ join sep rest
  end.

(** Decimal rendering of a non-negative integer, as a template literal
    prints it. *)
Definition decimal (n : N) : jsstring :=
  str (NilEmpty.string_of_uint (N.to_uint n)).

(* ================================================================== *)
(** * JavaScript values *)

(** Numbers: the finite values are kept as rationals (every double is one);
    the program only compares them and takes minima, which is exact. *)
Inductive number :=
| NaN
| Infinity (negative : bool)
| Fin (q : Q).

(** [a < b] on numbers; any comparison with [NaN] is false. *)
Definition num_lt (a b : number) : bool :=
  match a, b with
  | NaN, _ | _, NaN => false
  | Infinity true, Infinity true => false
  | Infinity true, _ => true
  | _, Infinity true => false
  | Infinity false, _ => false
  | _, Infinity false => true
  | Fin x, Fin y => match (x ?= y)%Q with Lt => true | _ => false end
  end.

(** [Math.min(a, b)]: [NaN] if either argument is [NaN]. *)
Definition Math_min (a b : number) : number :=
  match a, b with
  | NaN, _ | _, NaN => NaN
  | _, _ => if num_lt b a then b else a
  end.

(** Thrown values: [Error] objects, told apart by constructor; only their
    [message] is read by the program. *)
Inductive exn :=
| Error (message : jsstring)
| TypeError (message : jsstring).

Definition message (e : exn) : jsstring :=
  match e with Error m | TypeError m => m end.

(** An own property is either a data property or an accessor whose getter
    throws. *)
Inductive slot (A : Type) :=
| Data (a : A)
| Getter_throws (e : exn).
Arguments Data {A} a.
Arguments Getter_throws {A} e.

Inductive value :=
| VUndefined
| VNull
| VBool (b : bool)
| VNum (n : number)
| VStr (s : jsstring)
| VArr (elems : list value)
| VObj (props : list (jsstring * slot value)).

(** Object literals of data properties. *)
Definition obj (fields : list (string * value)) : value :=
  VObj (map (fun kv => (str (fst kv), Data (snd kv))) fields).

Definition vstr (s : string) : value := VStr (str s).
Definition vint (z : Z) : value := VNum (Fin (inject_Z z)).

(** Results of evaluating JavaScript that may throw. *)
Inductive res (A : Type) :=
| Ok (a : A)
| Throw (e : exn).
Arguments Ok {A} a.
Arguments Throw {A} e.

Definition rbind {A B} (m : res A) (k : A -> res B) : res B :=
  match m with Ok a => k a | Throw e => Throw e end.

Declare Scope res_scope.
Delimit Scope res_scope with res.
Notation "x <- m ;; k" := (rbind m (fun x => k))
  (at level 61, m at next level, right associativity) : res_scope.

(** [!!v] *)
Definition truthy (v : value) : bool :=
  match v with
  | VUndefined | VNull => false
  | VBool b => b
  | VNum NaN => false
  | VNum (Infinity _) => true
  | VNum (Fin q) => negb (Qeq_bool q 0)
  | VStr s => match s with [] => false | _ => true end
  | VArr _ | VObj _ => true
  end.

Inductive jstype := TUndefined | TObject | TBoolean | TNumber | TString.

(** [typeof v] *)
Definition typeof (v : value) : jstype :=
  match v with
  | VUndefined => TUndefined
  | VNull | VArr _ | VObj _ => TObject
  | VBool _ => TBoolean
  | VNum _ => TNumber
  | VStr _ => TString
  end.

Definition is_object (v : value) : bool :=
  match typeof v with TObject => true | _ => false end.

Fixpoint lookup (k : jsstring) (props : list (jsstring * slot value))
  : option (slot value) :=
  match props with
  | [] => None
  | (k', s) :: rest => if jseqb k k' then Some s else lookup k rest
  end.

(** [v.k] for the property names the program reads (none of them is a
    property of the String, Number, Boolean or Array prototypes, so on a
    primitive or an array the read gives [undefined]); reading a property of
    [null] or [undefined] throws. *)
Definition get (v : value) (k : string) : res value :=
  match v with
  | VUndefined =>
      Throw (TypeError (str "Cannot read properties of undefined (reading '"
                          ++ str k ++ str "')"))
  | VNull =>
      Throw (TypeError (str "Cannot read properties of null (reading '"
                          ++ str k ++ str "')"))
  | VObj props =>
      match lookup (str k) props with
      | Some (Data a) => Ok a
      | Some (Getter_throws e) => Throw e
      | None => Ok VUndefined
      end
  | _ => Ok VUndefined
  end.

(** [v?.k] *)
Definition get_opt (v : value) (k : string) : res value :=
  match v with
  | VUndefined | VNull => Ok VUndefined
  | _ => get v k
  end.

Definition nonblank (s : jsstring) : bool :=
  match trim s with [] => false | _ => true end.

(** [Array.prototype.filter] and [map] with callbacks that may throw: the
    callback runs on the elements in order and the first exception aborts
    the traversal. *)
Fixpoint filterM {A} (f : A -> res bool) (l : list A) : res (list A) :=
  match l with
  | [] => Ok []
  | x :: l' =>
      (b <- f x ;;
       kept <- filterM f l' ;;
       Ok (if b then x :: kept else kept))%res
  end.

Fixpoint mapM {A B} (f : A -> res B) (l : list A) : res (list B) :=
  match l with
  | [] => Ok []
  | x :: l' =>
      (y <- f x ;;
       ys <- mapM f l' ;;
       Ok (y :: ys))%res
  end.

(* ================================================================== *)
(** * Regular expressions

    The fragment of ECMAScript regular expressions the decoder uses, with the
    backtracking semantics of the language: a matcher takes the rest of the
    input, the capture so far and a continuation, and tries its choices in
    priority order. All three expressions have one capturing group. *)

Inductive regex :=
| RLit (s : jsstring)                      (* literal characters *)
| RStar (greedy : bool) (p : jschar -> bool) (* [c*] or [c*?] for a class [c] *)
| RSeq (r1 r2 : regex)
| RAlt (r1 r2 : regex)                     (* [r1|r2] *)
| ROpt (r : regex)                         (* [r?] *)
| RGroup (r : regex).                      (* [(r)], capture 1 *)

Fixpoint lit_match (l s : jsstring) : option jsstring :=
  match l, s with
  | [], _ => Some s
  | c :: l', d :: s' => if N.eqb c d then lit_match l' s' else None
  | _ :: _, [] => None
  end.

Section Matcher.
Variable R : Type.

Fixpoint star_greedy (p : jschar -> bool) (k : jsstring -> option R)
    (s : jsstring) : option R :=
  match s with
  | c :: s' =>
      if p c then
        match star_greedy p k s' with
        | Some r => Some r
        | None => k s
        end
      else k s
  | [] => k s
  end.

Fixpoint star_lazy (p : jschar -> bool) (k : jsstring -> option R)
    (s : jsstring) : option R :=
  match k s with
  | Some r => Some r
  | None =>
      match s with
      | c :: s' => if p c then star_lazy p k s' else None
      | [] => None
      end
  end.

Fixpoint rmatch (r : regex) (s : jsstring) (cap : option jsstring)
    (k : jsstring -> option jsstring -> option R) : option R :=
  match r with
  | RLit l =>
      match lit_match l s with
      | Some s' => k s' cap
      | None => None
      end
  | RStar true p => star_greedy p (fun s' => k s' cap) s
  | RStar false p => star_lazy p (fun s' => k s' cap) s
  | RSeq r1 r2 => rmatch r1 s cap (fun s1 cap1 => rmatch r2 s1 cap1 k)
  | RAlt r1 r2 =>
      match rmatch r1 s cap k with
      | Some x => Some x
      | None => rmatch r2 s cap k
      end
  | ROpt r' =>
      match rmatch r' s cap k with
      | Some x => Some x
      | None => k s cap
      end
  | RGroup r' =>
      rmatch r' s cap
        (fun s' _ => k s' (Some (firstn (List.length s - List.length s') s)))
  end.
End Matcher.

(** [text.match(re)] for [re] without the [g] flag: the match at the leftmost
    start position that has one. [None] is [null]; [Some cap] is the match
    array, [cap] its element 1 ([None] when the group took no part). *)
Fixpoint exec (r : regex) (s : jsstring) : option (option jsstring) :=
  match rmatch r s None (fun _ cap => Some cap) with
  | Some cap => Some cap
  | None =>
      match s with
      | [] => None
      | _ :: s' => exec r s'
      end
  end.

(** [m && m[1]] as a condition, giving the captured text when it holds. *)
Definition group1 (m : option (option jsstring)) : option jsstring :=
  match m with
  | Some (Some (c :: g)) => Some (c :: g)
  | _ => None
  end.

Definition any_char (_ : jschar) : bool := true.

Definition backtick : jschar := 96%N.
Definition dquote : jschar := 34%N.
Definition lbrace : jschar := 123%N.
Definition rbrace : jschar := 125%N.
Definition lbracket : jschar := 91%N.
Definition rbracket : jschar := 93%N.
Definition colon : jschar := 58%N.
Definition newline : jschar := 10%N.

Definition fence : jsstring := [backtick; backtick; backtick].
Definition quoted (s : string) : jsstring := dquote :: str s ++ [dquote].

(* ================================================================== *)
(** * The review route: decoder and sanitizer *)

Module Review.

(** [/```(?:json)?\s*([\s\S]*?)\s*```/] *)
Definition re_fenced : regex :=
  RSeq (RLit fence)
    (RSeq (ROpt (RLit (str "json")))
      (RSeq (RStar true is_ws)
        (RSeq (RGroup (RStar false any_char))
          (RSeq (RStar true is_ws) (RLit fence))))).

(** [/(\{[\s\S]*\}|\[[\s\S]*\])/] *)
Definition re_bracketed : regex :=
  RGroup
    (RAlt
      (RSeq (RLit [lbrace]) (RSeq (RStar true any_char) (RLit [rbrace])))
      (RSeq (RLit [lbracket]) (RSeq (RStar true any_char) (RLit [rbracket])))).

(** [/(?:"summary"|"comments"|"patches"|"testCases")\s*:[\s\S]*?(\{[\s\S]*?\})/] *)
Definition re_labeled : regex :=
  RSeq
    (RAlt (RLit (quoted "summary"))
      (RAlt (RLit (quoted "comments"))
        (RAlt (RLit (quoted "patches")) (RLit (quoted "testCases")))))
    (RSeq (RStar true is_ws)
      (RSeq (RLit [colon])
        (RSeq (RStar false any_char)
          (RGroup
            (RSeq (RLit [lbrace])
              (RSeq (RStar false any_char) (RLit [rbrace]))))))).

Section Decoder.
(** The built-in [JSON.parse]: [None] when it throws a [SyntaxError]. *)
Variable JSON_parse : jsstring -> option value.

(** One rung of the ladder below the direct parse: [if (m && m[1])
    { try { return JSON.parse(prep(m[1])) } catch { warn } }]. *)
Definition parse_match (m : option (option jsstring))
    (prep : jsstring -> jsstring) : option value :=
  match group1 m with
  | Some g => JSON_parse (prep g)
  | None => None
  end.

Definition extractJSON (text : value) : res value :=
  match text with
  | VStr t =>
      if negb (truthy text) then
        Throw (Error (str "Invalid input: expected string"))
      else
        let trimmed := trim t in
        if (List.length trimmed =? 0)%nat then
          Throw (Error (str "Empty text provided"))
        else
          match JSON_parse trimmed with
          | Some v => Ok v
          | None =>
              match parse_match (exec re_fenced t) trim with
              | Some v => Ok v
              | None =>
                  match parse_match (exec re_bracketed t) (fun g => g) with
                  | Some v => Ok v
                  | None =>
                      match parse_match (exec re_labeled t) (fun g => g) with
                      | Some v => Ok v
                      | None =>
                          Throw (Error (str "Could not extract valid JSON from response after multiple attempts"))
                      end
                  end
              end
          end
  | _ => Throw (Error (str "Invalid input: expected string"))
  end.
End Decoder.

(** The object [validateReview] returns. [comments] and [patches] hold the
    entry objects of the input themselves. *)
Record review := {
  summary : jsstring;
  comments : list value;
  patches : list value;
  testCases : list value;
  status : jsstring
}.

Definition createDefaultReview : review :=
  {| summary := str "Automated code review completed. Please review for accuracy.";
     comments := [];
     patches := [];
     testCases := [];
     status := str "default" |}.

(** The callback of [data.comments.filter] ([payload] = ["comment"]) and of
    [data.patches.filter] ([payload] = ["diff"]):
    [c && typeof c === "object"
       && typeof c.file === "string" && c.file.trim().length > 0
       && typeof c.<payload> === "string" && c.<payload>.trim().length > 0]. *)
Definition entry_ok (payload : string) (c : value) : res bool :=
  if truthy c && is_object c then
    (f <- get c "file" ;;
     match f with
     | VStr fs =>
         if nonblank fs then
           p <- get c payload ;;
           match p with
           | VStr ps => Ok (nonblank ps)
           | _ => Ok false
           end
         else Ok false
     | _ => Ok false
     end)%res
  else Ok false.

(** [tc => typeof tc === "string" && tc.trim().length > 0] *)
Definition testCase_ok (tc : value) : res bool :=
  match tc with
  | VStr s => Ok (nonblank s)
  | _ => Ok false
  end.

(** [tc => tc.substring(0, 500)] *)
Definition testCase_cut (tc : value) : res value :=
  match tc with
  | VStr s => Ok (VStr (substring0 500 s))
  | VUndefined | VNull =>
      Throw (TypeError (str "Cannot read properties of undefined (reading 'substring')"))
  | _ => Throw (TypeError (str "tc.substring is not a function"))
  end.

(** The [try] block of [validateReview]. *)
Definition validateReview_try (data : value) : res review :=
  (s <- get data "summary" ;;
   let summary_ :=
     match s with
     | VStr t => substring0 3000 (trim t)
     | _ => str "Code review completed."
     end in
   cs <- get data "comments" ;;
   comments_ <-
     match cs with
     | VArr l => kept <- filterM (entry_ok "comment") l ;; Ok (firstn 100 kept)
     | _ => Ok []
     end ;;
   ps <- get data "patches" ;;
   patches_ <-
     match ps with
     | VArr l => kept <- filterM (entry_ok "diff") l ;; Ok (firstn 30 kept)
     | _ => Ok []
     end ;;
   ts <- get data "testCases" ;;
   testCases_ <-
     match ts with
     | VArr l =>
         kept <- filterM testCase_ok l ;;
         cut <- mapM testCase_cut kept ;;
         Ok (firstn 20 cut)
     | _ => Ok []
     end ;;
   Ok {| summary := summary_;
         comments := comments_;
         patches := patches_;
         testCases := testCases_;
         status := str "validated" |})%res.

Definition validateReview (data : value) : review :=
  if negb (truthy data) || negb (is_object data) then createDefaultReview
  else
    match validateReview_try data with
    | Ok r => r
    | Throw _ => createDefaultReview
    end.

End Review.

(* ================================================================== *)
(** * Providers: configuration, requests and the host they run on *)

(** An entry of the fallback list. *)
Record attempt := { provider : jsstring; model : jsstring }.

(** [FALLBACK_MODELS], the same constant in both router files. *)
Definition FALLBACK_MODELS : list attempt :=
  [ {| provider := str "gemini"; model := str "gemini-2.0-flash" |};
    {| provider := str "gemini"; model := str "gemini-2.0-pro" |};
    {| provider := str "groq";   model := str "llama-3.1-70b-versatile" |};
    {| provider := str "openai"; model := str "gpt-4.1-mini" |};
    {| provider := str "ollama"; model := str "llama3" |} ].

(** The variables of [process.env] the routers read ([None]: not set). *)
Record env := {
  GEMINI_API_KEY : option jsstring;
  GROQ_API_KEY : option jsstring;
  OPENAI_API_KEY : option jsstring;
  OLLAMA_HOST : option jsstring;
  MOCK_MODE : option jsstring
}.

(** [const mockMode = process.env.MOCK_MODE === "true"] *)
Definition mockMode (e : env) : bool :=
  match MOCK_MODE e with
  | Some v => jseqb v (str "true")
  | None => false
  end.

(** [process.env.OLLAMA_HOST || "http://localhost:11434"] *)
Definition ollamaHost (e : env) : jsstring :=
  match OLLAMA_HOST e with
  | Some (c :: h) => c :: h
  | _ => str "http://localhost:11434"
  end.

Inductive sdk := Gemini | Groq | OpenAI.

(** The argument of [chat.completions.create]. *)
Record chat_body := {
  chat_model : jsstring;
  chat_messages : value;
  max_tokens : number;
  temperature : option number
}.

(** The arguments of [fetch]: the URL, the fields of the JSON body and the
    [timeout] option. *)
Record fetch_args := {
  url : jsstring;
  body_model : jsstring;
  body_prompt : jsstring;
  body_stream : option bool;
  timeout : N
}.

(** A call to a provider. *)
Inductive request :=
| GenerateContent (model_ prompt : jsstring)  (* Gemini SDK *)
| GroqCreate (body : chat_body)
| OpenAICreate (body : chat_body)
| Fetch (args : fetch_args).                  (* Ollama over HTTP *)

(** [null] or [undefined] *)
Inductive nullish := IsNull | IsUndefined.

(** What [generateContent] resolves to, as far as the routers look at it:
    a [result] that is [null] or [undefined]; a [result] whose [response] is
    [null] or [undefined]; or a [result] with a [response], given by the
    outcome of [result.response.text()]. *)
Inductive gemini_result :=
| ResultNullish (which : nullish)
| ResultNoResponse (which : nullish)
| ResultResponse (text : res value).

(** The [Response] of [fetch]: [ok], [status] and what [json()] resolves
    to. *)
Record http_response := {
  ok : bool;
  http_status : N;
  json : res value
}.

(** What a call came back with; [Throw] is a rejected promise. *)
Inductive response :=
| GeminiResponse (r : res gemini_result)
| ChatResponse (r : res value)
| FetchResponse (r : res http_response).

Record call := { call_request : request; call_response : response }.

(** Everything outside the program: the SDK constructors, the three kinds of
    network call acting on a world [W], and the coercions of the language
    that the routers can reach on unvalidated input. *)
Class Host (W : Type) := {
  construct : sdk -> jsstring -> option exn;   (* [new Client(key)]; [Some e]: throws *)
  generateContent : W -> jsstring -> jsstring -> res gemini_result * W;
  groq_create : W -> chat_body -> res value * W;
  openai_create : W -> chat_body -> res value * W;
  fetch : W -> fetch_args -> res http_response * W;
  NumberToString : number -> jsstring;
  ObjectToString : value -> jsstring;
  StringToNumber : jsstring -> number;
  ObjectToNumber : value -> number
}.

(** The state a router call runs in: the world, the calls issued so far
    (oldest first) and the module-level variables of the router. *)
Record state (W : Type) := {
  world : W;
  calls : list call;
  gemini : bool;               (* [gemini !== null] *)
  groq : bool;
  openai : bool;
  clientsInitialized : bool
}.

Definition IO (W A : Type) := state W -> res A * state W.

Section IO.
Context {W : Type} {host : Host W}.

Definition ret {A} (a : A) : IO W A := fun st => (Ok a, st).
Definition throw {A} (e : exn) : IO W A := fun st => (Throw e, st).
Definition lift {A} (r : res A) : IO W A := fun st => (r, st).

Definition bind {A B} (m : IO W A) (k : A -> IO W B) : IO W B :=
  fun st =>
    match m st with
    | (Ok a, st') => k a st'
    | (Throw e, st') => (Throw e, st')
    end.

(** [try { m } catch (err) { h err }] *)
Definition catch {A} (m : IO W A) (h : exn -> IO W A) : IO W A :=
  fun st =>
    match m st with
    | (Ok a, st') => (Ok a, st')
    | (Throw e, st') => h e st'
    end.

Definition record (rq : request) (rs : response) (w : W) (st : state W)
  : state W :=
  {| world := w;
     calls := calls st ++ [ {| call_request := rq; call_response := rs |} ];
     gemini := gemini st;
     groq := groq st;
     openai := openai st;
     clientsInitialized := clientsInitialized st |}.

(** [await gemini.getGenerativeModel({ model }).generateContent(prompt)] *)
Definition await_generateContent (m p : jsstring) : IO W gemini_result :=
  fun st =>
    let (r, w) := generateContent (world st) m p in
    (r, record (GenerateContent m p) (GeminiResponse r) w st).

(** [await groq.chat.completions.create(body)] *)
Definition await_groq (b : chat_body) : IO W value :=
  fun st =>
    let (r, w) := groq_create (world st) b in
    (r, record (GroqCreate b) (ChatResponse r) w st).

(** [await openai.chat.completions.create(body)] *)
Definition await_openai (b : chat_body) : IO W value :=
  fun st =>
    let (r, w) := openai_create (world st) b in
    (r, record (OpenAICreate b) (ChatResponse r) w st).

(** [await fetch(url, options)] *)
Definition await_fetch (a : fetch_args) : IO W http_response :=
  fun st =>
    let (r, w) := fetch (world st) a in
    (r, record (Fetch a) (FetchResponse r) w st).

(** [String(v)] *)
Definition ToString (v : value) : jsstring :=
  match v with
  | VStr s => s
  | VUndefined => str "undefined"
  | VNull => str "null"
  | VBool true => str "true"
  | VBool false => str "false"
  | VNum n => NumberToString n
  | VArr _ | VObj _ => ObjectToString v
  end.

(** [Number(v)] *)
Definition ToNumber (v : value) : number :=
  match v with
  | VNum n => n
  | VUndefined => NaN
  | VNull => Fin 0
  | VBool true => Fin 1
  | VBool false => Fin 0
  | VStr s => StringToNumber s
  | VArr _ | VObj _ => ObjectToNumber v
  end.

(** [arr.join(sep)]: [undefined] and [null] elements print as nothing. *)
Definition join_values (sep : jsstring) (l : list value) : jsstring :=
  join sep
    (map (fun v => match v with
                   | VUndefined | VNull => []
                   | _ => ToString v
                   end) l).

(** [messages.map(m => m.content).join("\n")], for [messages] an array. *)
Definition prompt_of (ms : list value) : res jsstring :=
  (contents <- mapM (fun m => get m "content") ms ;;
   Ok (join_values [newline] contents))%res.
End IO.

Declare Scope io_scope.
Delimit Scope io_scope with io.
Notation "x <- m ;; k" := (bind m (fun x => k))
  (at level 61, m at next level, right associativity) : io_scope.

(** [{ choices: [{ message: { content } }] }] *)
Definition chat_response (content : value) : value :=
  obj [("choices", VArr [obj [("message", obj [("content", content)])]])].

Definition is_string (v : value) : bool :=
  match typeof v with TString => true | _ => false end.

Definition is_number (v : value) : bool :=
  match typeof v with TNumber => true | _ => false end.

(** [s.length], as a number to compare with large literals. *)
Definition jslength (s : jsstring) : N := N.of_nat (List.length s).

(** [KEY] as a condition: set and not the empty string. *)
Definition key_truthy (key : option jsstring) : option jsstring :=
  match key with
  | Some (c :: k) => Some (c :: k)
  | _ => None
  end.

(** What one pass of a fallback loop body does. *)
Inductive step :=
| Return (v : value)          (* [return v] out of [callModel] *)
| Failed (reason : exn)       (* the [catch] of the loop body ran *)
| Skipped.                    (* no branch applied *)

(* ================================================================== *)
(** * [src/services/modelRouter.js] *)

Module Router.
Section Router.
Context {W : Type} {host : Host W}.
Variable E : env.

(** One block of [initializeClients]:
    [try { if (KEY && KEY.trim().length > 0) client = new Client(KEY) }
     catch (err) { warn }]. *)
Definition init_client (k : sdk) (key : option jsstring) (current : bool)
  : bool :=
  match key_truthy key with
  | Some key' =>
      if nonblank key' then
        match construct k key' with
        | None => true
        | Some _ => current
        end
      else current
  | None => current
  end.

Definition initializeClients : IO W unit :=
  fun st =>
    if clientsInitialized st then (Ok tt, st)
    else
      (Ok tt,
       {| world := world st;
          calls := calls st;
          gemini := init_client Gemini (GEMINI_API_KEY E) (gemini st);
          groq := init_client Groq (GROQ_API_KEY E) (groq st);
          openai := init_client OpenAI (OPENAI_API_KEY E) (openai st);
          clientsInitialized := true |}).

(** The body of the [for] loop of [validateMessages]. *)
Definition validateMessage (msg : value) : res unit :=
  if negb (truthy msg) || negb (is_object msg) then
    Throw (Error (str "each message must be an object"))
  else
    (content <- get msg "content" ;;
     if negb (truthy content) || negb (is_string content) then
       Throw (Error (str "each message must have a non-empty string content field"))
     else
       match content with
       | VStr s =>
           if (100000 <? jslength s)%N then
             Throw (Error (str "message content exceeds maximum length (100KB)"))
           else Ok tt
       | _ => Ok tt
       end)%res.

Fixpoint validateEach (ms : list value) : res unit :=
  match ms with
  | [] => Ok tt
  | msg :: ms' => (_ <- validateMessage msg ;; validateEach ms')%res
  end.

Definition validateMessages (messages : value) : res unit :=
  match messages with
  | VArr (m :: ms) => validateEach (m :: ms)
  | _ => Throw (Error (str "messages must be a non-empty array"))
  end.

Definition validateResponse (response : value) (provider_ : string)
  : res bool :=
  if negb (truthy response) then
    Throw (Error (str "Empty response from " ++ str provider_))
  else
    (choices <- get response "choices" ;;
     valid <-
       match choices with
       | VArr (c0 :: _) =>
           m <- get_opt c0 "message" ;;
           content <- get_opt m "content" ;;
           match content with
           | VStr s => Ok (truthy content && nonblank s)
           | _ => Ok false
           end
       | _ => Ok false
       end ;;
     if (valid : bool) then Ok true
     else Throw (Error (str "Invalid response structure from " ++ str provider_)))%res.

(** The Gemini branch after [await model.generateContent(prompt)]. *)
Definition gemini_after (result : gemini_result) : res value :=
  match result with
  | ResultNullish _ | ResultNoResponse _ =>
      Throw (Error (str "Invalid response structure from Gemini"))
  | ResultResponse t =>
      (text <- t ;;
       if negb (truthy text) then Throw (Error (str "Empty response from Gemini"))
       else
         match text with
         | VStr s =>
             if nonblank s then Ok (chat_response text)
             else Throw (Error (str "Empty response from Gemini"))
         | _ => Throw (TypeError (str "text.trim is not a function"))
         end)%res
  end.

(** The body of the Groq and OpenAI requests; [0.7] is the literal of the
    source. *)
Definition chat_request (a : attempt) (prompt : jsstring) (maxTokens : number)
  : chat_body :=
  {| chat_model := model a;
     chat_messages := VArr [obj [("role", vstr "user"); ("content", VStr prompt)]];
     max_tokens := Math_min maxTokens (Fin 2000);
     temperature := Some (Fin (7 # 10)) |}.

Definition ollama_request (a : attempt) (prompt : jsstring) : fetch_args :=
  {| url := ollamaHost E ++ str "/api/generate";
     body_model := model a;
     body_prompt := prompt;
     body_stream := Some false;
     timeout := 30000 |}.

(** [r => { if (!r.ok) throw new Error(`HTTP ${r.status}`); return r.json() }] *)
Definition fetch_then (r : http_response) : res value :=
  if negb (ok r) then Throw (Error (str "HTTP " ++ decimal (http_status r)))
  else json r.

(** The Ollama branch after the [await]. *)
Definition ollama_after (data : value) : res value :=
  (response <- get_opt data "response" ;;
   if negb (truthy response) || negb (is_string response) then
     Throw (Error (str "Invalid response from Ollama"))
   else
     match response with
     | VStr s =>
         if (List.length (trim s) =? 0)%nat then
           Throw (Error (str "Empty response from Ollama"))
         else Ok (chat_response response)
     | _ => Throw (TypeError (str "res.response.trim is not a function"))
     end)%res.

Definition try_gemini (a : attempt) (prompt : jsstring) : IO W value :=
  (result <- await_generateContent (model a) prompt ;;
   lift (gemini_after result))%io.

Definition try_groq (a : attempt) (prompt : jsstring) (maxTokens : number)
  : IO W value :=
  (r <- await_groq (chat_request a prompt maxTokens) ;;
   _ <- lift (validateResponse r "Groq") ;;
   ret r)%io.

Definition try_openai (a : attempt) (prompt : jsstring) (maxTokens : number)
  : IO W value :=
  (r <- await_openai (chat_request a prompt maxTokens) ;;
   _ <- lift (validateResponse r "OpenAI") ;;
   ret r)%io.

Definition try_ollama (a : attempt) (prompt : jsstring) : IO W value :=
  (r <- await_fetch (ollama_request a prompt) ;;
   data <- lift (fetch_then r) ;;
   lift (ollama_after data))%io.

(** The body of [for (const attempt of FALLBACK_MODELS)]: a branch that
    applies ends in [return] or throws. The Ollama branch has a [try] of
    its own inside the outer one; both handlers only warn and
    [continue]. *)
Definition run_attempt (prompt : jsstring) (maxTokens : number) (a : attempt)
  : IO W step :=
  fun st =>
    catch
      (if jseqb (provider a) (str "gemini") && gemini st then
         (v <- try_gemini a prompt ;; ret (Return v))%io
       else if jseqb (provider a) (str "groq") && groq st then
         (v <- try_groq a prompt maxTokens ;; ret (Return v))%io
       else if jseqb (provider a) (str "openai") && openai st then
         (v <- try_openai a prompt maxTokens ;; ret (Return v))%io
       else if jseqb (provider a) (str "ollama") then
         catch (v <- try_ollama a prompt ;; ret (Return v))%io
           (fun ollamaErr => ret (Failed ollamaErr))
       else ret Skipped)
      (fun err => ret (Failed err)) st.

Fixpoint fallback_loop (prompt : jsstring) (maxTokens : number)
    (attempts : list attempt) : IO W (option value) :=
  match attempts with
  | [] => ret None
  | a :: rest =>
      (s <- run_attempt prompt maxTokens a ;;
       match s with
       | Return v => ret (Some v)
       | Failed _ | Skipped => fallback_loop prompt maxTokens rest
       end)%io
  end.

(** U+274C followed by the text of the final [throw]. *)
Definition all_failed : jsstring :=
  10060%N :: str " All AI providers failed - no response generated. Check API keys and connectivity.".

(** [if (typeof maxTokens !== "number" || maxTokens < 1) throw ...] *)
Definition check_maxTokens (maxTokens : value) : res number :=
  match maxTokens with
  | VNum n =>
      if num_lt n (Fin 1) then
        Throw (Error (str "maxTokens must be a positive number"))
      else Ok n
  | _ => Throw (Error (str "maxTokens must be a positive number"))
  end.

Definition mock_response : value :=
  chat_response (vstr "Mock response (MOCK_MODE=true)").

(** [callModel(modelName, messages, maxTokens = 200)]; the outer [catch]
    logs and rethrows. *)
Definition callModel (modelName messages maxTokens_arg : value) : IO W value :=
  let maxTokens :=
    match maxTokens_arg with VUndefined => vint 200 | v => v end in
  catch
    (_ <- lift (validateMessages messages) ;;
     n <- lift (check_maxTokens maxTokens) ;;
     _ <- initializeClients ;;
     prompt <- lift (match messages with
                     | VArr ms => prompt_of ms
                     | _ => Throw (TypeError (str "messages.map is not a function"))
                     end) ;;
     _ <- lift (if negb (truthy (VStr prompt)) || (List.length (trim prompt) =? 0)%nat
                then Throw (Error (str "Empty prompt generated from messages"))
                else Ok tt) ;;
     if mockMode E then ret mock_response
     else
       r <- fallback_loop prompt n FALLBACK_MODELS ;;
       match r with
       | Some v => ret v
       | None => throw (Error all_failed)
       end)%io
    (fun err => throw err).
End Router.
End Router.

(* ================================================================== *)
(** * [src/services/modelRouter_optimized.js] *)

Module Optimized.
Section Optimized.
Context {W : Type} {host : Host W}.
Variable E : env.

(** One line of [initializeClients]:
    [if (!client && KEY) client = new Client(KEY)]; a constructor that
    throws is not caught here. *)
Definition init_client (k : sdk) (key : option jsstring) (current : bool)
  : res bool :=
  if negb current then
    match key_truthy key with
    | Some key' =>
        match construct k key' with
        | None => Ok true
        | Some e => Throw e
        end
    | None => Ok current
    end
  else Ok current.

Definition initializeClients : IO W unit :=
  fun st =>
    match init_client Gemini (GEMINI_API_KEY E) (gemini st) with
    | Throw e => (Throw e, st)
    | Ok g =>
        let st1 := {| world := world st; calls := calls st; gemini := g;
                      groq := groq st; openai := openai st;
                      clientsInitialized := clientsInitialized st |} in
        match init_client Groq (GROQ_API_KEY E) (groq st) with
        | Throw e => (Throw e, st1)
        | Ok q =>
            let st2 := {| world := world st; calls := calls st; gemini := g;
                          groq := q; openai := openai st;
                          clientsInitialized := clientsInitialized st |} in
            match init_client OpenAI (OPENAI_API_KEY E) (openai st) with
            | Throw e => (Throw e, st2)
            | Ok o =>
                (Ok tt,
                 {| world := world st; calls := calls st; gemini := g;
                    groq := q; openai := o;
                    clientsInitialized := clientsInitialized st |})
            end
        end
    end.

(** The truth value of the [&&] chain of [validateResponse]. *)
Definition validateResponse (response : value) : res bool :=
  if negb (truthy response) then Ok false
  else
    (choices <- get response "choices" ;;
     match choices with
     | VArr (c0 :: _) =>
         m <- get c0 "message" ;;
         if negb (truthy m) then Ok false
         else
           content <- get m "content" ;;
           if negb (truthy content) then Ok false
           else
             match content with
             | VStr s => Ok (negb (List.length (trim s) =? 0)%nat)
             | _ =>
                 Throw (TypeError
                   (str "response.choices[0].message.content.trim is not a function"))
             end
     | _ => Ok false
     end)%res.

(** [try { m } catch (error) { throw new Error(`<label> error: ${error.message}`) }] *)
Definition wrapping (label : string) {A} (m : IO W A) : IO W A :=
  catch m
    (fun error => throw (Error (str label ++ str " error: " ++ message error))).

(** The message of the [TypeError] for reading the property [k] of [null]
    or of [undefined]. *)
Definition cannot_read (which : nullish) (k : string) : jsstring :=
  str "Cannot read properties of "
  ++ str (match which with IsNull => "null" | IsUndefined => "undefined" end)
  ++ str " (reading '" ++ str k ++ str "')".

(** [callGemini] after the [await]: [result.response.text()] and the
    returned object. *)
Definition gemini_after (result : gemini_result) : res value :=
  match result with
  | ResultNullish which =>
      Throw (TypeError (cannot_read which "response"))
  | ResultNoResponse which =>
      Throw (TypeError (cannot_read which "text"))
  | ResultResponse t => (text <- t ;; Ok (chat_response text))%res
  end.

Definition callGemini (modelName prompt : jsstring) : IO W value :=
  wrapping "Gemini"
    (result <- await_generateContent modelName prompt ;;
     lift (gemini_after result))%io.

Definition callGroq (modelName : jsstring) (messages : list value)
    (maxTokens : value) : IO W value :=
  wrapping "Groq"
    (content <- lift (prompt_of messages) ;;
     await_groq
       {| chat_model := modelName;
          chat_messages :=
            VArr [obj [("role", vstr "user"); ("content", VStr content)]];
          max_tokens := Math_min (ToNumber maxTokens) (Fin 2000);
          temperature := None |})%io.

Definition callOpenAI (modelName : jsstring) (messages : list value)
    (maxTokens : value) : IO W value :=
  wrapping "OpenAI"
    (await_openai
       {| chat_model := modelName;
          chat_messages := VArr messages;
          max_tokens := Math_min (ToNumber maxTokens) (Fin 2000);
          temperature := None |}).

(** [callOllama] after the [await fetch]: the status check,
    [await response.json()] and [data.response || ""]. *)
Definition ollama_after (r : http_response) : res value :=
  if negb (ok r) then Throw (Error (str "HTTP " ++ decimal (http_status r)))
  else
    (data <- json r ;;
     response <- get data "response" ;;
     Ok (chat_response (if truthy response then response else VStr [])))%res.

Definition callOllama (modelName prompt : jsstring) : IO W value :=
  wrapping "Ollama"
    (r <- await_fetch
            {| url := ollamaHost E ++ str "/api/generate";
               body_model := modelName;
               body_prompt := prompt;
               body_stream := None;
               timeout := 30000 |} ;;
     lift (ollama_after r))%io.

(** The [if / else if] chain of the loop body: [None] is the final [else],
    which logs the skip and [continue]s. *)
Definition route (prompt : jsstring) (messages : list value)
    (maxTokens : value) (a : attempt) : IO W (option value) :=
  fun st =>
    (if jseqb (provider a) (str "gemini") && gemini st then
       (r <- callGemini (model a) prompt ;; ret (Some r))%io
     else if jseqb (provider a) (str "groq") && groq st then
       (r <- callGroq (model a) messages maxTokens ;; ret (Some r))%io
     else if jseqb (provider a) (str "openai") && openai st then
       (r <- callOpenAI (model a) messages maxTokens ;; ret (Some r))%io
     else if jseqb (provider a) (str "ollama") then
       (r <- callOllama (model a) prompt ;; ret (Some r))%io
     else ret None) st.

(** The body of the loop: the [try] block, with its [catch] turned into
    [Failed]. *)
Definition run_attempt (prompt : jsstring) (messages : list value)
    (maxTokens : value) (a : attempt) : IO W step :=
  catch
    (routed <- route prompt messages maxTokens a ;;
     match routed with
     | None => ret Skipped
     | Some response =>
         valid <- lift (validateResponse response) ;;
         if (valid : bool) then ret (Return response)
         else throw (Error (str "Invalid response structure"))
     end)%io
    (fun err => ret (Failed err)).

(** [`${attempt.provider}:${attempt.model} (${err.message})`] *)
Definition failure_entry (a : attempt) (err : exn) : jsstring :=
  provider a ++ str ":" ++ model a ++ str " (" ++ message err ++ str ")".

(** The loop; [failedAttempts] is the array the [catch] pushes to. *)
Fixpoint fallback_loop (prompt : jsstring) (messages : list value)
    (maxTokens : value) (attempts : list attempt)
    (failedAttempts : list jsstring) : IO W (value + list jsstring) :=
  match attempts with
  | [] => ret (inr failedAttempts)
  | a :: rest =>
      (s <- run_attempt prompt messages maxTokens a ;;
       match s with
       | Return v => ret (inl v)
       | Failed err =>
           fallback_loop prompt messages maxTokens rest
             (failedAttempts ++ [failure_entry a err])
       | Skipped =>
           fallback_loop prompt messages maxTokens rest failedAttempts
       end)%io
  end.

(** [`All AI providers failed. Attempted: ${failedAttempts.join(", ")}`] *)
Definition errorMsg (failedAttempts : list jsstring) : jsstring :=
  str "All AI providers failed. Attempted: " ++ join (str ", ") failedAttempts.

Definition mock_response : value :=
  chat_response
    (vstr "Mock response generated. Enable real API by setting MOCK_MODE=false and providing valid API keys.").

(** [callModel(modelName, messages, maxTokens = 200)] *)
Definition callModel (modelName messages maxTokens_arg : value) : IO W value :=
  let maxTokens :=
    match maxTokens_arg with VUndefined => vint 200 | v => v end in
  match messages with
  | VArr (m :: ms) =>
      (_ <- initializeClients ;;
       prompt <- lift (prompt_of (m :: ms)) ;;
       _ <- lift (if negb (truthy (VStr prompt)) || (List.length (trim prompt) =? 0)%nat
                  then Throw (Error (str "Empty prompt: no content in messages"))
                  else Ok tt) ;;
       if mockMode E then ret mock_response
       else
         r <- fallback_loop prompt (m :: ms) maxTokens FALLBACK_MODELS [] ;;
         match r with
         | inl v => ret v
         | inr failedAttempts => throw (Error (errorMsg failedAttempts))
         end)%io
  | _ => throw (Error (str "Invalid messages array: must be non-empty array"))
  end.
End Optimized.
End Optimized.

(* ================================================================== *)
(** * Observing a run *)

(** The fallback entry a call was issued for: the provider is the kind of the
    request, the model is the one the request names. *)
Definition call_attempt (c : call) : attempt :=
  match call_request c with
  | GenerateContent m _ => {| provider := str "gemini"; model := m |}
  | GroqCreate b => {| provider := str "groq"; model := chat_model b |}
  | OpenAICreate b => {| provider := str "openai"; model := chat_model b |}
  | Fetch a => {| provider := str "ollama"; model := body_model a |}
  end.

(** The output-token budget a request carries, if it carries one. *)
Definition budget (rq : request) : option number :=
  match rq with
  | GroqCreate b | OpenAICreate b => Some (max_tokens b)
  | GenerateContent _ _ | Fetch _ => None
  end.

(** Whether the loop body has a branch for the entry: its provider is one of
    the four and, for the SDK providers, the client exists. *)
Definition available {W} (st : state W) (a : attempt) : bool :=
  jseqb (provider a) (str "gemini") && gemini st
  || jseqb (provider a) (str "groq") && groq st
  || jseqb (provider a) (str "openai") && openai st
  || jseqb (provider a) (str "ollama").

(** [st'] is [st] after the one call [c]. *)
Definition after_call {W} (st : state W) (c : call) (st' : state W) : Prop :=
  calls st' = calls st ++ [c]
  /\ gemini st' = gemini st /\ groq st' = groq st /\ openai st' = openai st
  /\ clientsInitialized st' = clientsInitialized st.

(** What each router makes of a call that came back: the value it returns
    from [callModel], or the error its [catch] sees. *)
Definition router_verdict (c : call) : res value :=
  match call_response c with
  | GeminiResponse r => rbind r Router.gemini_after
  | ChatResponse r =>
      match call_request c with
      | GroqCreate _ =>
          (v <- r ;; _ <- Router.validateResponse v "Groq" ;; Ok v)%res
      | _ => (v <- r ;; _ <- Router.validateResponse v "OpenAI" ;; Ok v)%res
      end
  | FetchResponse r =>
      (h <- r ;; data <- Router.fetch_then h ;; Router.ollama_after data)%res
  end.

Definition rewrap (label : string) {A} (r : res A) : res A :=
  match r with
  | Ok a => Ok a
  | Throw e => Throw (Error (str label ++ str " error: " ++ message e))
  end.

Definition optimized_verdict (c : call) : res value :=
  (response <-
     match call_response c with
     | GeminiResponse r => rewrap "Gemini" (rbind r Optimized.gemini_after)
     | ChatResponse r =>
         match call_request c with
         | GroqCreate _ => rewrap "Groq" r
         | _ => rewrap "OpenAI" r
         end
     | FetchResponse r => rewrap "Ollama" (rbind r Optimized.ollama_after)
     end ;;
   valid <- Optimized.validateResponse response ;;
   if (valid : bool) then Ok response
   else Throw (Error (str "Invalid response structure")))%res.

Definition rejected (verdict : call -> res value) (c : call) : Prop :=
  exists e, verdict c = Throw e.

(* ================================================================== *)
(** * Concrete hosts and a small [JSON.parse], for examples *)

(** A host without a world whose calls always come back the same way. *)
Definition scripted (g : res gemini_result) (q o : res value)
    (f : res http_response) : Host unit :=
  {| construct := fun _ _ => None;
     generateContent := fun w _ _ => (g, w);
     groq_create := fun w _ => (q, w);
     openai_create := fun w _ => (o, w);
     fetch := fun w _ => (f, w);
     NumberToString := fun _ => str "0";
     ObjectToString := fun _ => str "[object Object]";
     StringToNumber := fun _ => NaN;
     ObjectToNumber := fun _ => NaN |}.

(** Every provider unreachable, each with an error of its own. *)
Definition host_down : Host unit :=
  scripted (Throw (Error (str "fetch failed")))
           (Throw (Error (str "401 invalid api key")))
           (Throw (Error (str "429 quota exceeded")))
           (Throw (Error (str "connect ECONNREFUSED 127.0.0.1:11434"))).

(** Gemini unreachable, Groq answering ["hi there"]. *)
Definition host_groq_up : Host unit :=
  scripted (Throw (Error (str "fetch failed")))
           (Ok (chat_response (vstr "hi there")))
           (Throw (Error (str "429 quota exceeded")))
           (Throw (Error (str "connect ECONNREFUSED 127.0.0.1:11434"))).

(** Gemini unreachable, Groq answering with blanks, OpenAI answering
    ["hi there"]. *)
Definition host_groq_blank : Host unit :=
  scripted (Throw (Error (str "fetch failed")))
           (Ok (chat_response (vstr "   ")))
           (Ok (chat_response (vstr "hi there")))
           (Throw (Error (str "connect ECONNREFUSED 127.0.0.1:11434"))).

(** Gemini answering ["hi there"]. *)
Definition host_gemini_up : Host unit :=
  scripted (Ok (ResultResponse (Ok (vstr "hi there"))))
           (Throw (Error (str "401 invalid api key")))
           (Throw (Error (str "429 quota exceeded")))
           (Throw (Error (str "connect ECONNREFUSED 127.0.0.1:11434"))).

Definition env_all_keys : env :=
  {| GEMINI_API_KEY := Some (str "g-key");
     GROQ_API_KEY := Some (str "q-key");
     OPENAI_API_KEY := Some (str "o-key");
     OLLAMA_HOST := None;
     MOCK_MODE := None |}.

Definition env_groq_only : env :=
  {| GEMINI_API_KEY := None;
     GROQ_API_KEY := Some (str "q-key");
     OPENAI_API_KEY := None;
     OLLAMA_HOST := None;
     MOCK_MODE := None |}.

Definition env_mock : env :=
  {| GEMINI_API_KEY := None;
     GROQ_API_KEY := None;
     OPENAI_API_KEY := None;
     OLLAMA_HOST := None;
     MOCK_MODE := Some (str "true") |}.

(** A freshly loaded router module in the one world of a scripted host. *)
Definition fresh : state unit :=
  {| world := tt; calls := []; gemini := false; groq := false;
     openai := false; clientsInitialized := false |}.

(** [[{ role: "user", content: "hello" }]] *)
Definition hello : value :=
  VArr [obj [("role", vstr "user"); ("content", vstr "hello")]].

(** A parser and a printer for a fragment of JSON (no fractions, exponents or
    [\u] escapes), standing in for the built-in [JSON.parse] and
    [JSON.stringify] where an example needs to run them. *)
Module MiniJSON.

Definition is_json_ws (c : jschar) : bool :=
  ((c =? 32) || (c =? 9) || (c =? 10) || (c =? 13))%N.

Fixpoint skip_ws (s : jsstring) : jsstring :=
  match s with
  | c :: s' => if is_json_ws c then skip_ws s' else s
  | [] => []
  end.

Definition is_digit (c : jschar) : bool := ((48 <=? c) && (c <=? 57))%N.

Definition unescape (e : jschar) : option jschar :=
  (if e =? 34 then Some 34 else if e =? 92 then Some 92
   else if e =? 47 then Some 47 else if e =? 98 then Some 8
   else if e =? 102 then Some 12 else if e =? 110 then Some 10
   else if e =? 114 then Some 13 else if e =? 116 then Some 9
   else None)%N.

(** The characters of a string literal after its opening quote. *)
Fixpoint parse_chars (s acc : jsstring) : option (jsstring * jsstring) :=
  match s with
  | [] => None
  | c :: s' =>
      if (c =? 34)%N then Some (rev acc, s')
      else if (c =? 92)%N then
        match s' with
        | e :: s'' =>
            match unescape e with
            | Some d => parse_chars s'' (d :: acc)
            | None => None
            end
        | [] => None
        end
      else if (c <? 32)%N then None
      else parse_chars s' (c :: acc)
  end.

Fixpoint digits (s : jsstring) (acc : N) : N * jsstring :=
  match s with
  | c :: s' => if is_digit c then digits s' (10 * acc + (c - 48))%N else (acc, s)
  | [] => (acc, [])
  end.

Definition starts_fraction (s : jsstring) : bool :=
  match s with
  | c :: _ => ((c =? 46) || (c =? 101) || (c =? 69))%N || is_digit c
  | [] => false
  end.

(** An integer literal: [0] or a non-zero digit followed by digits, with an
    optional minus sign. *)
Definition parse_int (s : jsstring) : option (Z * jsstring) :=
  let '(neg, s1) :=
    match s with
    | c :: r => if (c =? 45)%N then (true, r) else (false, s)
    | [] => (false, s)
    end in
  match s1 with
  | c :: r =>
      if is_digit c then
        let '(n, rest) := if (c =? 48)%N then (0%N, r) else digits s1 0 in
        if starts_fraction rest then None
        else Some (if neg then (- Z.of_N n)%Z else Z.of_N n, rest)
      else None
  | [] => None
  end.

(** [obj[k] = v]: a repeated key keeps its place and takes the new value. *)
Fixpoint set_prop (k : jsstring) (v : value)
    (props : list (jsstring * slot value)) : list (jsstring * slot value) :=
  match props with
  | [] => [(k, Data v)]
  | (k', x) :: rest =>
      if jseqb k k' then (k', Data v) :: rest else (k', x) :: set_prop k v rest
  end.

Definition keyword (w : string) (v : value) (s : jsstring)
  : option (value * jsstring) :=
  match lit_match (str w) s with
  | Some r => Some (v, r)
  | None => None
  end.

Fixpoint parse_value (fuel : nat) (s : jsstring) : option (value * jsstring) :=
  match fuel with
  | O => None
  | S fuel' =>
      match skip_ws s with
      | [] => None
      | c :: r =>
          if (c =? 123)%N then
            match skip_ws r with
            | d :: r' =>
                if (d =? 125)%N then Some (VObj [], r')
                else parse_members fuel' r []
            | [] => None
            end
          else if (c =? 91)%N then
            match skip_ws r with
            | d :: r' =>
                if (d =? 93)%N then Some (VArr [], r')
                else parse_elements fuel' r []
            | [] => None
            end
          else if (c =? 34)%N then
            match parse_chars r [] with
            | Some (t, r') => Some (VStr t, r')
            | None => None
            end
          else if (c =? 110)%N then keyword "null" VNull (c :: r)
          else if (c =? 116)%N then keyword "true" (VBool true) (c :: r)
          else if (c =? 102)%N then keyword "false" (VBool false) (c :: r)
          else
            match parse_int (c :: r) with
            | Some (z, r') => Some (vint z, r')
            | None => None
            end
      end
  end
with parse_elements (fuel : nat) (s : jsstring) (acc : list value)
  : option (value * jsstring) :=
  match fuel with
  | O => None
  | S fuel' =>
      match parse_value fuel' s with
      | Some (v, r) =>
          match skip_ws r with
          | d :: r' =>
              if (d =? 44)%N then parse_elements fuel' r' (v :: acc)
              else if (d =? 93)%N then Some (VArr (rev (v :: acc)), r')
              else None
          | [] => None
          end
      | None => None
      end
  end
with parse_members (fuel : nat) (s : jsstring)
    (acc : list (jsstring * slot value)) : option (value * jsstring) :=
  match fuel with
  | O => None
  | S fuel' =>
      match skip_ws s with
      | q :: r =>
          if (q =? 34)%N then
            match parse_chars r [] with
            | Some (k, r1) =>
                match skip_ws r1 with
                | c :: r2 =>
                    if (c =? 58)%N then
                      match parse_value fuel' r2 with
                      | Some (v, r3) =>
                          match skip_ws r3 with
                          | d :: r4 =>
                              if (d =? 44)%N then
                                parse_members fuel' r4 (set_prop k v acc)
                              else if (d =? 125)%N then
                                Some (VObj (set_prop k v acc), r4)
                              else None
                          | [] => None
                          end
                      | None => None
                      end
                    else None
                | [] => None
                end
            | None => None
            end
          else None
      | [] => None
      end
  end.

(** The whole text must be one value, with white space around it at most. *)
Definition parse (text : jsstring) : option value :=
  match parse_value (2 * List.length text + 2) text with
  | Some (v, r) =>
      match skip_ws r with
      | [] => Some v
      | _ :: _ => None
      end
  | None => None
  end.

Fixpoint quote_chars (s : jsstring) : jsstring :=
  match s with
  | [] => []
  | c :: s' =>
      (if c =? 34 then [92; 34] else if c =? 92 then [92; 92]
       else if c =? 8 then [92; 98] else if c =? 12 then [92; 102]
       else if c =? 10 then [92; 110] else if c =? 13 then [92; 114]
       else if c =? 9 then [92; 116] else [c])%N ++ quote_chars s'
  end.

Definition print_string (s : jsstring) : jsstring :=
  dquote :: quote_chars s ++ [dquote].

Definition print_int (z : Z) : jsstring :=
  match z with
  | Zneg p => 45%N :: decimal (Npos p)
  | Z0 => str "0"
  | Zpos p => decimal (Npos p)
  end.

(** Values outside the fragment print as [null]. *)
Fixpoint stringify (v : value) : jsstring :=
  match v with
  | VUndefined | VNull => str "null"
  | VBool true => str "true"
  | VBool false => str "false"
  | VNum (Fin q) => print_int (Qnum q)
  | VNum _ => str "null"
  | VStr s => print_string s
  | VArr l => lbracket :: join (str ",") (map stringify l) ++ [rbracket]
  | VObj props =>
      lbrace ::
        join (str ",")
          (map (fun kv =>
                  print_string (fst kv) ++ [colon] ++
                  match snd kv with
                  | Data a => stringify a
                  | Getter_throws _ => str "null"
                  end) props)
        ++ [rbrace]
  end.

End MiniJSON.

(* ================================================================== *)
(** * The properties, as predicates *)

(** [c.k] is a string and not the empty one. *)
Definition nonempty_string_field (c : value) (k : string) : Prop :=
  exists s, get c k = Ok (VStr s) /\ s <> [].

(** The invariants of a sanitized review document. *)
Record ReviewDocument (r : Review.review) : Prop := {
  summary_bounded : List.length (Review.summary r) <= 3000;
  comments_capped : List.length (Review.comments r) <= 100;
  patches_capped : List.length (Review.patches r) <= 30;
  testCases_capped : List.length (Review.testCases r) <= 20;
  testCases_bounded :
    forall tc, In tc (Review.testCases r) ->
      exists s, tc = VStr s /\ List.length s <= 500;
  comments_filled :
    forall c, In c (Review.comments r) ->
      nonempty_string_field c "file" /\ nonempty_string_field c "comment";
  patches_filled :
    forall p, In p (Review.patches r) ->
      nonempty_string_field p "file" /\ nonempty_string_field p "diff";
  status_known :
    Review.status r = str "validated" \/ Review.status r = str "default"
}.

(** The filter callbacks as plain predicates: an entry is kept when the
    callback returns true. *)
Definition kept (payload : string) (c : value) : bool :=
  match Review.entry_ok payload c with
  | Ok b => b
  | Throw _ => false
  end.

(** [{ file: "a.js", line: 3, comment: " ok " }] *)
Definition comment_with_line : value :=
  obj [("file", vstr "a.js"); ("line", vint 3); ("comment", vstr " ok ")].

(** [{ file: "a.js", diff: "+x", note: null }] *)
Definition patch_with_note : value :=
  obj [("file", vstr "a.js"); ("diff", vstr "+x"); ("note", VNull)].

(** A decoded review whose first comment has an empty [file]. *)
Definition sample_review : value :=
  obj [("summary", vstr "fine");
       ("comments", VArr [obj [("file", vstr ""); ("comment", vstr "x")];
                          comment_with_line; vstr "not-an-object"]);
       ("patches", VArr [patch_with_note; VNull])].

(** A summary of 5000 spaces, and one of 5000 letters. *)
Definition blank_summary : value := obj [("summary", VStr (repeat 32%N 5000))].
Definition long_summary : value := obj [("summary", VStr (repeat 97%N 5000))].

(** One pass over a fallback list, seen from outside: the calls it issued and
    what it came to. Entries without a branch are passed over without a call;
    an entry with a branch gets exactly one call; a call whose verdict is an
    error is followed by the rest of the list; a call whose verdict is a value
    ends the pass, with that value and no call after it. [request_for] is the
    request an entry is called with. *)
Inductive traversal (avail : attempt -> bool) (request_for : attempt -> request)
    (verdict : call -> res value)
  : list attempt -> list call -> option value -> Prop :=
| traversal_exhausted :
    traversal avail request_for verdict [] [] None
| traversal_skip a rest cs r :
    avail a = false ->
    traversal avail request_for verdict rest cs r ->
    traversal avail request_for verdict (a :: rest) cs r
| traversal_fail a rest c e cs r :
    avail a = true ->
    call_attempt c = a ->
    call_request c = request_for a ->
    verdict c = Throw e ->
    traversal avail request_for verdict rest cs r ->
    traversal avail request_for verdict (a :: rest) (c :: cs) r
| traversal_win a rest c v :
    avail a = true ->
    call_attempt c = a ->
    call_request c = request_for a ->
    verdict c = Ok v ->
    traversal avail request_for verdict (a :: rest) [c] (Some v).

Definition result_of (r : res value) : option value :=
  match r with
  | Ok v => Some v
  | Throw _ => None
  end.

(** What the loop body does with a verdict. *)
Definition step_of (r : res value) : step :=
  match r with
  | Ok v => Return v
  | Throw e => Failed e
  end.

(** The module-level variables are the same in both states. *)
Definition same_clients {W} (st st' : state W) : Prop :=
  gemini st' = gemini st /\ groq st' = groq st /\ openai st' = openai st
  /\ clientsInitialized st' = clientsInitialized st.

(** The request [Router.run_attempt] issues for an entry that has a
    branch. *)
Definition router_request (E : env) (prompt : jsstring) (maxTokens : number)
    (a : attempt) : request :=
  if jseqb (provider a) (str "gemini") then GenerateContent (model a) prompt
  else if jseqb (provider a) (str "groq") then
    GroqCreate (Router.chat_request a prompt maxTokens)
  else if jseqb (provider a) (str "openai") then
    OpenAICreate (Router.chat_request a prompt maxTokens)
  else Fetch (Router.ollama_request E a prompt).

(** The request [Optimized.run_attempt] issues for an entry that has a
    branch, [prompt] being the joined contents of [messages]. *)
Definition optimized_request {W} {host : Host W} (E : env) (prompt : jsstring)
    (messages : list value) (maxTokens : value) (a : attempt) : request :=
  if jseqb (provider a) (str "gemini") then GenerateContent (model a) prompt
  else if jseqb (provider a) (str "groq") then
    GroqCreate
      {| chat_model := model a;
         chat_messages := VArr [obj [("role", vstr "user"); ("content", VStr prompt)]];
         max_tokens := Math_min (ToNumber maxTokens) (Fin 2000);
         temperature := None |}
  else if jseqb (provider a) (str "openai") then
    OpenAICreate
      {| chat_model := model a;
         chat_messages := VArr messages;
         max_tokens := Math_min (ToNumber maxTokens) (Fin 2000);
         temperature := None |}
  else
    Fetch {| url := ollamaHost E ++ str "/api/generate";
             body_model := model a;
             body_prompt := prompt;
             body_stream := None;
             timeout := 30000 |}.

(** The entry of [failedAttempts] for a rejected call. *)
Definition failure_of (c : call) : jsstring :=
  Optimized.failure_entry (call_attempt c)
    (match optimized_verdict c with
     | Throw e => e
     | Ok _ => Error []
     end).

(** [v.choices[0].message.content] is the string [s], each step of the path
    being a property read that succeeds. *)
Definition content_of (v : value) (s : jsstring) : Prop :=
  exists c0 rest m,
    get v "choices" = Ok (VArr (c0 :: rest))
    /\ get c0 "message" = Ok m
    /\ get m "content" = Ok (VStr s).

(** A generation result in the shape [callModel] returns it and its callers
    read it: [choices[0].message.content] is a string that is not empty
    after trimming. *)
Definition completion (v : value) : Prop :=
  exists s, content_of v s /\ nonblank s = true.

(** The content a provider answered a call with is the string [s]: for
    Gemini, what [result.response.text()] returns; for Groq and OpenAI,
    [choices[0].message.content] of the resolved response; for Ollama, the
    [response] field of the JSON body of a reply whose status is ok. A call
    that was rejected, or came back in another shape, has no content. *)
Definition carries_content (c : call) (s : jsstring) : Prop :=
  match call_response c with
  | GeminiResponse r => r = Ok (ResultResponse (Ok (VStr s)))
  | ChatResponse r => exists v, r = Ok v /\ content_of v s
  | FetchResponse r =>
      exists h data,
        r = Ok h /\ ok h = true /\ json h = Ok data
        /\ get data "response" = Ok (VStr s)
  end.

(** The response to a call validates: it has content that is not empty
    after trimming. *)
Definition validates (c : call) : Prop :=
  exists s, carries_content c s /\ nonblank s = true.

(** The default of the [maxTokens] parameter. *)
Definition or_default (maxTokens_arg : value) : value :=
  match maxTokens_arg with VUndefined => vint 200 | v => v end.

(** A message with valid content: an object whose [content] is a string that
    is not empty and has at most 100000 characters. *)
Definition valid_message (m : value) : Prop :=
  truthy m = true /\ is_object m = true /\
  exists s, get m "content" = Ok (VStr s) /\ s <> [] /\ (jslength s <= 100000)%N.

(** The text of the messages: their contents, one per line. *)
Definition contents_of (ms : list value) : list jsstring :=
  map (fun m => match get m "content" with Ok (VStr s) => s | _ => [] end) ms.

(** A valid request: a non-empty sequence of valid messages whose text is not
    blank. *)
Definition valid_messages (ms : list value) : Prop :=
  ms <> [] /\ Forall valid_message ms
  /\ nonblank (join [newline] (contents_of ms)) = true.

(** [messages] is a non-empty array of valid messages. *)
Definition well_formed_messages (messages : value) : Prop :=
  exists ms, messages = VArr ms /\ ms <> [] /\ Forall valid_message ms.

(** A positive number: a finite number above zero, or [Infinity]. *)
Definition positive_number (v : value) : Prop :=
  v = VNum (Infinity false) \/ exists q, v = VNum (Fin q) /\ (0 < q)%Q.

(** A Groq call that came back with blanks for content. *)
Definition blank_groq_call : call :=
  {| call_request :=
       GroqCreate {| chat_model := str "llama-3.1-70b-versatile";
                     chat_messages := VArr [];
                     max_tokens := Fin 50;
                     temperature := None |};
     call_response := ChatResponse (Ok (chat_response (vstr "   "))) |}.

(** The messages of [hello]. *)
Definition hello_messages : list value :=
  [obj [("role", vstr "user"); ("content", vstr "hello")]].

(** Runs of both routers on [callModel("x", hello, 50)] from a freshly loaded
    module. *)
Definition router_run (host : Host unit) (E : env) (maxTokens : value)
  : res value * state unit :=
  Router.callModel (host := host) E (vstr "x") hello maxTokens fresh.

Definition optimized_run (host : Host unit) (E : env) (maxTokens : value)
  : res value * state unit :=
  Optimized.callModel (host := host) E (vstr "x") hello maxTokens fresh.

(** The budgets of the calls of a run, in order. *)
Definition budgets (run : res value * state unit) : list (option number) :=
  map (fun c => budget (call_request c)) (calls (snd run)).

(** The entries a call was issued for, in order. *)
Definition attempted (run : res value * state unit) : list attempt :=
  map call_attempt (calls (snd run)).

(** ["```json\n" + s + "\n```"] *)
Definition fenced (s : jsstring) : jsstring :=
  fence ++ str "json" ++ newline :: s ++ newline :: fence.

(** The continuation [exec] starts a match with: at the end of the
    expression, the match is the capture. *)
Definition k0 : jsstring -> option jsstring -> option (option jsstring) :=
  fun _ cap => Some cap.

(** The end of [re_fenced] after its group: [\s*```]. *)
Definition re_close : regex := RSeq (RStar true is_ws) (RLit fence).

(** [{"a":"```"}] as a value: its JSON text has a fence inside. *)
Definition fence_inside : value := obj [("a", VStr fence)].

(** [["```", 1, "```"]]: JSON as it stands, with a fenced block in it whose
    content, [", 1, "] between quotes, is JSON too. *)
Definition array_with_fences : jsstring :=
  str "[" ++ dquote :: fence ++ dquote :: str ", 1, "
  ++ dquote :: fence ++ dquote :: str "]".

(* ================================================================== *)
(** * Completions: what a caller of [callModel] reads *)

(** The one request of a run that has no SDK client: the local Ollama. *)
Definition ollama_entry : attempt :=
  {| provider := str "ollama"; model := str "llama3" |}.

(** No key of an SDK provider is set (or it is the empty string). *)
Definition no_keys (E : env) : Prop :=
  key_truthy (GEMINI_API_KEY E) = None
  /\ key_truthy (GROQ_API_KEY E) = None
  /\ key_truthy (OPENAI_API_KEY E) = None.

Definition no_clients {W} (st : state W) : Prop :=
  gemini st = false /\ groq st = false /\ openai st = false.

Definition env_no_keys : env :=
  {| GEMINI_API_KEY := None;
     GROQ_API_KEY := Some [];
     OPENAI_API_KEY := None;
     OLLAMA_HOST := Some (str "http://ollama:11434");
     MOCK_MODE := Some (str "false") |}.

(* ================================================================== *)
(** * More of the language, for the routes *)

(** A length or an index as a JavaScript number. *)
Definition vnat (n : nat) : value := vint (Z.of_nat n).

(** [v.length] *)
Definition get_length (v : value) : res value :=
  match v with
  | VUndefined =>
      Throw (TypeError (str "Cannot read properties of undefined (reading 'length')"))
  | VNull =>
      Throw (TypeError (str "Cannot read properties of null (reading 'length')"))
  | VStr s => Ok (vnat (List.length s))
  | VArr l => Ok (vnat (List.length l))
  | VObj _ => get v "length"
  | VBool _ | VNum _ => Ok VUndefined
  end.

(** [v[0]] for [v] neither [null] nor [undefined]. *)
Definition get_first (v : value) : res value :=
  match v with
  | VArr (x :: _) => Ok x
  | VStr (c :: _) => Ok (VStr [c])
  | VObj _ => get v "0"
  | _ => Ok VUndefined
  end.

(** [v === 0] *)
Definition is_zero (v : value) : bool :=
  match v with
  | VNum (Fin q) => Qeq_bool q 0
  | _ => false
  end.

(** [haystack.includes(needle)] *)
Fixpoint includes (needle haystack : jsstring) : bool :=
  match lit_match needle haystack with
  | Some _ => true
  | None =>
      match haystack with
      | [] => false
      | _ :: rest => includes needle rest
      end
  end.

(** [const { k } = source], [source_text] being the expression destructured,
    which the engine quotes when it is [null] or [undefined]. *)
Definition destructure (source_text : string) (source : value) (k : string)
  : res value :=
  match source with
  | VUndefined =>
      Throw (TypeError (str "Cannot destructure property '" ++ str k ++ str "' of '"
                        ++ str source_text ++ str "' as it is undefined."))
  | VNull =>
      Throw (TypeError (str "Cannot destructure property '" ++ str k ++ str "' of '"
                        ++ str source_text ++ str "' as it is null."))
  | _ => get source k
  end.

(** [const { k = default } = source], for a [source] that is an object or a
    primitive other than [null] and [undefined]. *)
Definition get_or (source : value) (k : string) (default : value) : res value :=
  (v <- get source k ;;
   Ok (match v with VUndefined => default | _ => v end))%res.

(** [process.env.NAME || "default"] *)
Definition env_or (variable : option jsstring) (default : string) : jsstring :=
  match key_truthy variable with
  | Some v => v
  | None => str default
  end.

(** The variables of [process.env] that the routes, the model pickers and
    the validator of the environment read, besides those of [env]. *)
Record settings := {
  PORT : option jsstring;
  NODE_ENV : option jsstring;
  MODEL_COMPLETION : option jsstring;
  MODEL_CHAT : option jsstring;
  MODEL_REVIEW : option jsstring;
  MODEL_GEMINI_FAST : option jsstring;
  MODEL_DEFAULT : option jsstring;
  MODEL_GEMINI_SMART : option jsstring
}.

(** [process.env.NODE_ENV === "development"] *)
Definition development (cfg : settings) : bool :=
  match NODE_ENV cfg with
  | Some v => jseqb v (str "development")
  | None => false
  end.

(** What a route handler answers: the status ([res.json] alone is 200) and
    the object given to [res.json]. *)
Record reply := { reply_status : N; reply_body : value }.

(** [res.status(status).json({ fields })] *)
Definition send {W} (status : N) (fields : list (string * value)) : IO W reply :=
  ret {| reply_status := status; reply_body := obj fields |}.

(** [new Date().toISOString()], [now] being the clock as a function of the
    world. *)
Definition timestamp {W} (now : W -> jsstring) : IO W value :=
  fun st => (Ok (VStr (now (world st))), st).

(** [a > n] for a number [n] *)
Definition greater {W} {host : Host W} (a : value) (n : number) : bool :=
  num_lt n (ToNumber a).

(** [output?.choices?.[0]?.message?.content] *)
Definition content_path (output : value) : res value :=
  (choices <- get_opt output "choices" ;;
   c0 <- match choices with
         | VUndefined | VNull => Ok VUndefined
         | _ => get_first choices
         end ;;
   msg <- get_opt c0 "message" ;;
   get_opt msg "content")%res.

(** The own properties of the object [validateReview] or
    [createDefaultReview] returns, in order: what [...review] spreads into
    an object literal. *)
Definition review_fields (r : Review.review) : list (string * value) :=
  [("summary", VStr (Review.summary r));
   ("comments", VArr (Review.comments r));
   ("patches", VArr (Review.patches r));
   ("testCases", VArr (Review.testCases r));
   ("status", VStr (Review.status r))].

(** [{ ...review, summary: s }]: the property keeps its place. *)
Definition with_summary (s : jsstring) (r : Review.review) : Review.review :=
  {| Review.summary := s;
     Review.comments := Review.comments r;
     Review.patches := Review.patches r;
     Review.testCases := Review.testCases r;
     Review.status := Review.status r |}.

(* ================================================================== *)
(** * [src/services/prompts.js] *)

Module Prompts.
Section Prompts.
Context {W : Type} {host : Host W}.

(** A template literal, line by line; the values interpolated are converted
    with [String]. *)
Definition completionPrompt (prefix : value) : jsstring :=
  join [newline]
    [ str "You are an expert code completion AI.";
      str "Analyze the code context and continue logically.";
      [];
      str "<code_context>";
      ToString prefix;
      str "</code_context>";
      [];
      str "Instructions:";
      str "- Continue the code logically from where it ends";
      str "- Maintain consistent style and formatting";
      str "- Output ONLY valid code without explanations";
      str "- Ensure the continuation is syntactically correct" ].

Definition chatPrompt (text : value) : jsstring :=
  join [newline]
    [ str "You are an expert software engineer and coding assistant.";
      str "Provide clear, accurate, and helpful responses.";
      [];
      str "<user_question>";
      ToString text;
      str "</user_question>";
      [];
      str "Instructions:";
      str "- Answer directly and concisely";
      str "- Provide accurate information";
      str "- If code examples are needed, ensure they're valid";
      str "- Be helpful and professional" ].

(** [filesChanged] is an array, as at the one call. *)
Definition reviewPrompt (title description diffs : value)
    (filesChanged : list value) : jsstring :=
  join [newline]
    [ str "You are an expert code reviewer.";
      str "Analyze the following pull request and provide structured feedback.";
      [];
      str "<pr_metadata>";
      str "  <title>"
        ++ (if truthy title then ToString title else str "Untitled PR")
        ++ str "</title>";
      str "  <description>"
        ++ (if truthy description then ToString description
            else str "No description provided")
        ++ str "</description>";
      str "  <files>"
        ++ (match filesChanged with
            | _ :: _ => join_values (str ", ") filesChanged
            | [] => str "No file information"
            end)
        ++ str "</files>";
      str "</pr_metadata>";
      [];
      str "<code_diff>";
      ToString diffs;
      str "</code_diff>";
      [];
      str "Analysis Requirements:";
      str "1. Identify critical issues (bugs, security, logic errors)";
      str "2. Suggest code improvements and best practices";
      str "3. Provide inline comments with file and line references";
      str "4. Suggest code patches if applicable";
      str "5. Propose relevant test cases";
      str "6. Provide an overall summary";
      [];
      str "Response Format (ONLY valid JSON, no markdown):";
      str "{";
      str "  " ++ quoted "summary" ++ str ": " ++ quoted "Overall analysis summary"
        ++ str ",";
      str "  " ++ quoted "comments" ++ str ": [{" ++ quoted "file" ++ str ": "
        ++ quoted "filename" ++ str ", " ++ quoted "line" ++ str ": 0, "
        ++ quoted "comment" ++ str ": " ++ quoted "Your comment" ++ str "}],";
      str "  " ++ quoted "patches" ++ str ": [{" ++ quoted "file" ++ str ": "
        ++ quoted "filename" ++ str ", " ++ quoted "diff" ++ str ": "
        ++ quoted "patch content" ++ str "}],";
      str "  " ++ quoted "testCases" ++ str ": [" ++ quoted "test case 1" ++ str "]";
      str "}" ].
End Prompts.
End Prompts.

(* ================================================================== *)
(** * The other exports of [modelRouter.js] *)

(** What [modelMap[type] || default] evaluates to: a model name, or, for a
    [type] that names a member of [Object.prototype], that member. *)
Inductive picked :=
| Picked (name : jsstring)
| Inherited (member : jsstring).

(** The property names every object inherits from [Object.prototype]. *)
Definition object_prototype_members : list string :=
  [ "constructor"; "__defineGetter__"; "__defineSetter__"; "hasOwnProperty";
    "__lookupGetter__"; "__lookupSetter__"; "isPrototypeOf";
    "propertyIsEnumerable"; "toString"; "valueOf"; "__proto__";
    "toLocaleString" ].

Definition inherited (key : jsstring) : bool :=
  existsb (fun m => jseqb key (str m)) object_prototype_members.

(** The model name as a property of a response. A member of
    [Object.prototype] is no JSON value. *)
Definition picked_value (p : picked) : value :=
  match p with
  | Picked name => VStr name
  | Inherited _ => VUndefined
  end.

Module RouterExports.
Section RouterExports.
Context {W : Type} {host : Host W}.
Variable E : env.
Variable cfg : settings.

(** [pickModel(type = "chat")] *)
Definition pickModel (type : value) : picked :=
  let key := match type with VUndefined => str "chat" | v => ToString v end in
  if jseqb key (str "completion") then
    Picked (env_or (MODEL_COMPLETION cfg) "gemini-2.0-flash")
  else if jseqb key (str "chat") then
    Picked (env_or (MODEL_CHAT cfg) "gemini-2.0-pro")
  else if jseqb key (str "review") then
    Picked (env_or (MODEL_REVIEW cfg) "gemini-2.0-pro")
  else if inherited key then Inherited key
  else Picked (str "gemini-2.0-pro").

End RouterExports.
End RouterExports.

Module OptimizedExports.
Section OptimizedExports.
Context {W : Type} {host : Host W}.
Variable cfg : settings.

(** [pickModel(type)] of [modelRouter_optimized.js] *)
Definition pickModel (type : value) : picked :=
  let key := ToString type in
  if jseqb key (str "completion") then
    Picked (env_or (MODEL_GEMINI_FAST cfg) "gemini-2.0-flash")
  else if jseqb key (str "chat") then
    Picked (env_or (MODEL_DEFAULT cfg) "gemini-2.0-flash")
  else if jseqb key (str "review") then
    Picked (env_or (MODEL_GEMINI_SMART cfg) "gemini-2.0-pro")
  else if inherited key then Inherited key
  else Picked (str "gemini-2.0-flash").
End OptimizedExports.
End OptimizedExports.

(* ================================================================== *)
(** * [src/routes/reviewPR.js]: the input check and the handler *)

Module ReviewPR.

(** The index of the first element that is not a string: where the [for]
    loop over [body.filesChanged] stops. *)
Fixpoint first_non_string (l : list value) (i : N) : option N :=
  match l with
  | [] => None
  | v :: l' => if is_string v then first_non_string l' (i + 1)%N else Some i
  end.

Definition check_diffs (diffs : value) : list jsstring :=
  if negb (truthy diffs)
     || match diffs with
        | VStr s => (List.length (trim s) =? 0)%nat
        | _ => false
        end
  then [str "diffs is required and cannot be empty"]
  else
    match diffs with
    | VStr s =>
        if (100000 <? jslength s)%N then [str "diffs exceeds maximum size (100KB)"]
        else []
    | _ => [str "diffs must be a string"]
    end.

Definition check_title (title : value) : list jsstring :=
  match title with
  | VUndefined => []
  | VStr s =>
      if (500 <? jslength s)%N then [str "title exceeds maximum length (500 chars)"]
      else []
  | _ => [str "title must be a string"]
  end.

Definition check_description (description : value) : list jsstring :=
  match description with
  | VUndefined => []
  | VStr s =>
      if (5000 <? jslength s)%N
      then [str "description exceeds maximum length (5000 chars)"]
      else []
  | _ => [str "description must be a string"]
  end.

Definition check_filesChanged (filesChanged : value) : list jsstring :=
  match filesChanged with
  | VUndefined => []
  | VArr l =>
      if (1000 <? List.length l)%nat
      then [str "filesChanged exceeds maximum array length (1000 items)"]
      else
        match first_non_string l 0 with
        | Some i => [str "filesChanged[" ++ decimal i ++ str "] must be a string"]
        | None => []
        end
  | _ => [str "filesChanged must be an array"]
  end.

(** [validatePRInput(body)]: the array of error messages. *)
Definition validatePRInput (body : value) : res (list jsstring) :=
  if negb (truthy body) || negb (is_object body) then
    Ok [str "Request body must be a valid JSON object"]
  else
    (diffs <- get body "diffs" ;;
     title <- get body "title" ;;
     description <- get body "description" ;;
     filesChanged <- get body "filesChanged" ;;
     Ok (check_diffs diffs ++ check_title title ++ check_description description
         ++ check_filesChanged filesChanged))%res.

Section Handler.
Context {W : Type} {host : Host W}.
Variable E : env.
Variable cfg : settings.
(** [JSON.parse], the clock as [new Date().toISOString()] reads it, and the
    [stack] property of an error. *)
Variable JSON_parse : jsstring -> option value.
Variable now : W -> jsstring.
Variable stack : exn -> value.

(** The messages the handler calls the router with. *)
Definition messages_of (prompt : jsstring) : value :=
  VArr [obj [("role", vstr "user"); ("content", VStr prompt)]].

(** The handler from [result.choices[0]] on. *)
Definition respond (c0 : value) (safeFilesChanged : list value) : IO W reply :=
  (msg <- lift (get c0 "message") ;;
   responseText <- lift (get_opt msg "content") ;;
   match responseText with
   | VStr (c :: t) =>
       let text := c :: t in
       if (List.length (trim text) =? 0)%nat then
         send 500 (("error", vstr "AI returned empty response")
                   :: review_fields Review.createDefaultReview)
       else
         match Review.extractJSON JSON_parse responseText with
         | Throw parseErr =>
             ts <- timestamp now ;;
             send 200 (review_fields
                         (with_summary (substring0 2000 text)
                            Review.createDefaultReview)
                       ++ [("rawResponse", VBool true); ("timestamp", ts)])
         | Ok reviewData =>
             let validatedReview := Review.validateReview reviewData in
             ts <- timestamp now ;;
             send 200 (review_fields validatedReview
                       ++ [("timestamp", ts);
                           ("filesAnalyzed", vnat (List.length safeFilesChanged))])
         end
   | _ =>
       send 500 (("error", vstr "Empty response from AI model")
                 :: review_fields Review.createDefaultReview)
   end)%io.

(** The handler once the input has passed the check: from the two
    [console.log] lines, which read [filesChanged.length] and
    [diffs.length], on. *)
Definition generate (title description diffs filesChanged : value)
  : IO W reply :=
  (_ <- lift (get_length filesChanged) ;;
   _ <- lift (get_length diffs) ;;
   let safeTitle :=
     match title with VStr s => substring0 500 s | _ => [] end in
   let safeDescription :=
     match description with VStr s => substring0 5000 s | _ => [] end in
   let safeFilesChanged :=
     match filesChanged with
     | VArr l => filter is_string (firstn 100 l)
     | _ => []
     end in
   let prompt :=
     Prompts.reviewPrompt (VStr safeTitle) (VStr safeDescription) diffs
       safeFilesChanged in
   _ <- (if negb (truthy (VStr prompt)) || (List.length prompt =? 0)%nat
         then throw (Error (str "Failed to generate prompt"))
         else ret tt) ;;
   result <- catch
               (Router.callModel E (vstr "gemini-2.0-pro")
                  (messages_of prompt) (vint 2000))
               (fun modelErr =>
                  throw (Error (str "AI service unavailable: "
                                ++ message modelErr))) ;;
   if negb (truthy result) then
     throw (Error (str "Null response from AI model"))
   else
     choices <- lift (get result "choices") ;;
     match choices with
     | VArr (c0 :: _) => respond c0 safeFilesChanged
     | _ =>
         send 500 (("error", vstr "Invalid API response structure")
                   :: review_fields Review.createDefaultReview)
     end)%io.

(** The [catch] of the handler. *)
Definition failed (err : exn) : IO W reply :=
  send (if includes (str "Validation") (message err) then 400 else 500)
    ([("error", vstr "Internal server error during review");
      ("message", if development cfg then VStr (message err)
                  else vstr "Please try again");
      ("details", if development cfg then stack err else VUndefined)]
     ++ review_fields Review.createDefaultReview).

(** [router.post("/", async (req, res) => ...)], [body] being [req.body]. *)
Definition post (body : value) : IO W reply :=
  catch
    (let source := if truthy body then body else VObj [] in
     title <- lift (get_or source "title" (VStr [])) ;;
     description <- lift (get_or source "description" (VStr [])) ;;
     diffs <- lift (get_or source "diffs" (VStr [])) ;;
     filesChanged <- lift (get_or source "filesChanged" (VArr [])) ;;
     errors <- lift (validatePRInput body) ;;
     match errors with
     | _ :: _ =>
         send 400 ([("error", vstr "Validation failed");
                    ("details", VArr (map VStr errors));
                    ("suggestion", vstr "Check request parameters")]
                   ++ review_fields Review.createDefaultReview)
     | [] => generate title description diffs filesChanged
     end)%io
    failed.
End Handler.
End ReviewPR.

(* ================================================================== *)
(** * [src/routes/chat.js] *)

Module Chat.
Section Chat.
Context {W : Type} {host : Host W}.
Variable E : env.
Variable cfg : settings.
Variable now : W -> jsstring.

(** [validateChatInput(body)] *)
Definition validateChatInput (body : value) : res (list jsstring) :=
  (message <- get body "message" ;;
   let required :=
     if negb (truthy message) || negb (is_string message)
     then [str "message is required and must be a string"] else [] in
   if truthy message then
     len <- get_length message ;;
     Ok (required
         ++ (if is_zero len then [str "message cannot be empty"] else [])
         ++ (if greater len (Fin 10000)
             then [str "message exceeds maximum length (10KB)"] else []))
   else Ok required)%res.

Definition messages_of (prompt : jsstring) : value :=
  VArr [obj [("role", vstr "system"); ("content", VStr prompt)]].

(** [router.post("/", async (req, res) => ...)]; in the reply the content
    is read a second time, along the path that has just given a value. *)
Definition post (body : value) : IO W reply :=
  catch
    (message <- lift (destructure "req.body" body "message") ;;
     errors <- lift (validateChatInput body) ;;
     match errors with
     | _ :: _ =>
         send 400 [("error", vstr "Validation failed");
                   ("details", VArr (map VStr errors))]
     | [] =>
         let model := RouterExports.pickModel cfg (vstr "chat") in
         output <- Router.callModel E (picked_value model)
                     (messages_of (Prompts.chatPrompt message)) VUndefined ;;
         content <- lift (content_path output) ;;
         if negb (truthy content) then
           throw (Error (str "Invalid response from AI model"))
         else
           ts <- timestamp now ;;
           send 200 [("answer", content);
                     ("model", picked_value model);
                     ("timestamp", ts)]
     end)%io
    (fun err =>
       send 500 [("error", vstr "Failed to generate chat response");
                 ("message", if development cfg then VStr (message err)
                             else VUndefined)]).
End Chat.
End Chat.

(* ================================================================== *)
(** * Bodies the review route lets through *)

(** [body.k] is absent, or a string of at most [limit] characters. *)
Definition optional_text (body : value) (k : string) (limit : N) : Prop :=
  get body k = Ok VUndefined
  \/ exists s, get body k = Ok (VStr s) /\ (jslength s <= limit)%N.

(** A request body the review route lets through: an object whose [diffs] is
    a string that is not blank and has at most 100000 characters, with
    [title] and [description], if present, strings of at most 500 and 5000
    characters, and [filesChanged], if present, an array of at most 1000
    strings. *)
Definition valid_pr_body (body : value) : Prop :=
  truthy body = true /\ is_object body = true
  /\ (exists s, get body "diffs" = Ok (VStr s) /\ nonblank s = true
                /\ (jslength s <= 100000)%N)
  /\ optional_text body "title" 500
  /\ optional_text body "description" 5000
  /\ (get body "filesChanged" = Ok VUndefined
      \/ exists l, get body "filesChanged" = Ok (VArr l)
                   /\ List.length l <= 1000
                   /\ Forall (fun f => is_string f = true) l).

(** [s.startsWith(prefix)] *)
Definition starts_with (prefix s : jsstring) : bool :=
  match lit_match prefix s with
  | Some _ => true
  | None => false
  end.

(** [{ diffs: "+x", title: "t", filesChanged: ["a.js", 1, null] }] *)
Definition body_with_odd_files : value :=
  obj [("diffs", vstr "+x"); ("title", vstr "t");
       ("filesChanged", VArr [vstr "a.js"; vint 1; VNull])].

(** [{ diffs: "+x", filesChanged: ["a.js"] }] *)
Definition small_pr : value :=
  obj [("diffs", vstr "+x"); ("filesChanged", VArr [vstr "a.js"])].

(* ================================================================== *)
(** * Replies, and what a handler may return *)

(** The body of a reply carries the five fields of the review [r]. *)
Definition carries (body : value) (r : Review.review) : Prop :=
  get body "summary" = Ok (VStr (Review.summary r))
  /\ get body "comments" = Ok (VArr (Review.comments r))
  /\ get body "patches" = Ok (VArr (Review.patches r))
  /\ get body "testCases" = Ok (VArr (Review.testCases r))
  /\ get body "status" = Ok (VStr (Review.status r)).

(** A reply of the review route: one of three statuses, and a body that
    carries a review document. *)
Definition review_reply (r : reply) : Prop :=
  (reply_status r = 200 \/ reply_status r = 400 \/ reply_status r = 500)%N
  /\ exists d, ReviewDocument d /\ carries (reply_body r) d.

Section Outcomes.
Context {W : Type}.

(** [m] never throws, and what it returns satisfies [P]. *)
Definition returns {A} (P : A -> Prop) (m : IO W A) : Prop :=
  forall st, exists a st', m st = (Ok a, st') /\ P a.

(** What [m] returns, if it does, satisfies [P]. *)
Definition may_return {A} (P : A -> Prop) (m : IO W A) : Prop :=
  forall st, match fst (m st) with Ok a => P a | Throw _ => True end.
End Outcomes.

(* ================================================================== *)
(** * The prompt of the review route, and examples *)

(** [body.k] when it is a string, and the empty string otherwise: what the
    handler's default gives for an absent [title] or [description]. *)
Definition field_text (body : value) (k : string) : jsstring :=
  match get body k with
  | Ok (VStr s) => s
  | _ => []
  end.

(** [body.k] when it is an array, and the empty array otherwise. *)
Definition field_array (body : value) (k : string) : list value :=
  match get body k with
  | Ok (VArr l) => l
  | _ => []
  end.

(** [safeFilesChanged]: the strings among the first 100 entries. *)
Definition safe_files (body : value) : list value :=
  filter is_string (firstn 100 (field_array body "filesChanged")).

(** The prompt the review route builds for a body it lets through. *)
Definition review_prompt {W} {host : Host W} (body : value) : jsstring :=
  Prompts.reviewPrompt
    (VStr (substring0 500 (field_text body "title")))
    (VStr (substring0 5000 (field_text body "description")))
    (VStr (field_text body "diffs"))
    (safe_files body).

(** A clock and a [stack] for examples. *)
Definition noon (_ : unit) : jsstring := str "2024-01-01T12:00:00.000Z".
Definition no_stack (_ : exn) : value := VUndefined.

Definition dev : settings :=
  {| PORT := None;
     NODE_ENV := Some (str "development");
     MODEL_COMPLETION := None; MODEL_CHAT := None; MODEL_REVIEW := None;
     MODEL_GEMINI_FAST := None; MODEL_DEFAULT := None;
     MODEL_GEMINI_SMART := None |}.

(** A body whose [diffs], 99226 letters, passes the check of the route. *)
Definition long_diffs : jsstring := repeat 97%N (N.to_nat 99226).
Definition long_pr : value := obj [("diffs", VStr long_diffs)].

(* ================================================================== *)
(** * Bodies the chat route lets through *)

(** A request body the chat route lets through: [message] is a string that
    is not empty and has at most 10000 characters. *)
Definition valid_chat_body (body : value) : Prop :=
  exists s, get body "message" = Ok (VStr s) /\ s <> []
            /\ (jslength s <= 10000)%N.

(** [{ message: "hi" }] *)
Definition chat_hi : value := obj [("message", vstr "hi")].

(* ================================================================== *)
(** * Arithmetic on numbers, and arrays by index

    Sums and differences are exact on the rationals; those of doubles are
    too as long as the result is an integer below [2^53], which is where the
    program uses them: on line numbers. *)

Definition num_neg (a : number) : number :=
  match a with
  | NaN => NaN
  | Infinity negative => Infinity (negb negative)
  | Fin x => Fin (Qred (- x))
  end.

(** [a + b] on numbers *)
Definition num_add (a b : number) : number :=
  match a, b with
  | NaN, _ | _, NaN => NaN
  | Infinity s, Infinity t => if Bool.eqb s t then Infinity s else NaN
  | Infinity s, Fin _ | Fin _, Infinity s => Infinity s
  | Fin x, Fin y => Fin (Qred (x + y))
  end.

(** [a - b] *)
Definition num_sub (a b : number) : number := num_add a (num_neg b).

(** [Math.max(a, b)] *)
Definition Math_max (a b : number) : number :=
  match a, b with
  | NaN, _ | _, NaN => NaN
  | _, _ => if num_lt a b then b else a
  end.

Definition number_of_nat (n : nat) : number := Fin (inject_Z (Z.of_nat n)).

(** The position an argument of [slice] stands for in an array of [len]
    elements: the number is truncated to an integer ([NaN] is 0), counted
    from the end when negative, and kept within the array. *)
Definition relative_index (n : number) (len : nat) : nat :=
  match n with
  | NaN => 0
  | Infinity true => 0
  | Infinity false => len
  | Fin q =>
      let z := Z.quot (Qnum q) (Zpos (Qden q)) in
      if (z <? 0)%Z then Z.to_nat (Z.max (Z.of_nat len + z) 0)
      else Nat.min (Z.to_nat z) len
  end.

(** [l.slice(start, end)] *)
Definition slice {A} (start end_ : number) (l : list A) : list A :=
  let k := relative_index start (List.length l) in
  let final := relative_index end_ (List.length l) in
  firstn (final - k) (skipn k l).

(** [l.map((x, idx) => f(x, idx))], [idx] counting from [i]. *)
Fixpoint map_indexed {A B} (f : A -> nat -> B) (i : nat) (l : list A) : list B :=
  match l with
  | [] => []
  | x :: l' => f x i :: map_indexed f (S i) l'
  end.

(** [s.split("\n")] *)
Fixpoint split_lines (s : jsstring) : list jsstring :=
  match s with
  | [] => [[]]
  | c :: s' =>
      if (c =? 10)%N then [] :: split_lines s'
      else
        match split_lines s' with
        | line :: rest => (c :: line) :: rest
        | [] => [[c]]
        end
  end.

(* ================================================================== *)
(** * [src/services/contextBuilder.js] *)

Module ContextBuilder.
Section ContextBuilder.
Context {W : Type} {host : Host W}.
(** The built-in [parseInt], of one argument. *)
Variable parseInt : value -> number.

(** [buildFileContext(content, cursor, contextLines = 50)], for
    [contextLines] a number, as documented. *)
Definition buildFileContext (content cursor : value) (contextLines : number)
  : res jsstring :=
  match content with
  | VStr (c :: s) =>
      let lines := split_lines (c :: s) in
      (line <- get cursor "line" ;;
       let parsed := parseInt line in
       let cursorLine :=
         Math_max (Fin 0) (if truthy (VNum parsed) then parsed else Fin 0) in
       let start := Math_max (num_sub cursorLine contextLines) (Fin 0) in
       let end_ :=
         Math_min (num_add cursorLine contextLines)
           (number_of_nat (List.length lines)) in
       let context := slice start end_ lines in
       Ok (join [newline]
             (map_indexed
                (fun line idx =>
                   ToString (VNum (num_add (num_add start (number_of_nat idx))
                                     (Fin 1)))
                   ++ str ": " ++ line)
                0 context)))%res
  | _ => Ok []
  end.
End ContextBuilder.
End ContextBuilder.

(* ================================================================== *)
(** * [src/routes/completion.js] *)

Module Completion.
Section Completion.
Context {W : Type} {host : Host W}.
Variable E : env.
Variable cfg : settings.
Variable now : W -> jsstring.
Variable parseInt : value -> number.

(** [validateCompletionInput(body)] *)
Definition validateCompletionInput (body : value) : res (list jsstring) :=
  (fileContent <- get body "fileContent" ;;
   let required :=
     if negb (truthy fileContent) || negb (is_string fileContent)
     then [str "fileContent is required and must be a string"] else [] in
   too_long <-
     (if truthy fileContent then
        len <- get_length fileContent ;;
        Ok (if greater len (Fin 50000)
            then [str "fileContent exceeds maximum length (50KB)"] else [])
      else Ok []) ;;
   cursorLine <- get body "cursorLine" ;;
   Ok (required ++ too_long
       ++ (if truthy cursorLine && negb (is_number cursorLine)
           then [str "cursorLine must be a number"] else [])))%res.

Definition messages_of (prompt : jsstring) : value :=
  VArr [obj [("role", vstr "system"); ("content", VStr prompt)]].

(** [router.post("/", async (req, res) => ...)] *)
Definition post (body : value) : IO W reply :=
  catch
    (fileContent <- lift (destructure "req.body" body "fileContent") ;;
     cursorLine <- lift (get_or body "cursorLine" (vint 0)) ;;
     errors <- lift (validateCompletionInput body) ;;
     match errors with
     | _ :: _ =>
         send 400 [("error", vstr "Validation failed");
                   ("details", VArr (map VStr errors))]
     | [] =>
         prefix <- lift (ContextBuilder.buildFileContext parseInt fileContent
                           (obj [("line", cursorLine)]) (Fin 50)) ;;
         let messages :=
           messages_of (Prompts.completionPrompt (VStr prefix)) in
         let model := RouterExports.pickModel cfg (vstr "completion") in
         output <- Router.callModel E (picked_value model) messages (vint 150) ;;
         content <- lift (content_path output) ;;
         if negb (truthy content) then
           throw (Error (str "Invalid response from AI model"))
         else
           ts <- timestamp now ;;
           send 200 [("completion", content);
                     ("model", picked_value model);
                     ("timestamp", ts)]
     end)%io
    (fun err =>
       send 500 [("error", vstr "Failed to generate completion");
                 ("message", if development cfg then VStr (message err)
                             else VUndefined)]).
End Completion.
End Completion.

(* ================================================================== *)
(** * The window of [buildFileContext] *)

(** The lines of a file numbered [first + 1] to [first + count], each as
    the context shows it: its number, counted from 1, as [print] writes it,
    a colon, a space and the text of the line. *)
Definition numbered_by (print : nat -> jsstring) (lines : list jsstring)
    (first count : nat) : list jsstring :=
  map (fun n => print n ++ str ": " ++ nth (n - 1) lines [])
    (seq (first + 1) count).

(** The same, with the numbers in decimal. *)
Definition numbered (lines : list jsstring) (first count : nat) : list jsstring :=
  numbered_by (fun n => decimal (N.of_nat n)) lines first count.

(** What remains of the parsed cursor line: [Math.max(0, parsed || 0)] as a
    natural number, for a [parsed] that is [NaN], infinite or an integer. *)
Definition effective_line (parsed : number) : option nat :=
  match parsed with
  | NaN | Infinity true => Some 0
  | Infinity false => None
  | Fin q => Some (Z.to_nat (Qnum q))
  end.

(** A number that [parseInt] can give: [NaN], an infinity, or an integer. *)
Definition integral (n : number) : Prop :=
  match n with
  | Fin q => exists z, q = inject_Z z
  | _ => True
  end.

(** A host and a [parseInt] for examples: natural numbers are printed in
    decimal, and an integer is parsed to itself. *)
Definition host_decimal : Host unit :=
  {| construct := fun _ _ => None;
     generateContent := fun w _ _ => (Throw (Error (str "fetch failed")), w);
     groq_create := fun w _ => (Ok (chat_response (vstr "x = 1")), w);
     openai_create := fun w _ => (Throw (Error (str "429 quota exceeded")), w);
     fetch := fun w _ => (Throw (Error (str "connect ECONNREFUSED")), w);
     NumberToString :=
       fun n => match n with
                | Fin q => decimal (Z.to_N (Qnum q))
                | _ => str "NaN"
                end;
     ObjectToString := fun _ => str "[object Object]";
     StringToNumber := fun _ => NaN;
     ObjectToNumber := fun _ => NaN |}.

Definition parseInt_integer (v : value) : number :=
  match v with
  | VNum (Fin q) => Fin (inject_Z (Qnum q))
  | _ => NaN
  end.

(** A file of four lines. *)
Definition four_lines : jsstring :=
  join [newline] [str "a"; str "b"; str "c"; str "d"].

(* ================================================================== *)
(** * [utils/envValidator.js] *)

(** The object [validateEnvironment] returns, with the fields of [config]
    beside the others. *)
Record validation := {
  isValid : bool;
  errors : list jsstring;
  warnings : list jsstring;
  providers : list jsstring;
  config_PORT : value;
  config_NODE_ENV : jsstring;
  config_mockMode : bool;
  config_numProviders : N
}.

(** The three arrays the function fills. *)
Record report := {
  report_errors : list jsstring;
  report_warnings : list jsstring;
  report_providers : list jsstring
}.

Definition push_error (e : jsstring) (r : report) : report :=
  {| report_errors := report_errors r ++ [e];
     report_warnings := report_warnings r;
     report_providers := report_providers r |}.

Definition push_warning (w : jsstring) (r : report) : report :=
  {| report_errors := report_errors r;
     report_warnings := report_warnings r ++ [w];
     report_providers := report_providers r |}.

Definition push_provider (p : jsstring) (r : report) : report :=
  {| report_errors := report_errors r;
     report_warnings := report_warnings r;
     report_providers := report_providers r ++ [p] |}.

Module EnvValidator.
Section EnvValidator.
Context {W : Type} {host : Host W}.
Variable E : env.
Variable cfg : settings.

(** One of the three blocks
    [if (KEY && KEY.trim().length > 0) {
       if (KEY.length < 20) errors.push(...) else providers.push(...)
     } else warnings.push(...)]. *)
Definition check_key (variable label : string) (key : option jsstring)
    (r : report) : report :=
  match key_truthy key with
  | Some k =>
      if nonblank k then
        if (jslength k <? 20)%N then
          push_error (str variable ++ str " appears invalid (too short)") r
        else push_provider (str label) r
      else push_warning (str variable ++ str " not configured") r
  | None => push_warning (str variable ++ str " not configured") r
  end.

(** [process.env.PORT || 5000] *)
Definition port : value :=
  match key_truthy (PORT cfg) with
  | Some p => VStr p
  | None => vint 5000
  end.

(** [isNaN(x)] *)
Definition isNaN (x : value) : bool :=
  match ToNumber x with
  | NaN => true
  | _ => false
  end.

(** [isNaN(PORT) || PORT < 1 || PORT > 65535] *)
Definition bad_port : bool :=
  isNaN port
  || num_lt (ToNumber port) (Fin (inject_Z 1))
  || num_lt (Fin (inject_Z 65535)) (ToNumber port).

Definition validateEnvironment : validation :=
  let PORT := port in
  let NODE_ENV := env_or (NODE_ENV cfg) "development" in
  let MOCK_MODE := mockMode E in
  let r := {| report_errors := []; report_warnings := [];
              report_providers := [] |} in
  let r := check_key "GEMINI_API_KEY" "Gemini" (GEMINI_API_KEY E) r in
  let r := check_key "GROQ_API_KEY" "Groq" (GROQ_API_KEY E) r in
  let r := check_key "OPENAI_API_KEY" "OpenAI" (OPENAI_API_KEY E) r in
  let r :=
    if (List.length (report_providers r) =? 0)%nat && negb MOCK_MODE then
      push_error (str "No AI API keys found (need GEMINI_API_KEY, GROQ_API_KEY, or OPENAI_API_KEY) and MOCK_MODE is disabled") r
    else r in
  let r :=
    if bad_port then
      push_error (str "Invalid PORT: " ++ ToString PORT ++ str " (must be 1-65535)") r
    else r in
  let r :=
    if negb (jseqb NODE_ENV (str "development"))
       && negb (jseqb NODE_ENV (str "production")) then
      push_warning (str "NODE_ENV is " ++ dquote :: NODE_ENV ++ dquote ::
                    str " (expected " ++ quoted "development" ++ str " or "
                    ++ quoted "production" ++ str ")") r
    else r in
  let r :=
    if mockMode E then
      push_warning (str "MOCK_MODE is enabled - all AI calls will return mock responses") r
    else r in
  {| isValid := (List.length (report_errors r) =? 0)%nat;
     errors := report_errors r;
     warnings := report_warnings r;
     providers := report_providers r;
     config_PORT := PORT;
     config_NODE_ENV := NODE_ENV;
     config_mockMode := MOCK_MODE;
     config_numProviders := N.of_nat (List.length (report_providers r)) |}.
End EnvValidator.
End EnvValidator.

(** A key that is set, not blank, and shorter than 20 characters. *)
Definition too_short (key : option jsstring) : bool :=
  match key with
  | Some k => nonblank k && (jslength k <? 20)%N
  | None => false
  end.

(** A key that is set, not blank, and of 20 characters or more. *)
Definition usable (key : option jsstring) : bool :=
  match key with
  | Some k => nonblank k && (20 <=? jslength k)%N
  | None => false
  end.

(** Three keys of 20 characters and more. *)
Definition env_long_keys : env :=
  {| GEMINI_API_KEY := Some (str "gemini-key-0123456789");
     GROQ_API_KEY := Some (str "groq-key-0123456789ab");
     OPENAI_API_KEY := Some (str "openai-key-0123456789");
     OLLAMA_HOST := None;
     MOCK_MODE := None |}.

(* ================================================================== *)
(** * Bodies the completion route lets through *)

(** A request body the completion route lets through: [fileContent] is a
    string that is not empty and has at most 50000 characters, and
    [cursorLine] is a number or a value that counts as false. *)
Definition valid_completion_body (body : value) : Prop :=
  (exists s, get body "fileContent" = Ok (VStr s) /\ s <> []
             /\ (jslength s <= 50000)%N)
  /\ exists cur, get body "cursorLine" = Ok cur
                 /\ (truthy cur = false \/ is_number cur = true).

(** [{ fileContent: "a\nb\nc\nd", cursorLine: 2 }] *)
Definition completion_at_2 : value :=
  obj [("fileContent", VStr four_lines); ("cursorLine", vint 2)].

(* ================================================================== *)
(** * Pieces of a text *)

(** [g] is a piece of [t]: some characters of [t] in a row. *)
Definition piece_of (g t : jsstring) : Prop := exists a b, t = a ++ g ++ b.

(** [s'] is an end of [s]. *)
Definition end_of (s' s : jsstring) : Prop := exists p, s = p ++ s'.

(** A capture taken while matching inside [s]: none, or a piece of [s]. *)
Definition capture_in (cap : option jsstring) (s : jsstring) : Prop :=
  match cap with
  | Some g => piece_of g s
  | None => True
  end.

Unset Implicit Arguments.

(* ================================================================== *)
(** * Strings *)

Lemma jseqb_eq (a b : jsstring) : jseqb a b = true <-> a = b.
Proof.
  revert b; induction a as [|x a IH]; intros [|y b]; simpl; split; intro H;
    try reflexivity; try discriminate.
  - apply andb_true_iff in H as [Hx Ha]. apply N.eqb_eq in Hx.
    apply IH in Ha. now subst.
  - injection H as -> ->. rewrite N.eqb_refl. simpl. now apply IH.
Qed.

Lemma trimStart_length (s : jsstring) :
  List.length (trimStart s) <= List.length s.
Proof.
  induction s as [|c s IH]; simpl; [lia|].
  destruct (is_ws c); simpl; lia.
Qed.

Lemma trim_length (s : jsstring) : List.length (trim s) <= List.length s.
Proof.
  unfold trim, trimEnd. rewrite length_rev.
  etransitivity; [apply trimStart_length|].
  rewrite length_rev. apply trimStart_length.
Qed.

Lemma nonblank_nonempty (s : jsstring) : nonblank s = true -> s <> [].
Proof. intros H ->. discriminate H. Qed.

(** A text that neither starts nor ends with white space is its own trim. *)
Lemma trim_fixed (c d : jschar) (s : jsstring) :
  is_ws c = false -> is_ws d = false -> trim (c :: s ++ [d]) = c :: s ++ [d].
Proof.
  intros Hc Hd. unfold trim, trimEnd. simpl. rewrite Hc.
  change (c :: s ++ [d]) with ((c :: s) ++ [d]).
  rewrite rev_app_distr. simpl. rewrite Hd.
  change (d :: rev s ++ [c]) with (rev [d] ++ rev (c :: s)).
  rewrite <- rev_app_distr, rev_involutive. reflexivity.
Qed.

(* ================================================================== *)
(** * The sanitizer *)

Lemma filterM_filter {A} (f : A -> res bool) (l ks : list A) :
  filterM f l = Ok ks ->
  ks = filter (fun x => match f x with Ok b => b | Throw _ => false end) l.
Proof.
  revert ks; induction l as [|x l IH]; simpl; intros ks H.
  - now injection H as <-.
  - destruct (f x) as [b|e]; simpl in H; [|discriminate].
    destruct (filterM f l) as [ks'|e]; simpl in H; [|discriminate].
    injection H as <-. rewrite (IH ks' eq_refl). now destruct b.
Qed.

Lemma mapM_Forall2 {A B} (f : A -> res B) (l : list A) (ys : list B) :
  mapM f l = Ok ys -> Forall2 (fun x y => f x = Ok y) l ys.
Proof.
  revert ys; induction l as [|x l IH]; simpl; intros ys H.
  - injection H as <-. constructor.
  - destruct (f x) as [y|e] eqn:Hx; simpl in H; [|discriminate].
    destruct (mapM f l) as [ys'|e]; simpl in H; [|discriminate].
    injection H as <-. constructor; auto.
Qed.

Lemma kept_fields (payload : string) (c : value) :
  kept payload c = true ->
  nonempty_string_field c "file" /\ nonempty_string_field c payload.
Proof.
  unfold kept, Review.entry_ok.
  destruct (truthy c && is_object c); [|discriminate].
  destruct (get c "file") as [[| | | |fs| |]|e] eqn:Hf; simpl; try discriminate.
  destruct (nonblank fs) eqn:Hfs; [|discriminate].
  destruct (get c payload) as [[| | | |ps| |]|e] eqn:Hp; simpl; try discriminate.
  intros Hps. split.
  - exists fs. split; [assumption|]. now apply nonblank_nonempty.
  - exists ps. split; [assumption|]. now apply nonblank_nonempty.
Qed.

Lemma firstn_In {A} (n : nat) (l : list A) (x : A) :
  In x (firstn n l) -> In x l.
Proof.
  intros H. rewrite <- (firstn_skipn n l). apply in_or_app. now left.
Qed.

Lemma default_is_ReviewDocument : ReviewDocument Review.createDefaultReview.
Proof.
  constructor; simpl; try lia; try contradiction.
  now right.
Qed.

(** What the [try] block of [validateReview] returns when nothing in it
    throws. *)
Lemma validateReview_try_Ok (data : value) (r : Review.review) :
  Review.validateReview_try data = Ok r ->
  exists s cs ps ts,
    get data "summary" = Ok s /\ get data "comments" = Ok cs /\
    get data "patches" = Ok ps /\ get data "testCases" = Ok ts /\
    Review.summary r =
      match s with
      | VStr t => firstn 3000 (trim t)
      | _ => str "Code review completed."
      end /\
    Review.comments r =
      match cs with
      | VArr l => firstn 100 (filter (kept "comment") l)
      | _ => []
      end /\
    Review.patches r =
      match ps with
      | VArr l => firstn 30 (filter (kept "diff") l)
      | _ => []
      end /\
    (match ts with
     | VArr l =>
         exists ks cut,
           filterM Review.testCase_ok l = Ok ks /\
           mapM Review.testCase_cut ks = Ok cut /\
           Review.testCases r = firstn 20 cut
     | _ => Review.testCases r = []
     end) /\
    Review.status r = str "validated".
Proof.
  unfold Review.validateReview_try.
  destruct (get data "summary") as [s|e]; simpl; [|discriminate].
  destruct (get data "comments") as [cs|e]; simpl; [|discriminate].
  set (C := match cs with VArr l => _ | _ => Ok [] end).
  destruct C as [cl|e] eqn:HC; simpl; [|discriminate].
  destruct (get data "patches") as [ps|e]; simpl; [|discriminate].
  set (P := match ps with VArr l => _ | _ => Ok [] end).
  destruct P as [pl|e] eqn:HP; simpl; [|discriminate].
  destruct (get data "testCases") as [ts|e]; simpl; [|discriminate].
  set (T := match ts with VArr l => _ | _ => Ok [] end).
  destruct T as [tl|e] eqn:HT; simpl; [|discriminate].
  intros H. injection H as <-. simpl.
  exists s, cs, ps, ts. repeat split; try reflexivity.
  - subst C. destruct cs; try (now injection HC as <-).
    destruct (filterM (Review.entry_ok "comment") elems) as [ks|e] eqn:Hk;
      simpl in HC; [|discriminate].
    injection HC as <-. now rewrite (filterM_filter _ _ _ Hk).
  - subst P. destruct ps; try (now injection HP as <-).
    destruct (filterM (Review.entry_ok "diff") elems) as [ks|e] eqn:Hk;
      simpl in HP; [|discriminate].
    injection HP as <-. now rewrite (filterM_filter _ _ _ Hk).
  - subst T. destruct ts; try (now injection HT as <-).
    destruct (filterM Review.testCase_ok elems) as [ks|e] eqn:Hk;
      simpl in HT; [|discriminate].
    destruct (mapM Review.testCase_cut ks) as [cut|e] eqn:Hc;
      simpl in HT; [|discriminate].
    injection HT as <-. now exists ks, cut.
Qed.

Lemma Forall2_In_right {A B} (P : A -> B -> Prop) (l : list A) (ys : list B)
    (y : B) :
  Forall2 P l ys -> In y ys -> exists x, In x l /\ P x y.
Proof.
  induction 1 as [|x y' l ys Hxy _ IH]; simpl; [contradiction|].
  intros [<-|Hin].
  - exists x. auto.
  - destruct (IH Hin) as (x' & Hx' & HP). exists x'. auto.
Qed.

Lemma firstn_capped {A} (n : nat) (l : list A) : List.length (firstn n l) <= n.
Proof. rewrite length_firstn. lia. Qed.

Lemma validated_not_default : str "default" <> str "validated".
Proof. discriminate. Qed.

(** Which of the two documents [validateReview] returned can be read off
    [status]. *)
Lemma validateReview_validated (data : value) :
  Review.status (Review.validateReview data) = str "validated" ->
  Review.validateReview_try data = Ok (Review.validateReview data).
Proof.
  unfold Review.validateReview.
  destruct (negb (truthy data) || negb (is_object data)).
  - intros H. now destruct (validated_not_default H).
  - destruct (Review.validateReview_try data) as [r|e]; [reflexivity|].
    intros H. now destruct (validated_not_default H).
Qed.

(** C5: the sanitizer is total. [validateReview] maps every value to a
    document (it is a function into [review], with the [catch] of the source
    turning any exception of the [try] block into the default document), and
    that document satisfies the invariants: at most 100 comments, 30 patches
    and 20 test cases, a summary of at most 3000 characters, test cases of at
    most 500, non-empty string [file] and payload fields on every retained
    entry, and a [status] of ["validated"] or ["default"]. *)
Theorem validateReview_total (data : value) :
  ReviewDocument (Review.validateReview data).
Proof.
  unfold Review.validateReview.
  destruct (negb (truthy data) || negb (is_object data));
    [apply default_is_ReviewDocument|].
  destruct (Review.validateReview_try data) as [r|e] eqn:Htry;
    [|apply default_is_ReviewDocument].
  destruct (validateReview_try_Ok _ _ Htry)
    as (s & cs & ps & ts & _ & _ & _ & _ & Hs & Hc & Hp & Ht & Hst).
  constructor.
  - rewrite Hs. destruct s; try (apply Nat.leb_le; reflexivity).
    apply firstn_capped.
  - rewrite Hc. destruct cs; try (simpl; lia). apply firstn_capped.
  - rewrite Hp. destruct ps; try (simpl; lia). apply firstn_capped.
  - destruct ts; try (rewrite Ht; simpl; lia).
    destruct Ht as (ks & cut & _ & _ & ->). apply firstn_capped.
  - intros tc Hin.
    destruct ts; try (rewrite Ht in Hin; contradiction).
    destruct Ht as (ks & cut & _ & Hcut & Heq). rewrite Heq in Hin.
    apply firstn_In in Hin.
    destruct (Forall2_In_right _ _ _ _ (mapM_Forall2 _ _ _ Hcut) Hin) as (x & _ & Hx).
    destruct x as [| | | |s0| |]; try discriminate Hx.
    exists (firstn 500 s0). split; [|apply firstn_capped].
    change (Ok (VStr (firstn 500 s0)) = Ok tc) in Hx. congruence.
  - intros c Hin. rewrite Hc in Hin.
    destruct cs; try contradiction.
    apply firstn_In, filter_In in Hin. now apply kept_fields.
  - intros p Hin. rewrite Hp in Hin.
    destruct ps; try contradiction.
    apply firstn_In, filter_In in Hin. now apply kept_fields.
  - now left.
Qed.

(** C10: the sanitizer returns the entries it keeps as they came. Every
    element of the sanitized [comments] (of [patches]) is an element of the
    input array itself, so fields beyond [file] and [comment] ([diff]) are
    still there and no string in it was trimmed or cut; and when the
    sanitizer did not fall back to the default document, the sanitized array
    is the input array filtered by the callback and capped at 100 (30)
    entries, nothing else. *)
Theorem retained_entries_unchanged (data : value) :
  let r := Review.validateReview data in
  (forall c, In c (Review.comments r) ->
     exists cs, get data "comments" = Ok (VArr cs) /\ In c cs) /\
  (forall p, In p (Review.patches r) ->
     exists ps, get data "patches" = Ok (VArr ps) /\ In p ps) /\
  (Review.status r = str "validated" ->
     (forall cs, get data "comments" = Ok (VArr cs) ->
        Review.comments r = firstn 100 (filter (kept "comment") cs)) /\
     (forall ps, get data "patches" = Ok (VArr ps) ->
        Review.patches r = firstn 30 (filter (kept "diff") ps))).
Proof.
  intros r.
  assert (Hcases :
    r = Review.createDefaultReview \/ Review.validateReview_try data = Ok r).
  { subst r. unfold Review.validateReview.
    destruct (negb (truthy data) || negb (is_object data)); [now left|].
    destruct (Review.validateReview_try data); [now right|now left]. }
  destruct Hcases as [Hd|Htry].
  - rewrite Hd. simpl. repeat split; try contradiction.
    + destruct (validated_not_default H).
    + destruct (validated_not_default H).
  - destruct (validateReview_try_Ok _ _ Htry)
      as (s & cs & ps & ts & _ & Hgc & Hgp & _ & _ & Hc & Hp & _ & _).
    repeat split.
    + intros c Hin. rewrite Hc in Hin. destruct cs; try contradiction.
      eexists. split; [eassumption|].
      apply firstn_In, filter_In in Hin. apply Hin.
    + intros p Hin. rewrite Hp in Hin. destruct ps; try contradiction.
      eexists. split; [eassumption|].
      apply firstn_In, filter_In in Hin. apply Hin.
    + intros cs' Hcs'. rewrite Hgc in Hcs'. injection Hcs' as ->. exact Hc.
    + intros ps' Hps'. rewrite Hgp in Hps'. injection Hps' as ->. exact Hp.
Qed.

Lemma retained_entries_unchanged_witness :
  Review.comments (Review.validateReview sample_review) = [comment_with_line]
  /\ Review.patches (Review.validateReview sample_review) = [patch_with_note].
Proof.
  destruct (retained_entries_unchanged sample_review) as (_ & _ & H).
  destruct (H eq_refl) as [Hc Hp].
  split.
  - rewrite (Hc _ eq_refl). reflexivity.
  - rewrite (Hp _ eq_refl). reflexivity.
Defined.

(** C3, as stated, fails: a summary of 5000 characters that are all spaces
    is trimmed to nothing before it is cut. *)
Lemma summary_5000_blank_counterexample :
  get blank_summary "summary" = Ok (VStr (repeat 32%N 5000))
  /\ List.length (repeat 32%N 5000) = 5000
  /\ List.length (Review.summary (Review.validateReview blank_summary)) = 0
  /\ List.length (Review.summary (Review.validateReview blank_summary)) <> 3000.
Proof.
  repeat split; try (vm_compute; reflexivity).
  vm_compute. discriminate.
Qed.

(** C3, amended: when the sanitizer does not fall back to the default
    document, a string summary comes back trimmed and then cut to its first
    3000 characters, so its length is the smaller of 3000 and the length of
    the trimmed string; a summary of 5000 characters of which at least 3000
    are left after trimming comes back with exactly 3000. *)
Theorem summary_trimmed_then_cut (data : value) (s : jsstring) :
  get data "summary" = Ok (VStr s) ->
  Review.status (Review.validateReview data) = str "validated" ->
  Review.summary (Review.validateReview data) = firstn 3000 (trim s)
  /\ List.length (Review.summary (Review.validateReview data))
     = Nat.min 3000 (List.length (trim s))
  /\ (List.length s = 5000 -> 3000 <= List.length (trim s) ->
      List.length (Review.summary (Review.validateReview data)) = 3000).
Proof.
  intros Hget Hst.
  apply validateReview_validated in Hst.
  destruct (validateReview_try_Ok _ _ Hst)
    as (s' & cs & ps & ts & Hs' & _ & _ & _ & Hs & _).
  rewrite Hget in Hs'. injection Hs' as <-.
  rewrite Hs. rewrite length_firstn. repeat split. lia.
Qed.

Lemma summary_trimmed_then_cut_witness :
  List.length (Review.summary (Review.validateReview long_summary)) = 3000.
Proof.
  refine (proj2 (proj2
    (summary_trimmed_then_cut long_summary (repeat 97%N 5000)
       eq_refl eq_refl)) _ _).
  - vm_compute. reflexivity.
  - apply Nat.leb_le. vm_compute. reflexivity.
Defined.

(* ================================================================== *)
(** * The matcher *)

Section Stars.
Context {R : Type}.

(** A lazy star over any character stops at the first split of the input
    the rest of the expression accepts. *)
Lemma star_lazy_finds (k : jsstring -> option R) (a b : jsstring) (r : R) :
  k b = Some r ->
  exists a' b' r',
    a ++ b = a' ++ b' /\ List.length a' <= List.length a /\
    k b' = Some r' /\ star_lazy any_char k (a ++ b) = Some r'.
Proof.
  intros Hb. induction a as [|c a IH].
  - exists [], b, r. repeat split; auto.
    simpl. destruct b; simpl; now rewrite Hb.
  - simpl. destruct (k (c :: a ++ b)) as [r0|] eqn:Hk.
    + exists [], (c :: a ++ b), r0. repeat split; simpl; auto; try lia.
    + destruct IH as (a' & b' & r' & Heq & Hlen & Hk' & Hs).
      exists (c :: a'), b', r'. simpl. rewrite <- Heq.
      repeat split; auto; try lia.
Qed.

(** A greedy star over any character prefers the splits furthest to the
    right. *)
Lemma star_greedy_last (k : jsstring -> option R) (a b : jsstring) (r : R) :
  star_greedy any_char k b = Some r ->
  star_greedy any_char k (a ++ b) = Some r.
Proof.
  intros Hb. induction a as [|c a IH]; simpl; [assumption|].
  now rewrite IH.
Qed.

Lemma star_greedy_const (p : jschar -> bool) (k : jsstring -> option R)
    (c : R) (s : jsstring) (r : R) :
  (forall s' r', k s' = Some r' -> r' = c) ->
  star_greedy p k s = Some r -> r = c.
Proof.
  intros Hk. induction s as [|x s IH]; simpl.
  - apply Hk.
  - destruct (p x); [|apply Hk].
    destruct (star_greedy p k s) as [r0|]; [|apply Hk].
    intros H. injection H as <-. now apply IH.
Qed.
End Stars.

Lemma firstn_app_minus {A} (a b : list A) :
  firstn (List.length (a ++ b) - List.length b) (a ++ b) = a.
Proof.
  rewrite length_app, Nat.add_sub, firstn_app, Nat.sub_diag, firstn_all.
  simpl. apply app_nil_r.
Qed.

Lemma app_prefix {A} (a b a' b' : list A) :
  a ++ b = a' ++ b' -> List.length a' <= List.length a ->
  exists q, a = a' ++ q.
Proof.
  intros H Hlen. apply app_eq_app in H as [l [[-> _]|[-> _]]].
  - now exists l.
  - rewrite length_app in Hlen. destruct l; [|simpl in Hlen; lia].
    exists []. now rewrite !app_nil_r.
Qed.

Lemma exec_here (r : regex) (s : jsstring) (cap : option jsstring) :
  rmatch r s None k0 = Some cap -> exec r s = Some cap.
Proof.
  intros H. unfold k0 in H. destruct s; simpl; now rewrite H.
Qed.

Lemma exec_next (r : regex) (c : jschar) (s : jsstring) :
  rmatch r (c :: s) None k0 = None -> exec r (c :: s) = exec r s.
Proof.
  intros H. unfold k0 in H. simpl. now rewrite H.
Qed.

Lemma close_returns_capture (s : jsstring) (cap r : option jsstring) :
  rmatch re_close s cap k0 = Some r -> r = cap.
Proof.
  change (rmatch re_close s cap k0)
    with (star_greedy is_ws
            (fun s' => match lit_match fence s' with
                       | Some s'' => k0 s'' cap
                       | None => None
                       end) s).
  apply star_greedy_const. intros s' r'.
  destruct (lit_match fence s'); [|intros; discriminate].
  unfold k0. congruence.
Qed.

Lemma fenced_cons (s : jsstring) :
  fenced s = [96; 96; 96; 106; 115; 111; 110; 10]%N ++ s ++ [10; 96; 96; 96]%N.
Proof. reflexivity. Qed.

Lemma trim_fenced (s : jsstring) : trim (fenced s) = fenced s.
Proof.
  assert (H : fenced s
              = 96%N :: ([96; 96; 106; 115; 111; 110; 10]%N ++ s ++ [10; 96; 96]%N)
                ++ [96%N]).
  { rewrite fenced_cons. simpl. do 8 f_equal.
    rewrite <- app_assoc. reflexivity. }
  rewrite H. now apply trim_fixed.
Qed.

(** On the text of an object followed by a closing fence, the group of
    [re_fenced] captures a prefix of the object text: the whole of it when
    it has no fence inside. *)
Lemma fenced_group (body : jsstring) :
  let S := lbrace :: body ++ [rbrace] in
  exists P Q,
    S = P ++ Q /\
    rmatch (RSeq (RGroup (RStar false any_char)) re_close)
      (S ++ newline :: fence) None k0 = Some (Some P).
Proof.
  intros S.
  change (rmatch (RSeq (RGroup (RStar false any_char)) re_close)
            (S ++ newline :: fence) None k0)
    with (star_lazy any_char
            (fun s' => rmatch re_close s'
               (Some (firstn (List.length (S ++ newline :: fence)
                              - List.length s') (S ++ newline :: fence))) k0)
            (S ++ newline :: fence)).
  match goal with |- context [star_lazy any_char ?k _] => set (K := k) end.
  destruct (star_lazy_finds K S (newline :: fence)
              (Some (firstn (List.length (S ++ newline :: fence)
                             - List.length (newline :: fence))
                       (S ++ newline :: fence))) eq_refl)
    as (a' & b' & r' & Heq & Hlen & Hk & Hs).
  destruct (app_prefix _ _ _ _ Heq Hlen) as [Q HQ].
  exists a', Q. split; [assumption|].
  rewrite Hs. subst K. cbv beta in Hk.
  apply close_returns_capture in Hk. rewrite Hk, Heq.
  now rewrite firstn_app_minus.
Qed.

Lemma fenced_match (body : jsstring) :
  exists P Q,
    lbrace :: body ++ [rbrace] = P ++ Q /\
    exec Review.re_fenced (fenced (lbrace :: body ++ [rbrace])) = Some (Some P).
Proof.
  destruct (fenced_group body) as (P & Q & HS & Hm). cbv zeta in Hm.
  exists P, Q. split; [assumption|].
  rewrite fenced_cons. apply exec_here.
  set (S := lbrace :: body ++ [rbrace]) in *.
  change (match
            match star_greedy is_ws
                    (fun s' => rmatch (RSeq (RGroup (RStar false any_char)) re_close)
                                 s' None k0)
                    (S ++ newline :: fence) with
            | Some r => Some r
            | None => rmatch (RSeq (RGroup (RStar false any_char)) re_close)
                        (newline :: S ++ newline :: fence) None k0
            end with
          | Some x => Some x
          | None => rmatch (RSeq (RStar true is_ws)
                              (RSeq (RGroup (RStar false any_char)) re_close))
                      ([106; 115; 111; 110; 10]%N ++ S ++ [10; 96; 96; 96]%N)
                      None k0
          end = Some (Some P)).
  assert (Hg : star_greedy is_ws
             (fun s' => rmatch (RSeq (RGroup (RStar false any_char)) re_close)
                          s' None k0)
             (S ++ newline :: fence) = Some (Some P)) by exact Hm.
  now rewrite Hg.
Qed.

(** On a fenced object text, [re_bracketed] captures the object text: from
    the first brace of the text to its last one. *)
Lemma bracketed_match (body : jsstring) :
  exec Review.re_bracketed (fenced (lbrace :: body ++ [rbrace]))
  = Some (Some (lbrace :: body ++ [rbrace])).
Proof.
  rewrite fenced_cons. simpl app.
  do 8 (rewrite exec_next by reflexivity).
  apply exec_here.
  set (tail := [10; 96; 96; 96]%N).
  set (s := lbrace :: (body ++ [rbrace]) ++ tail).
  change (match
            star_greedy any_char
              (fun s' => match lit_match [rbrace] s' with
                         | Some s'' =>
                             Some (Some (firstn (List.length s - List.length s'') s))
                         | None => None
                         end)
              ((body ++ [rbrace]) ++ tail) with
          | Some x => Some x
          | None =>
              rmatch (RSeq (RLit [lbracket])
                        (RSeq (RStar true any_char) (RLit [rbracket])))
                s None
                (fun s' _ => k0 s' (Some (firstn (List.length s - List.length s') s)))
          end = Some (Some (lbrace :: body ++ [rbrace]))).
  rewrite <- app_assoc.
  match goal with
  | |- match ?X with _ => _ end = _ =>
      assert (Hg : X = Some (Some (firstn (List.length s - List.length tail) s)))
        by (apply star_greedy_last; reflexivity)
  end.
  rewrite Hg. subst s.
  change (lbrace :: (body ++ [rbrace]) ++ tail)
    with ((lbrace :: body ++ [rbrace]) ++ tail).
  now rewrite firstn_app_minus.
Qed.

(* ================================================================== *)
(** * The decoder *)

Section DecoderFacts.
Variable JSON_parse : jsstring -> option value.
Variable JSON_stringify : value -> jsstring.

(** C8: the direct parse comes first. Whenever the trimmed text parses as
    JSON, [extractJSON] returns that value, whatever fenced blocks,
    brackets or labels the text contains: the other strategies are only
    tried in the [catch] of the direct parse. The one fact used about
    [JSON.parse] is that it rejects the empty text. *)
Theorem direct_parse_wins (t : jsstring) (v : value) :
  JSON_parse [] = None ->
  JSON_parse (trim t) = Some v ->
  Review.extractJSON JSON_parse (VStr t) = Ok v.
Proof.
  intros Hempty Hparse. unfold Review.extractJSON.
  destruct t as [|c t];
    [change (JSON_parse [] = Some v) in Hparse; congruence|].
  simpl truthy. cbv beta iota. simpl negb. cbv iota.
  destruct (trim (c :: t)) as [|d u] eqn:Ht; [congruence|].
  now rewrite Hparse.
Qed.

(** C7: the decoder round trip. For a value [X] whose JSON text is an
    object text that [JSON.parse] reads back as [X], decoding the text
    gives [X], and so does decoding the text inside a fenced block. The
    facts used about the built-ins are those of any JSON object text: it
    runs from an opening to a closing brace, no proper prefix of it is
    JSON, and a text that starts with a fence is not JSON. *)
Theorem decode_round_trip (X : value) (body : jsstring) :
  JSON_stringify X = lbrace :: body ++ [rbrace] ->
  JSON_parse (JSON_stringify X) = Some X ->
  JSON_parse (fenced (JSON_stringify X)) = None ->
  (forall P Q, JSON_stringify X = P ++ Q -> Q <> [] ->
               JSON_parse (trim P) = None) ->
  Review.extractJSON JSON_parse (VStr (JSON_stringify X)) = Ok X
  /\ Review.extractJSON JSON_parse (VStr (fenced (JSON_stringify X))) = Ok X.
Proof.
  intros HS Hback Hfence Hprefix.
  assert (Htrim : trim (JSON_stringify X) = JSON_stringify X).
  { rewrite HS. now apply trim_fixed. }
  split.
  - unfold Review.extractJSON. rewrite Htrim, Hback, HS. reflexivity.
  - unfold Review.extractJSON.
    rewrite trim_fenced, Hfence.
    replace (negb (truthy (VStr (fenced (JSON_stringify X))))) with false
      by reflexivity.
    replace (List.length (fenced (JSON_stringify X)) =? 0)%nat with false
      by reflexivity.
    rewrite HS in *.
    destruct (fenced_match body) as (P & Q & HPQ & Hexec).
    rewrite Hexec, bracketed_match.
    unfold Review.parse_match at 2. simpl group1. cbv beta iota.
    rewrite Hback.
    unfold Review.parse_match, group1.
    destruct P as [|c P]; [reflexivity|].
    destruct Q as [|q Q].
    + rewrite app_nil_r in HPQ. rewrite <- HPQ.
      rewrite trim_fixed by reflexivity. now rewrite Hback.
    + rewrite (Hprefix (c :: P) (q :: Q) HPQ) by discriminate. reflexivity.
Qed.
End DecoderFacts.

Lemma direct_parse_wins_witness :
  Review.parse_match MiniJSON.parse (exec Review.re_fenced array_with_fences) trim
    = Some (vstr ", 1, ")
  /\ Review.extractJSON MiniJSON.parse (VStr array_with_fences)
     = Ok (VArr [VStr fence; vint 1; VStr fence]).
Proof.
  split.
  - vm_compute. reflexivity.
  - apply (direct_parse_wins MiniJSON.parse array_with_fences).
    + vm_compute. reflexivity.
    + vm_compute. reflexivity.
Defined.

Lemma decode_round_trip_witness :
  Review.extractJSON MiniJSON.parse (VStr (MiniJSON.stringify fence_inside))
    = Ok fence_inside
  /\ Review.extractJSON MiniJSON.parse
       (VStr (fenced (MiniJSON.stringify fence_inside)))
     = Ok fence_inside.
Proof.
  apply (decode_round_trip MiniJSON.parse MiniJSON.stringify fence_inside
           (quoted "a" ++ colon :: dquote :: fence ++ [dquote])).
  - vm_compute. reflexivity.
  - vm_compute. reflexivity.
  - vm_compute. reflexivity.
  - intros P Q HS HQ.
    assert (Htext : MiniJSON.stringify fence_inside
                    = [123; 34; 97; 34; 58; 34; 96; 96; 96; 34; 125]%N)
      by (vm_compute; reflexivity).
    rewrite Htext in HS.
    repeat (destruct P as [|? P];
            [first [vm_compute; reflexivity
                   | simpl in HS; symmetry in HS; contradiction]
            | simpl in HS; first [injection HS as <- HS | discriminate HS]]).
Defined.

(* ================================================================== *)
(** * The fallback loop of [modelRouter.js] *)

Section RouterFacts.
Context {W : Type} {host : Host W}.
Variable E : env.

Lemma after_record (st : state W) (rq : request) (rs : response) (w : W) :
  after_call st {| call_request := rq; call_response := rs |} (record rq rs w st).
Proof. repeat split. Qed.

Lemma Router_run_attempt_skip (prompt : jsstring) (n : number) (a : attempt)
    (st : state W) :
  available st a = false ->
  Router.run_attempt E prompt n a st = (Ok Skipped, st).
Proof.
  unfold available, Router.run_attempt, catch.
  destruct (jseqb (provider a) (str "gemini") && gemini st); [discriminate|].
  destruct (jseqb (provider a) (str "groq") && groq st); [discriminate|].
  destruct (jseqb (provider a) (str "openai") && openai st); [discriminate|].
  destruct (jseqb (provider a) (str "ollama")); [discriminate|].
  reflexivity.
Qed.

Lemma Router_run_attempt_call (prompt : jsstring) (n : number) (a : attempt)
    (st : state W) :
  available st a = true ->
  exists c st',
    Router.run_attempt E prompt n a st = (Ok (step_of (router_verdict c)), st')
    /\ after_call st c st'
    /\ call_attempt c = a
    /\ call_request c = router_request E prompt n a.
Proof.
  destruct a as [p m].
  unfold available, Router.run_attempt, router_request. simpl provider. simpl model.
  destruct (jseqb p (str "gemini")) eqn:Hg.
  { apply jseqb_eq in Hg. subst p.
    destruct (gemini st) eqn:Hgem; [|discriminate]. intros _.
    simpl andb. cbv iota.
    unfold catch, Router.try_gemini, bind, await_generateContent, lift, ret. cbv beta.
    cbn [model provider]. destruct (generateContent (world st) m prompt) as [r w] eqn:Hcall.
    exists {| call_request := GenerateContent m prompt;
              call_response := GeminiResponse r |}, (record (GenerateContent m prompt) (GeminiResponse r) w st).
    split; [|split; [apply after_record|split; reflexivity]].
    unfold router_verdict. simpl call_response.
    destruct r as [result|e]; simpl; [|reflexivity].
    destruct (Router.gemini_after result); reflexivity. }
  simpl andb. simpl orb.
  destruct (jseqb p (str "groq")) eqn:Hq.
  { apply jseqb_eq in Hq. subst p.
    destruct (groq st) eqn:Hgroq; [|discriminate]. intros _.
    simpl andb. cbv iota.
    unfold catch, Router.try_groq, bind, await_groq, lift, ret. cbv beta.
    set (b := Router.chat_request _ prompt n).
    destruct (groq_create (world st) b) as [r w] eqn:Hcall.
    exists {| call_request := GroqCreate b; call_response := ChatResponse r |},
           (record (GroqCreate b) (ChatResponse r) w st).
    split; [|split; [apply after_record|split; reflexivity]].
    unfold router_verdict. simpl call_response. simpl call_request.
    destruct r as [v|e]; simpl; [|reflexivity].
    destruct (Router.validateResponse v "Groq"); reflexivity. }
  simpl andb. simpl orb.
  destruct (jseqb p (str "openai")) eqn:Ho.
  { apply jseqb_eq in Ho. subst p.
    destruct (openai st) eqn:Hopenai; [|discriminate]. intros _.
    simpl andb. cbv iota.
    unfold catch, Router.try_openai, bind, await_openai, lift, ret. cbv beta.
    set (b := Router.chat_request _ prompt n).
    destruct (openai_create (world st) b) as [r w] eqn:Hcall.
    exists {| call_request := OpenAICreate b; call_response := ChatResponse r |},
           (record (OpenAICreate b) (ChatResponse r) w st).
    split; [|split; [apply after_record|split; reflexivity]].
    unfold router_verdict. simpl call_response. simpl call_request.
    destruct r as [v|e]; simpl; [|reflexivity].
    destruct (Router.validateResponse v "OpenAI"); reflexivity. }
  simpl andb. simpl orb.
  destruct (jseqb p (str "ollama")) eqn:Hl; [|discriminate].
  apply jseqb_eq in Hl. subst p. intros _.
  unfold catch, Router.try_ollama, bind, await_fetch, lift, ret. cbv beta.
  set (args := Router.ollama_request E _ prompt).
  destruct (fetch (world st) args) as [r w] eqn:Hcall.
  exists {| call_request := Fetch args; call_response := FetchResponse r |},
         (record (Fetch args) (FetchResponse r) w st).
  split; [|split; [apply after_record|split; reflexivity]].
  unfold router_verdict. simpl call_response.
  destruct r as [h|e]; simpl; [|reflexivity].
  destruct (Router.fetch_then h) as [data|e]; simpl; [|reflexivity].
  destruct (Router.ollama_after data); reflexivity.
Qed.

Lemma available_after (st st' : state W) (c : call) (a : attempt) :
  after_call st c st' -> available st' a = available st a.
Proof.
  intros (_ & Hg & Hq & Ho & _). unfold available. now rewrite Hg, Hq, Ho.
Qed.

Lemma traversal_ext (avail avail' : attempt -> bool) req verdict attempts cs r :
  (forall a, avail' a = avail a) ->
  traversal avail req verdict attempts cs r ->
  traversal avail' req verdict attempts cs r.
Proof.
  intros Hext. induction 1.
  - constructor.
  - apply traversal_skip; [now rewrite Hext|assumption].
  - eapply traversal_fail; eauto; now rewrite Hext.
  - eapply traversal_win; eauto; now rewrite Hext.
Qed.

Lemma Router_loop (prompt : jsstring) (n : number) (attempts : list attempt) :
  forall st, exists r new st',
    Router.fallback_loop E prompt n attempts st = (Ok r, st')
    /\ calls st' = calls st ++ new
    /\ same_clients st st'
    /\ traversal (available st) (router_request E prompt n) router_verdict
         attempts new r.
Proof.
  induction attempts as [|a rest IH]; intros st.
  - exists None, [], st. simpl. unfold ret.
    split; [reflexivity|split; [now rewrite app_nil_r|split; [repeat split|constructor]]].
  - destruct (available st a) eqn:Hav.
    + destruct (Router_run_attempt_call prompt n a st Hav)
        as (c & st1 & Hrun & Hafter & Hatt & Hreq).
      destruct (router_verdict c) as [v|e] eqn:Hv.
      * exists (Some v), [c], st1. simpl. unfold bind. rewrite Hrun. simpl.
        destruct Hafter as (Hc & Hcl).
        split; [reflexivity|split; [assumption|split; [exact Hcl|]]].
        eapply traversal_win; eauto.
      * destruct (IH st1) as (r & new & st' & Hloop & Hcalls & Hcl & Htr).
        exists r, (c :: new), st'. simpl. unfold bind. rewrite Hrun. simpl.
        rewrite Hloop.
        pose proof Hafter as (Hc & Hg & Hq & Ho & Hi).
        destruct Hcl as (Hg' & Hq' & Ho' & Hi').
        split; [reflexivity|split; [|split; [repeat split; congruence|]]].
        -- rewrite Hcalls, Hc, <- app_assoc. reflexivity.
        -- eapply traversal_fail; eauto.
           eapply traversal_ext; [|exact Htr].
           intros a'. symmetry. eapply available_after; eauto.
    + destruct (IH st) as (r & new & st' & Hloop & Hcalls & Hcl & Htr).
      exists r, new, st'. simpl. unfold bind.
      rewrite (Router_run_attempt_skip prompt n a st Hav).
      split; [exact Hloop|split; [assumption|split; [assumption|]]].
      now apply traversal_skip.
Qed.
End RouterFacts.

(* ================================================================== *)
(** * [callModel] of [modelRouter.js] before the loop *)

Lemma validateMessage_valid (m : value) :
  Router.validateMessage m = Ok tt <-> valid_message m.
Proof.
  unfold Router.validateMessage, valid_message. split.
  - destruct (truthy m); simpl; [|discriminate].
    destruct (is_object m); simpl; [|discriminate].
    destruct (get m "content") as [c|e]; simpl; [|discriminate].
    destruct c as [| | | |s| |]; simpl;
      try discriminate; try (destruct b; discriminate);
      try (destruct n as [| |q]; try discriminate; destruct (Qeq_bool q 0); discriminate).
    destruct s as [|x s]; simpl; [discriminate|].
    destruct (100000 <? jslength (x :: s))%N eqn:Hlen; [discriminate|].
    intros _. repeat split. exists (x :: s). repeat split; [discriminate|].
    now apply N.ltb_ge.
  - intros (-> & -> & s & -> & Hs & Hlen). simpl.
    destruct s as [|x s]; [congruence|]. simpl.
    apply N.ltb_ge in Hlen. now rewrite Hlen.
Qed.

Lemma validateEach_valid (ms : list value) :
  Router.validateEach ms = Ok tt <-> Forall valid_message ms.
Proof.
  induction ms as [|m ms IH]; simpl.
  - split; constructor.
  - split.
    + destruct (Router.validateMessage m) as [[]|e] eqn:Hm; simpl; [|discriminate].
      intros H. constructor; [now apply validateMessage_valid|now apply IH].
    + intros H. inversion H as [|? ? Hm Hms]; subst.
      apply validateMessage_valid in Hm. rewrite Hm. simpl. now apply IH.
Qed.

Lemma join_values_strings {W} {host : Host W} (sep : jsstring) (l : list jsstring) :
  join_values sep (map VStr l) = join sep l.
Proof.
  unfold join_values. rewrite map_map. f_equal.
  induction l as [|x l IH]; simpl; [reflexivity|]. f_equal. exact IH.
Qed.

Lemma prompt_of_valid {W} {host : Host W} (ms : list value) :
  Forall valid_message ms ->
  prompt_of ms = Ok (join [newline] (contents_of ms)).
Proof.
  intros H. unfold prompt_of.
  assert (Hm : mapM (fun m => get m "content") ms = Ok (map VStr (contents_of ms))).
  { induction H as [|m ms (_ & _ & s & Hs & _) _ IH]; simpl; [reflexivity|].
    rewrite Hs. simpl. now rewrite IH. }
  rewrite Hm. simpl. now rewrite join_values_strings.
Qed.

Section RouterCall.
Context {W : Type} {host : Host W}.
Variable E : env.

Lemma initializeClients_Ok (st : state W) :
  fst (Router.initializeClients E st) = Ok tt
  /\ calls (snd (Router.initializeClients E st)) = calls st
  /\ world (snd (Router.initializeClients E st)) = world st.
Proof.
  unfold Router.initializeClients. destruct (clientsInitialized st); repeat split.
Qed.

Lemma Router_rejects_messages (modelName messages maxTokens : value)
    (st : state W) (e : exn) :
  Router.validateMessages messages = Throw e ->
  Router.callModel E modelName messages maxTokens st = (Throw e, st).
Proof.
  intros H. unfold Router.callModel, catch, bind, lift, throw. now rewrite H.
Qed.

Lemma Router_rejects_maxTokens (modelName messages maxTokens : value)
    (st : state W) (e : exn) :
  Router.validateMessages messages = Ok tt ->
  Router.check_maxTokens (or_default maxTokens) = Throw e ->
  Router.callModel E modelName messages maxTokens st = (Throw e, st).
Proof.
  intros Hm H. unfold Router.callModel, catch, bind, lift, throw.
  rewrite Hm. fold (or_default maxTokens). now rewrite H.
Qed.

Lemma Router_callModel_valid (modelName maxTokens : value) (ms : list value)
    (n : number) (st : state W) :
  Router.validateMessages (VArr ms) = Ok tt ->
  Router.check_maxTokens (or_default maxTokens) = Ok n ->
  Router.callModel E modelName (VArr ms) maxTokens st =
    let st1 := snd (Router.initializeClients E st) in
    let prompt := join [newline] (contents_of ms) in
    if nonblank prompt then
      if mockMode E then (Ok Router.mock_response, st1)
      else
        match Router.fallback_loop E prompt n FALLBACK_MODELS st1 with
        | (Ok (Some v), st') => (Ok v, st')
        | (Ok None, st') => (Throw (Error Router.all_failed), st')
        | (Throw e, st') => (Throw e, st')
        end
    else (Throw (Error (str "Empty prompt generated from messages")), st1).
Proof.
  intros Hm Hn.
  assert (Hvalid : Forall valid_message ms).
  { destruct ms; [discriminate|]. now apply validateEach_valid. }
  unfold Router.callModel, catch, bind, lift, throw, ret.
  rewrite Hm. fold (or_default maxTokens). rewrite Hn.
  destruct (Router.initializeClients E st) as [[[]|e] st1] eqn:Hinit.
  2: { pose proof (initializeClients_Ok st) as (H & _). rewrite Hinit in H. discriminate. }
  rewrite (prompt_of_valid ms Hvalid). cbv zeta. simpl snd.
  set (prompt := join [newline] (contents_of ms)).
  assert (Hblank : negb (truthy (VStr prompt)) || (List.length (trim prompt) =? 0)%nat
                   = negb (nonblank prompt)).
  { unfold nonblank. destruct prompt; [reflexivity|]. simpl truthy. simpl negb.
    simpl orb. now destruct (trim (j :: prompt)). }
  rewrite Hblank. destruct (nonblank prompt); cbn [negb]; cbv beta iota; [|reflexivity].
  destruct (mockMode E); [reflexivity|].
  destruct (Router.fallback_loop E prompt n FALLBACK_MODELS st1) as [[[v|]|e] st'];
    reflexivity.
Qed.
End RouterCall.

(* ================================================================== *)
(** * What a traversal entails *)

Lemma traversal_exhausted_calls avail req verdict attempts new :
  traversal avail req verdict attempts new None ->
  map call_attempt new = filter avail attempts /\ Forall (rejected verdict) new.
Proof.
  remember None as r eqn:Hr. induction 1; try discriminate.
  - split; constructor.
  - simpl. rewrite H. now apply IHtraversal.
  - destruct (IHtraversal Hr) as [Hm Hf]. simpl. rewrite H. split.
    + simpl. congruence.
    + constructor; [now exists e|assumption].
Qed.

Lemma traversal_won avail req verdict attempts new v :
  traversal avail req verdict attempts new (Some v) ->
  exists tried a rest pre c,
    attempts = tried ++ a :: rest /\ new = pre ++ [c]
    /\ map call_attempt pre = filter avail tried
    /\ Forall (rejected verdict) pre
    /\ avail a = true /\ call_attempt c = a /\ verdict c = Ok v.
Proof.
  remember (Some v) as r eqn:Hr. induction 1; try discriminate.
  - destruct (IHtraversal Hr) as (tried & a' & rest' & pre & c & -> & -> & Hm & Hf & Hrest).
    exists (a :: tried), a', rest', pre, c. simpl. rewrite H. auto.
  - destruct (IHtraversal Hr) as (tried & a' & rest' & pre & c' & -> & -> & Hm & Hf & Hrest).
    exists (a :: tried), a', rest', (c :: pre), c'. simpl. rewrite H.
    repeat split; try tauto.
    + congruence.
    + constructor; [now exists e|assumption].
  - injection Hr as ->. exists [], a, rest, [], c. simpl. repeat split; auto.
Qed.

Lemma traversal_requests avail req verdict attempts new r :
  traversal avail req verdict attempts new r ->
  Forall (fun c => call_request c = req (call_attempt c)
                   /\ avail (call_attempt c) = true
                   /\ In (call_attempt c) attempts) new.
Proof.
  induction 1.
  - constructor.
  - eapply Forall_impl; [|eassumption]. simpl. intros c (? & ? & ?). auto.
  - constructor.
    + subst a. simpl. auto.
    + eapply Forall_impl; [|eassumption]. simpl. intros c' (? & ? & ?). auto.
  - constructor; [|constructor]. subst a. simpl. auto.
Qed.

Lemma check_positive_integer (z : Z) :
  (0 < z)%Z -> Router.check_maxTokens (vint z) = Ok (Fin (inject_Z z)).
Proof.
  intros Hz. unfold Router.check_maxTokens, vint, num_lt.
  destruct (inject_Z z ?= 1)%Q eqn:Hc; try reflexivity.
  apply Qlt_alt in Hc. unfold Qlt in Hc. simpl in Hc. lia.
Qed.

Lemma validateMessages_valid (ms : list value) :
  valid_messages ms -> Router.validateMessages (VArr ms) = Ok tt.
Proof.
  intros (Hne & Hall & _). destruct ms as [|m ms]; [congruence|].
  now apply validateEach_valid.
Qed.


(* ================================================================== *)
(** * The fallback loop of [modelRouter_optimized.js] *)

Section OptimizedFacts.
Context {W : Type} {host : Host W}.
Variable E : env.

Lemma Optimized_run_attempt_skip (prompt : jsstring) (messages : list value)
    (mt : value) (a : attempt) (st : state W) :
  available st a = false ->
  Optimized.run_attempt E prompt messages mt a st = (Ok Skipped, st).
Proof.
  unfold available, Optimized.run_attempt, Optimized.route, catch, bind.
  destruct (jseqb (provider a) (str "gemini") && gemini st); [discriminate|].
  destruct (jseqb (provider a) (str "groq") && groq st); [discriminate|].
  destruct (jseqb (provider a) (str "openai") && openai st); [discriminate|].
  destruct (jseqb (provider a) (str "ollama")); [discriminate|].
  reflexivity.
Qed.

Lemma Optimized_run_attempt_call (prompt : jsstring) (messages : list value)
    (mt : value) (a : attempt) (st : state W) :
  prompt_of messages = Ok prompt ->
  available st a = true ->
  exists c st',
    Optimized.run_attempt E prompt messages mt a st
      = (Ok (step_of (optimized_verdict c)), st')
    /\ after_call st c st'
    /\ call_attempt c = a
    /\ call_request c = optimized_request E prompt messages mt a.
Proof.
  intros Hprompt.
  destruct a as [p m].
  unfold available, Optimized.run_attempt, Optimized.route, optimized_request,
    catch, bind.
  cbv beta. cbn [provider model].
  destruct (jseqb p (str "gemini")) eqn:Hg.
  { apply jseqb_eq in Hg. subst p.
    destruct (gemini st) eqn:Hgem; [|discriminate]. intros _.
    cbv beta iota delta [andb orb].
    unfold Optimized.callGemini, Optimized.wrapping, catch, bind,
      await_generateContent, lift, ret, throw. cbv beta. cbn [provider model].
    destruct (generateContent (world st) m prompt) as [r w] eqn:Hcall.
    exists {| call_request := GenerateContent m prompt;
              call_response := GeminiResponse r |},
           (record (GenerateContent m prompt) (GeminiResponse r) w st).
    split; [|split; [apply after_record|split; reflexivity]].
    unfold optimized_verdict. simpl call_response.
    destruct r as [result|e]; simpl; [|reflexivity].
    destruct (Optimized.gemini_after result) as [v|e]; simpl; [|reflexivity].
    destruct (Optimized.validateResponse v) as [[]|e]; reflexivity. }
  cbv beta iota delta [andb orb].
  destruct (jseqb p (str "groq")) eqn:Hq.
  { apply jseqb_eq in Hq. subst p.
    destruct (groq st) eqn:Hgroq; [|discriminate]. intros _.
    cbv beta iota delta [andb orb].
    unfold Optimized.callGroq, Optimized.wrapping, catch, bind,
      await_groq, lift, ret, throw. cbv beta. cbn [provider model]. rewrite Hprompt.
    match goal with |- context [groq_create (world st) ?body] => set (b := body) end.
    destruct (groq_create (world st) b) as [r w] eqn:Hcall.
    exists {| call_request := GroqCreate b; call_response := ChatResponse r |},
           (record (GroqCreate b) (ChatResponse r) w st).
    split; [|split; [apply after_record|split; reflexivity]].
    unfold optimized_verdict. simpl call_response. simpl call_request.
    destruct r as [v|e]; simpl; [|reflexivity].
    destruct (Optimized.validateResponse v) as [[]|e]; reflexivity. }
  cbv beta iota delta [andb orb].
  destruct (jseqb p (str "openai")) eqn:Ho.
  { apply jseqb_eq in Ho. subst p.
    destruct (openai st) eqn:Hopenai; [|discriminate]. intros _.
    cbv beta iota delta [andb orb].
    unfold Optimized.callOpenAI, Optimized.wrapping, catch, bind,
      await_openai, lift, ret, throw. cbv beta. cbn [provider model].
    match goal with |- context [openai_create (world st) ?body] => set (b := body) end.
    destruct (openai_create (world st) b) as [r w] eqn:Hcall.
    exists {| call_request := OpenAICreate b; call_response := ChatResponse r |},
           (record (OpenAICreate b) (ChatResponse r) w st).
    split; [|split; [apply after_record|split; reflexivity]].
    unfold optimized_verdict. simpl call_response. simpl call_request.
    destruct r as [v|e]; simpl; [|reflexivity].
    destruct (Optimized.validateResponse v) as [[]|e]; reflexivity. }
  cbv beta iota delta [andb orb].
  destruct (jseqb p (str "ollama")) eqn:Hl; [|discriminate].
  apply jseqb_eq in Hl. subst p. intros _.
  unfold Optimized.callOllama, Optimized.wrapping, catch, bind,
    await_fetch, lift, ret, throw. cbv beta. cbn [provider model].
  match goal with |- context [fetch (world st) ?body] => set (args := body) end.
  destruct (fetch (world st) args) as [r w] eqn:Hcall.
  exists {| call_request := Fetch args; call_response := FetchResponse r |},
         (record (Fetch args) (FetchResponse r) w st).
  split; [|split; [apply after_record|split; reflexivity]].
  unfold optimized_verdict. simpl call_response.
  destruct r as [h|e]; simpl; [|reflexivity].
  destruct (Optimized.ollama_after h) as [v|e]; simpl; [|reflexivity].
  destruct (Optimized.validateResponse v) as [[]|e]; reflexivity.
Qed.

Lemma failure_of_rejected (c : call) (e : exn) :
  optimized_verdict c = Throw e ->
  failure_of c = Optimized.failure_entry (call_attempt c) e.
Proof. intros H. unfold failure_of. now rewrite H. Qed.

Lemma Optimized_loop (prompt : jsstring) (messages : list value) (mt : value)
    (attempts : list attempt) :
  prompt_of messages = Ok prompt ->
  forall failed st, exists r new st',
    Optimized.fallback_loop E prompt messages mt attempts failed st
      = (Ok (match r with
             | Some v => inl v
             | None => inr (failed ++ map failure_of new)
             end), st')
    /\ calls st' = calls st ++ new
    /\ same_clients st st'
    /\ traversal (available st) (optimized_request E prompt messages mt)
         optimized_verdict attempts new r.
Proof.
  intros Hprompt.
  induction attempts as [|a rest IH]; intros failed st.
  - exists None, [], st. simpl. unfold ret. rewrite !app_nil_r.
    split; [reflexivity|split; [reflexivity|split; [repeat split|constructor]]].
  - destruct (available st a) eqn:Hav.
    + destruct (Optimized_run_attempt_call prompt messages mt a st Hprompt Hav)
        as (c & st1 & Hrun & Hafter & Hatt & Hreq).
      destruct (optimized_verdict c) as [v|e] eqn:Hv.
      * exists (Some v), [c], st1. simpl. unfold bind. rewrite Hrun. simpl.
        destruct Hafter as (Hc & Hcl).
        split; [reflexivity|split; [assumption|split; [exact Hcl|]]].
        eapply traversal_win; eauto.
      * destruct (IH (failed ++ [Optimized.failure_entry a e]) st1)
          as (r & new & st' & Hloop & Hcalls & Hcl & Htr).
        exists r, (c :: new), st'. simpl. unfold bind. rewrite Hrun. simpl.
        rewrite Hloop.
        pose proof Hafter as (Hc & Hg & Hq & Ho & Hi).
        destruct Hcl as (Hg' & Hq' & Ho' & Hi').
        split; [|split; [|split; [repeat split; congruence|]]].
        -- destruct r; [reflexivity|].
           rewrite (failure_of_rejected c e Hv), Hatt, <- app_assoc. reflexivity.
        -- rewrite Hcalls, Hc, <- app_assoc. reflexivity.
        -- eapply traversal_fail; eauto.
           eapply traversal_ext; [|exact Htr].
           intros a'. symmetry. eapply available_after; eauto.
    + destruct (IH failed st) as (r & new & st' & Hloop & Hcalls & Hcl & Htr).
      exists r, new, st'. simpl. unfold bind.
      rewrite (Optimized_run_attempt_skip prompt messages mt a st Hav).
      split; [exact Hloop|split; [assumption|split; [assumption|]]].
      now apply traversal_skip.
Qed.
End OptimizedFacts.

(* ================================================================== *)
(** * Whole runs of [callModel] *)

Section Runs.
Context {W : Type} {host : Host W}.
Variable E : env.

Lemma same_clients_available (st st' : state W) (a : attempt) :
  same_clients st st' -> available st' a = available st a.
Proof.
  intros (Hg & Hq & Ho & _). unfold available. now rewrite Hg, Hq, Ho.
Qed.

(** Every run of [Router.callModel]: either no call is issued (the input is
    rejected, the prompt is blank, or mock mode is on), or the calls are a
    traversal of [FALLBACK_MODELS]. *)
Lemma Router_callModel_calls (modelName messages maxTokens : value)
    (st : state W) :
  let run := Router.callModel E modelName messages maxTokens st in
  exists new,
    calls (snd run) = calls st ++ new
    /\ ((new = [] /\ world (snd run) = world st
         /\ (result_of (fst run) = None \/ mockMode E = true))
        \/ (exists prompt n,
              Router.check_maxTokens (or_default maxTokens) = Ok n
              /\ mockMode E = false
              /\ traversal (available (snd run)) (router_request E prompt n)
                   router_verdict FALLBACK_MODELS new (result_of (fst run))
              /\ (result_of (fst run) = None ->
                  fst run = Throw (Error Router.all_failed)))).
Proof.
  intros run. subst run.
  destruct (Router.validateMessages messages) as [[]|e] eqn:Hm.
  2: { rewrite (Router_rejects_messages E modelName messages maxTokens st e Hm).
       exists []. simpl. rewrite app_nil_r. split; [try reflexivity; try assumption|left; repeat split; auto]. }
  destruct (Router.check_maxTokens (or_default maxTokens)) as [n|e] eqn:Hn.
  2: { rewrite (Router_rejects_maxTokens E modelName messages maxTokens st e Hm Hn).
       exists []. simpl. rewrite app_nil_r. split; [try reflexivity; try assumption|left; repeat split; auto]. }
  assert (Harr : exists ms, messages = VArr ms).
  { destruct messages; try discriminate Hm. eauto. }
  destruct Harr as [ms ->].
  rewrite (Router_callModel_valid E modelName maxTokens ms n st Hm Hn). cbv zeta.
  destruct (initializeClients_Ok E st) as (_ & Hc1 & Hw1).
  set (st1 := snd (Router.initializeClients E st)) in *.
  set (prompt := join [newline] (contents_of ms)).
  destruct (nonblank prompt).
  2: { exists []. simpl. rewrite app_nil_r. split; [try reflexivity; try assumption|left; repeat split; auto]. }
  destruct (mockMode E) eqn:Hmock.
  { exists []. simpl. rewrite app_nil_r. split; [try reflexivity; try assumption|left; repeat split; auto]. }
  destruct (Router_loop E prompt n FALLBACK_MODELS st1)
    as (r & new & st' & Hloop & Hcalls & Hcl & Htr).
  rewrite Hloop. exists new.
  assert (Htr' : traversal (available st') (router_request E prompt n)
                   router_verdict FALLBACK_MODELS new r).
  { eapply traversal_ext; [|exact Htr]. intros a.
    now apply same_clients_available. }
  destruct r as [v|]; simpl.
  - split; [congruence|]. right. exists prompt, n. repeat split; auto.
    discriminate.
  - split; [congruence|]. right. exists prompt, n. repeat split; auto.
Qed.

Lemma Optimized_init_calls (st : state W) :
  calls (snd (Optimized.initializeClients E st)) = calls st
  /\ world (snd (Optimized.initializeClients E st)) = world st.
Proof.
  unfold Optimized.initializeClients.
  destruct (Optimized.init_client Gemini _ _); [|split; reflexivity].
  destruct (Optimized.init_client Groq _ _); [|split; reflexivity].
  destruct (Optimized.init_client OpenAI _ _); split; reflexivity.
Qed.

(** Every run of [Optimized.callModel], likewise; when the traversal is
    exhausted the error lists the rejected calls. *)
Lemma Optimized_callModel_calls (modelName messages maxTokens : value)
    (st : state W) :
  let run := Optimized.callModel E modelName messages maxTokens st in
  exists new,
    calls (snd run) = calls st ++ new
    /\ ((new = [] /\ world (snd run) = world st
         /\ (result_of (fst run) = None \/ mockMode E = true))
        \/ (exists prompt ms,
              messages = VArr ms
              /\ prompt_of ms = Ok prompt
              /\ mockMode E = false
              /\ traversal (available (snd run))
                   (optimized_request E prompt ms (or_default maxTokens))
                   optimized_verdict FALLBACK_MODELS new (result_of (fst run))
              /\ (result_of (fst run) = None ->
                  fst run = Throw (Error (Optimized.errorMsg (map failure_of new)))))).
Proof.
  intros run. subst run. unfold Optimized.callModel.
  fold (or_default maxTokens).
  assert (Hbad : forall e : exn, exists new : list call,
            calls (snd (@throw W value e st)) = calls st ++ new
            /\ ((new = [] /\ world (snd (@throw W value e st)) = world st
                 /\ (result_of (fst (@throw W value e st)) = None \/ mockMode E = true))
                \/ False)).
  { intros e. exists []. simpl. rewrite app_nil_r. split; [try reflexivity; try assumption|left; repeat split; auto]. }
  destruct messages as [| | | | |ms|];
    try (destruct (Hbad (Error (str "Invalid messages array: must be non-empty array")))
           as (new & Hc & [H|[]]); exists new; split; [exact Hc|left; exact H]).
  destruct ms as [|m ms];
    try (destruct (Hbad (Error (str "Invalid messages array: must be non-empty array")))
           as (new & Hc & [H|[]]); exists new; split; [exact Hc|left; exact H]).
  unfold bind, lift, ret, throw.
  destruct (Optimized_init_calls st) as (Hc1 & Hw1).
  destruct (Optimized.initializeClients E st) as [[[]|e] st1] eqn:Hinit;
    simpl snd in Hc1, Hw1.
  2: { exists []. simpl. rewrite app_nil_r. split; [try reflexivity; try assumption|left; repeat split; auto]. }
  destruct (prompt_of (m :: ms)) as [prompt|e] eqn:Hprompt.
  2: { exists []. simpl. rewrite app_nil_r. split; [try reflexivity; try assumption|left; repeat split; auto]. }
  destruct (negb (truthy (VStr prompt)) || (List.length (trim prompt) =? 0)%nat).
  { exists []. simpl. rewrite app_nil_r. split; [try reflexivity; try assumption|left; repeat split; auto]. }
  destruct (mockMode E) eqn:Hmock.
  { exists []. simpl. rewrite app_nil_r. split; [try reflexivity; try assumption|left; repeat split; auto]. }
  destruct (Optimized_loop E prompt (m :: ms) (or_default maxTokens)
              FALLBACK_MODELS Hprompt [] st1)
    as (r & new & st' & Hloop & Hcalls & Hcl & Htr).
  rewrite Hloop. exists new.
  assert (Htr' : traversal (available st')
                   (optimized_request E prompt (m :: ms) (or_default maxTokens))
                   optimized_verdict FALLBACK_MODELS new r).
  { eapply traversal_ext; [|exact Htr]. intros a.
    now apply same_clients_available. }
  destruct r as [v|]; simpl.
  - split; [congruence|]. right. exists prompt, (m :: ms). repeat split; auto.
    discriminate.
  - split; [congruence|]. right. exists prompt, (m :: ms). repeat split; auto.
Qed.
End Runs.

(* ================================================================== *)
(** * The router claims *)

Lemma Math_min_within (n : number) :
  num_lt (Fin 2000) n = false -> Math_min n (Fin 2000) = n.
Proof.
  intros H. unfold Math_min. destruct n as [|neg|q]; try reflexivity.
  - now rewrite H.
  - now rewrite H.
Qed.

Lemma validateMessages_well_formed (messages : value) :
  Router.validateMessages messages = Ok tt <-> well_formed_messages messages.
Proof.
  unfold well_formed_messages. split.
  - intros H. destruct messages as [| | | | |ms|]; try discriminate H.
    destruct ms as [|m ms]; [discriminate H|].
    exists (m :: ms). split; [reflexivity|split; [discriminate|]].
    now apply validateEach_valid.
  - intros (ms & -> & Hne & Hall). destruct ms as [|m ms]; [congruence|].
    now apply validateEach_valid.
Qed.

Lemma blank_check (prompt : jsstring) :
  negb (truthy (VStr prompt)) || (List.length (trim prompt) =? 0)%nat
  = negb (nonblank prompt).
Proof.
  unfold nonblank. destruct prompt as [|c prompt]; [reflexivity|].
  simpl truthy. simpl negb. simpl orb. now destruct (trim (c :: prompt)).
Qed.

Lemma valid_messages_prompt (ms : list value) :
  valid_messages ms ->
  Router.validateMessages (VArr ms) = Ok tt
  /\ nonblank (join [newline] (contents_of ms)) = true.
Proof.
  intros H. split; [now apply validateMessages_valid|apply H].
Qed.

Lemma hello_is_valid : valid_messages hello_messages.
Proof.
  split; [discriminate|]. split; [|reflexivity].
  constructor; [|constructor].
  split; [reflexivity|]. split; [reflexivity|].
  exists (str "hello"). split; [reflexivity|]. split; [discriminate|].
  vm_compute. discriminate.
Qed.

(* ================================================================== *)
(** * Responses that validate *)

Lemma chat_response_completion (s : jsstring) :
  nonblank s = true -> completion (chat_response (VStr s)).
Proof.
  intros H. exists s. split; [|assumption].
  exists (obj [("message", obj [("content", VStr s)])]), [],
         (obj [("content", VStr s)]).
  repeat split.
Qed.

Lemma completion_get (v : value) :
  completion v ->
  exists c0 rest m s,
    v <> VUndefined /\ v <> VNull /\ truthy v = true
    /\ get v "choices" = Ok (VArr (c0 :: rest))
    /\ get_opt c0 "message" = Ok m /\ get c0 "message" = Ok m
    /\ get_opt m "content" = Ok (VStr s) /\ get m "content" = Ok (VStr s)
    /\ truthy m = true
    /\ nonblank s = true.
Proof.
  intros (s & (c0 & rest & m & Hc & Hm & Hs) & Hnb).
  exists c0, rest, m, s.
  assert (Hv : exists props, v = VObj props).
  { destruct v; try discriminate Hc. eauto. }
  destruct Hv as [props ->].
  assert (Hm' : exists mp, m = VObj mp).
  { destruct m; try discriminate Hs. eauto. }
  destruct Hm' as [mp ->].
  assert (Hc0 : exists cp, c0 = VObj cp).
  { destruct c0; try discriminate Hm. eauto. }
  destruct Hc0 as [cp ->].
  repeat split; try discriminate; auto.
Qed.

(** What [validateResponse] of [modelRouter.js] accepts. *)
Lemma Router_validateResponse_accepts (v : value) (p : string) :
  Router.validateResponse v p = Ok true <-> completion v.
Proof.
  split.
  - unfold Router.validateResponse.
    destruct (truthy v) eqn:Htr; simpl; [|discriminate].
    destruct (get v "choices") as [ch|e] eqn:Hch; simpl; [|discriminate].
    destruct ch as [| | | | |[|c0 rest]|]; simpl; try discriminate.
    destruct (get_opt c0 "message") as [m|e] eqn:Hm; simpl; [|discriminate].
    destruct (get_opt m "content") as [c|e] eqn:Hc; simpl; [|discriminate].
    destruct c as [| | | |s| |]; simpl; try discriminate.
    destruct s as [|x s]; simpl; [discriminate|].
    destruct (nonblank (x :: s)) eqn:Hnb; simpl; [|discriminate].
    intros _. exists (x :: s). split; [|assumption].
    exists c0, rest, m. split; [assumption|].
    destruct m; try discriminate Hc;
      destruct c0; try discriminate Hm; auto.
  - intros H. destruct (completion_get v H)
      as (c0 & rest & m & s & _ & _ & Htr & Hch & Hm & _ & Hs & _ & _ & Hnb).
    unfold Router.validateResponse. rewrite Htr, Hch. simpl.
    rewrite Hm. simpl. rewrite Hs. simpl. rewrite Hnb.
    destruct s; [discriminate Hnb|]. reflexivity.
Qed.

Lemma nonblank_trim_length (s : jsstring) :
  negb (List.length (trim s) =? 0)%nat = nonblank s.
Proof. unfold nonblank. now destruct (trim s). Qed.

(** What [validateResponse] of [modelRouter_optimized.js] accepts. *)
Lemma Optimized_validateResponse_accepts (v : value) :
  Optimized.validateResponse v = Ok true <-> completion v.
Proof.
  split.
  - unfold Optimized.validateResponse.
    destruct (truthy v) eqn:Htr; simpl; [|discriminate].
    destruct (get v "choices") as [ch|e] eqn:Hch; simpl; [|discriminate].
    destruct ch as [| | | | |[|c0 rest]|]; simpl; try discriminate.
    destruct (get c0 "message") as [m|e] eqn:Hm; simpl; [|discriminate].
    destruct (truthy m) eqn:Htm; simpl; [|discriminate].
    destruct (get m "content") as [c|e] eqn:Hc; simpl; [|discriminate].
    destruct (truthy c) eqn:Htc; simpl; [|discriminate].
    destruct c as [| | | |s| |]; simpl; try discriminate.
    rewrite nonblank_trim_length. intros H. injection H as H.
    exists s. split; [|assumption]. now exists c0, rest, m.
  - intros H. destruct (completion_get v H)
      as (c0 & rest & m & s & _ & _ & Htr & Hch & _ & Hm & _ & Hs & Htm & Hnb).
    unfold Optimized.validateResponse. rewrite Htr, Hch. simpl.
    rewrite Hm. simpl. rewrite Htm. simpl. rewrite Hs. simpl.
    destruct s; [discriminate Hnb|]. simpl truthy. cbv iota. simpl negb. cbv iota.
    now rewrite nonblank_trim_length, Hnb.
Qed.


Lemma content_of_chat_response (t : value) (s : jsstring) :
  content_of (chat_response t) s <-> t = VStr s.
Proof.
  split.
  - intros (c0 & rest & m & Hc & Hm & Hs).
    injection Hc as <- <-. injection Hm as <-. now injection Hs.
  - intros ->.
    exists (obj [("message", obj [("content", VStr s)])]), [],
           (obj [("content", VStr s)]).
    repeat split.
Qed.

Lemma content_of_unique (v : value) (s s' : jsstring) :
  content_of v s -> content_of v s' -> s = s'.
Proof.
  intros (c0 & rest & m & Hc & Hm & Hs) (c0' & rest' & m' & Hc' & Hm' & Hs').
  rewrite Hc in Hc'. injection Hc' as <- <-.
  rewrite Hm in Hm'. injection Hm' as <-.
  rewrite Hs in Hs'. now injection Hs'.
Qed.

Lemma get_opt_string (v : value) (k : string) (s : jsstring) :
  get_opt v k = Ok (VStr s) <-> get v k = Ok (VStr s).
Proof. destruct v; simpl; split; intros H; try discriminate H; exact H. Qed.

(** What [modelRouter.js] returns from a call is the content the provider
    answered with, and that content is not blank. *)
Lemma router_verdict_content (c : call) (v : value) :
  router_verdict c = Ok v ->
  exists s, carries_content c s /\ nonblank s = true /\ content_of v s.
Proof.
  unfold router_verdict, carries_content.
  destruct (call_response c) as [r|r|r].
  - destruct r as [result|e]; simpl; [|discriminate].
    unfold Router.gemini_after.
    destruct result as [w|w|t]; try discriminate.
    destruct t as [text|e]; simpl; [|discriminate].
    destruct (truthy text); simpl; [|discriminate].
    destruct text as [| | | |s| |]; try discriminate.
    destruct (nonblank s) eqn:Hnb; [|discriminate].
    intros H. injection H as <-. exists s.
    split; [reflexivity|]. split; [exact Hnb|]. now apply content_of_chat_response.
  - assert (H : forall p,
              (v0 <- r ;; _ <- Router.validateResponse v0 p ;; Ok v0)%res = Ok v ->
              exists s, (exists v1, r = Ok v1 /\ content_of v1 s)
                        /\ nonblank s = true /\ content_of v s).
    { intros p. destruct r as [v0|e]; simpl; [|discriminate].
      destruct (Router.validateResponse v0 p) as [b|e] eqn:Hv; simpl;
        [|discriminate].
      intros H. injection H as <-.
      assert (Hb : b = true).
      { unfold Router.validateResponse in Hv.
        destruct (negb (truthy v0)); [discriminate|].
        destruct (get v0 "choices"); simpl in Hv; [|discriminate].
        match type of Hv with
        | (rbind ?X _) = _ => destruct X as [[]|]; simpl in Hv
        end; [now injection Hv|discriminate|discriminate]. }
      subst b. apply Router_validateResponse_accepts in Hv.
      destruct Hv as (s & Hs & Hnb). exists s. eauto. }
    destruct (call_request c); apply H.
  - destruct r as [h|e]; simpl; [|discriminate].
    unfold Router.fetch_then.
    destruct (ok h) eqn:Hok; simpl; [|discriminate].
    destruct (json h) as [data|e] eqn:Hjson; simpl; [|discriminate].
    unfold Router.ollama_after.
    destruct (get_opt data "response") as [rs|e] eqn:Hrs; simpl; [|discriminate].
    destruct (negb (truthy rs) || negb (is_string rs)); [discriminate|].
    destruct rs as [| | | |s| |]; try discriminate.
    destruct (List.length (trim s) =? 0)%nat eqn:Hlen; [discriminate|].
    intros H. injection H as <-. exists s. split; [|split].
    + exists h, data. split; [reflexivity|]. split; [exact Hok|].
      split; [exact Hjson|]. now apply get_opt_string.
    + rewrite <- nonblank_trim_length, Hlen. reflexivity.
    + now apply content_of_chat_response.
Qed.

Lemma nonblank_truthy (s : jsstring) : nonblank s = true -> truthy (VStr s) = true.
Proof. destruct s; [discriminate|reflexivity]. Qed.

(** And [modelRouter.js] returns from every call whose response has content
    that is not blank. *)
Lemma router_accepts_content (c : call) (s : jsstring) :
  carries_content c s -> nonblank s = true ->
  exists v, router_verdict c = Ok v.
Proof.
  unfold router_verdict, carries_content. intros Hc Hnb.
  destruct (call_response c) as [r|r|r].
  - subst r. cbn [rbind]. unfold Router.gemini_after. cbn [rbind].
    rewrite (nonblank_truthy s Hnb). cbn [negb]. rewrite Hnb. eauto.
  - destruct Hc as (v & -> & Hv).
    assert (Hacc : forall p, Router.validateResponse v p = Ok true).
    { intros p. apply Router_validateResponse_accepts. now exists s. }
    exists v. destruct (call_request c); simpl; now rewrite Hacc.
  - destruct Hc as (h & data & -> & Hok & Hjson & Hget). cbn [rbind].
    unfold Router.fetch_then. rewrite Hok, Hjson. cbn [negb rbind].
    unfold Router.ollama_after.
    rewrite (proj2 (get_opt_string data "response" s) Hget). cbn [rbind].
    rewrite (nonblank_truthy s Hnb). cbn [negb orb is_string typeof].
    rewrite <- nonblank_trim_length in Hnb.
    destruct (List.length (trim s) =? 0)%nat; [discriminate|]. eauto.
Qed.

Lemma rewrap_Ok (label : string) {A} (r : res A) (a : A) :
  rewrap label r = Ok a <-> r = Ok a.
Proof. destruct r; simpl; split; intros H; try discriminate H; exact H. Qed.

(** The same of [modelRouter_optimized.js]. *)
Lemma optimized_verdict_content (c : call) (v : value) :
  optimized_verdict c = Ok v ->
  exists s, carries_content c s /\ nonblank s = true /\ content_of v s.
Proof.
  unfold optimized_verdict.
  match goal with |- (rbind ?X _) = _ -> _ => destruct X as [response|e] eqn:Hresp end;
    simpl; [|discriminate].
  destruct (Optimized.validateResponse response) as [[]|e] eqn:Hv; simpl;
    try discriminate.
  intros H. injection H as <-.
  apply Optimized_validateResponse_accepts in Hv. destruct Hv as (s & Hs & Hnb).
  exists s. split; [|split; assumption].
  unfold carries_content.
  destruct (call_response c) as [r|r|r].
  - apply rewrap_Ok in Hresp. destruct r as [result|e]; [|discriminate].
    simpl in Hresp. destruct result as [w|w|t]; try discriminate.
    destruct t as [text|e]; [|discriminate]. simpl in Hresp.
    injection Hresp as <-. apply content_of_chat_response in Hs. now subst.
  - assert (Hr : r = Ok response).
    { destruct (call_request c); now apply rewrap_Ok in Hresp. }
    exists response. split; assumption.
  - apply rewrap_Ok in Hresp. destruct r as [h|e]; [|discriminate].
    simpl in Hresp. unfold Optimized.ollama_after in Hresp.
    destruct (ok h) eqn:Hok; simpl in Hresp; [|discriminate].
    destruct (json h) as [data|e] eqn:Hjson; simpl in Hresp; [|discriminate].
    destruct (get data "response") as [rs|e] eqn:Hrs; simpl in Hresp;
      [|discriminate].
    injection Hresp as <-. apply content_of_chat_response in Hs.
    exists h, data. split; [reflexivity|]. split; [exact Hok|].
    split; [exact Hjson|]. rewrite Hrs.
    destruct (truthy rs); [now subst|].
    injection Hs as <-. discriminate Hnb.
Qed.

Lemma optimized_accepts_content (c : call) (s : jsstring) :
  carries_content c s -> nonblank s = true ->
  exists v, optimized_verdict c = Ok v.
Proof.
  unfold optimized_verdict, carries_content. intros Hc Hnb.
  assert (Hacc : forall v, content_of v s -> Optimized.validateResponse v = Ok true).
  { intros v Hv. apply Optimized_validateResponse_accepts. now exists s. }
  destruct (call_response c) as [r|r|r].
  - subst r. cbn [rbind Optimized.gemini_after rewrap].
    rewrite (Hacc (chat_response (VStr s)))
      by now apply content_of_chat_response.
    cbn [rbind]. eauto.
  - destruct Hc as (v & -> & Hv). exists v.
    destruct (call_request c); simpl; now rewrite (Hacc v Hv).
  - destruct Hc as (h & data & -> & Hok & Hjson & Hget). cbn [rbind rewrap].
    unfold Optimized.ollama_after. rewrite Hok, Hjson. cbn [negb rbind].
    rewrite Hget. cbn [rbind].
    rewrite (nonblank_truthy s Hnb). cbn [rewrap rbind].
    rewrite (Hacc (chat_response (VStr s)))
      by now apply content_of_chat_response.
    cbn [rbind]. eauto.
Qed.

(** A verdict is a value or an error. *)
Lemma not_validates_rejected (verdict : call -> res value) (c : call) :
  (forall v, verdict c = Ok v -> validates c) ->
  ~ validates c -> rejected verdict c.
Proof.
  intros H Hn. unfold rejected. destruct (verdict c) as [v|e] eqn:Hv; [|eauto].
  destruct Hn. now apply (H v).
Qed.

(* ================================================================== *)
(** * The routers: budgets, order of the attempts, mock mode *)

Section Claims.
Context {W : Type} {host : Host W}.
Variable E : env.

(** What [callModel] of [modelRouter.js] does reject: messages that are not
    a non-empty array of valid messages, a [maxTokens] that is not of type
    number, and a number below 1. The call fails before the clients are
    even initialized: the state, and so the list of calls, is unchanged. *)
Lemma invalid_input_rejected (modelName messages maxTokens : value)
    (st : state W) :
  ~ well_formed_messages messages
  \/ is_number (or_default maxTokens) = false
  \/ (exists n, or_default maxTokens = VNum n /\ num_lt n (Fin 1) = true) ->
  exists e, Router.callModel E modelName messages maxTokens st = (Throw e, st).
Proof.
  intros H.
  destruct (Router.validateMessages messages) as [[]|e] eqn:Hm.
  2: { exists e. now apply Router_rejects_messages. }
  destruct H as [H|H]; [now apply validateMessages_well_formed in Hm|].
  assert (Hn : exists e, Router.check_maxTokens (or_default maxTokens) = Throw e).
  { unfold Router.check_maxTokens.
    destruct H as [H|(n & -> & Hlt)].
    - destruct (or_default maxTokens); try discriminate H; eauto.
    - rewrite Hlt. eauto. }
  destruct Hn as [e Hn]. exists e. now apply Router_rejects_maxTokens.
Qed.

(** The requests of [callModel] of [modelRouter.js], for every run: those to
    Groq and OpenAI carry [max_tokens = Math.min(maxTokens, 2000)], which is
    the caller's budget itself unless that is above 2000; those to Gemini
    and Ollama are built from the model of the entry and the prompt alone. *)
Lemma provider_budgets (modelName messages maxTokens : value) (st : state W) :
  let run := Router.callModel E modelName messages maxTokens st in
  exists new,
    calls (snd run) = calls st ++ new
    /\ forall c, In c new ->
         exists prompt n,
           Router.check_maxTokens (or_default maxTokens) = Ok n
           /\ call_request c = router_request E prompt n (call_attempt c)
           /\ match call_request c with
              | GroqCreate b | OpenAICreate b =>
                  budget (call_request c) = Some (Math_min n (Fin 2000))
                  /\ (num_lt (Fin 2000) n = false -> max_tokens b = n)
              | GenerateContent m p =>
                  budget (call_request c) = None
                  /\ m = model (call_attempt c) /\ p = prompt
              | Fetch a =>
                  budget (call_request c) = None
                  /\ a = Router.ollama_request E (call_attempt c) prompt
              end.
Proof.
  intros run.
  destruct (Router_callModel_calls E modelName messages maxTokens st)
    as (new & Hcalls & [(-> & _)|(prompt & n & Hn & _ & Htr & _)]).
  - exists []. split; [assumption|contradiction].
  - exists new. split; [assumption|]. intros c Hin.
    apply traversal_requests in Htr. rewrite Forall_forall in Htr.
    destruct (Htr c Hin) as (Hreq & _ & _).
    exists prompt, n. split; [assumption|split; [assumption|]].
    destruct c as [rq rs]. simpl in *. unfold call_attempt in Hreq.
    simpl in Hreq. unfold call_attempt. simpl.
    destruct rq as [m p|b|b|a]; unfold router_request in Hreq; simpl in Hreq.
    + injection Hreq as ->. auto.
    + injection Hreq as ->. simpl. split; [reflexivity|apply Math_min_within].
    + injection Hreq as ->. simpl. split; [reflexivity|apply Math_min_within].
    + injection Hreq as ->. auto.
Qed.

(** C4: outside mock mode, once the input has passed the checks before the
    loop, the calls a run of [callModel] issues are a traversal of
    [FALLBACK_MODELS], in both router files: the entries are taken in the
    order of the list, an entry without a client is passed over without a
    call, every other entry gets exactly one call as long as nothing has
    succeeded, the first call whose response validates ends the run with that
    response, and no entry after it is called. [traversal_won] and
    [traversal_exhausted_calls] spell out what a traversal entails. A
    response validates when it has content that is not empty after trimming:
    in both files a call ends the run exactly when its response validates,
    the value returned then carries that content, and a call whose response
    does not validate is rejected, so that the loop goes on to the next
    entry. *)
Theorem fallback_in_order_first_success (modelName maxTokens : value)
    (ms : list value) (st : state W) :
  mockMode E = false ->
  (forall n,
     valid_messages ms ->
     Router.check_maxTokens (or_default maxTokens) = Ok n ->
     let run := Router.callModel E modelName (VArr ms) maxTokens st in
     exists new,
       calls (snd run) = calls st ++ new
       /\ traversal (available (snd run))
            (router_request E (join [newline] (contents_of ms)) n)
            router_verdict FALLBACK_MODELS new (result_of (fst run)))
  /\
  (forall prompt,
     ms <> [] ->
     fst (Optimized.initializeClients E st) = Ok tt ->
     prompt_of ms = Ok prompt ->
     nonblank prompt = true ->
     let run := Optimized.callModel E modelName (VArr ms) maxTokens st in
     exists new,
       calls (snd run) = calls st ++ new
       /\ traversal (available (snd run))
            (optimized_request E prompt ms (or_default maxTokens))
            optimized_verdict FALLBACK_MODELS new (result_of (fst run)))
  /\
  (forall c,
     (validates c <-> exists v, router_verdict c = Ok v)
     /\ (validates c <-> exists v, optimized_verdict c = Ok v)
     /\ (~ validates c ->
         rejected router_verdict c /\ rejected optimized_verdict c)
     /\ (forall v,
           router_verdict c = Ok v \/ optimized_verdict c = Ok v ->
           exists s, carries_content c s /\ nonblank s = true
                     /\ content_of v s)).
Proof.
  intros Hmock. split; [|split].
  - intros n Hvalid Hn run. subst run.
    destruct (valid_messages_prompt ms Hvalid) as [Hm Hnb].
    rewrite (Router_callModel_valid E modelName maxTokens ms n st Hm Hn).
    cbv zeta. rewrite Hnb, Hmock.
    destruct (initializeClients_Ok E st) as (_ & Hc1 & _).
    set (st1 := snd (Router.initializeClients E st)) in *.
    destruct (Router_loop E (join [newline] (contents_of ms)) n FALLBACK_MODELS st1)
      as (r & new & st' & Hloop & Hcalls & Hcl & Htr).
    rewrite Hloop. exists new.
    assert (Htr' : traversal (available st')
                     (router_request E (join [newline] (contents_of ms)) n)
                     router_verdict FALLBACK_MODELS new r).
    { eapply traversal_ext; [|exact Htr]. intros a.
      now apply same_clients_available. }
    destruct r as [v|]; simpl; (split; [congruence|exact Htr']).
  - intros prompt Hne Hinit Hprompt Hnb run. subst run.
    destruct ms as [|m ms]; [congruence|].
    unfold Optimized.callModel. fold (or_default maxTokens).
    unfold bind, lift, ret, throw.
    destruct (Optimized_init_calls E st) as (Hc1 & _).
    destruct (Optimized.initializeClients E st) as [[[]|e] st1];
      simpl in Hinit, Hc1; [|discriminate].
    rewrite Hprompt, blank_check, Hnb, Hmock. cbn [negb]. cbv beta iota.
    destruct (Optimized_loop E prompt (m :: ms) (or_default maxTokens)
                FALLBACK_MODELS Hprompt [] st1)
      as (r & new & st' & Hloop & Hcalls & Hcl & Htr).
    rewrite Hloop. exists new.
    assert (Htr' : traversal (available st')
                     (optimized_request E prompt (m :: ms) (or_default maxTokens))
                     optimized_verdict FALLBACK_MODELS new r).
    { eapply traversal_ext; [|exact Htr]. intros a.
      now apply same_clients_available. }
    destruct r as [v|]; simpl; (split; [congruence|exact Htr']).
  - intros c.
    assert (HR : forall v, router_verdict c = Ok v -> validates c).
    { intros v Hv. destruct (router_verdict_content c v Hv) as (s & Hs & Hnb & _).
      now exists s. }
    assert (HO : forall v, optimized_verdict c = Ok v -> validates c).
    { intros v Hv. destruct (optimized_verdict_content c v Hv) as (s & Hs & Hnb & _).
      now exists s. }
    split; [|split; [|split]].
    + split.
      * intros (s & Hs & Hnb). now apply (router_accepts_content c s).
      * intros (v & Hv). now apply (HR v).
    + split.
      * intros (s & Hs & Hnb). now apply (optimized_accepts_content c s).
      * intros (v & Hv). now apply (HO v).
    + intros Hn. split; now apply not_validates_rejected.
    + intros v [Hv|Hv];
        [now apply router_verdict_content|now apply optimized_verdict_content].
Qed.

(** In [modelRouter_optimized.js] the aggregate error does what C1 says: a
    run that issued calls and failed throws the message built from
    [failedAttempts], which has one entry, with provider, model and reason,
    for each call, and the calls are those of the entries that have a
    client, in order; an entry without one has no entry. *)
Lemma optimized_aggregate_enumerates (modelName messages maxTokens : value)
    (st : state W) (e : exn) (new : list call) :
  let run := Optimized.callModel E modelName messages maxTokens st in
  fst run = Throw e ->
  calls (snd run) = calls st ++ new ->
  new <> [] ->
  e = Error (Optimized.errorMsg (map failure_of new))
  /\ map call_attempt new = filter (available (snd run)) FALLBACK_MODELS
  /\ Forall (rejected optimized_verdict) new.
Proof.
  intros run He Hnew Hne.
  destruct (Optimized_callModel_calls E modelName messages maxTokens st)
    as (new' & Hcalls & Hcases).
  fold run in Hcalls, Hcases.
  assert (new' = new) as ->.
  { rewrite Hnew in Hcalls. now apply app_inv_head in Hcalls. }
  destruct Hcases as [(-> & _)|(prompt & ms & _ & _ & _ & Htr & Hmsg)];
    [congruence|].
  rewrite He in Htr, Hmsg. simpl in Htr, Hmsg.
  specialize (Hmsg eq_refl). injection Hmsg as ->.
  apply traversal_exhausted_calls in Htr. tauto.
Qed.

(** In [modelRouter.js] it does not: whatever calls were issued and however
    they failed, the error of a run that issued calls and failed is the one
    fixed message. *)
Lemma router_aggregate_is_constant (modelName messages maxTokens : value)
    (st : state W) (e : exn) (new : list call) :
  let run := Router.callModel E modelName messages maxTokens st in
  fst run = Throw e ->
  calls (snd run) = calls st ++ new ->
  new <> [] ->
  e = Error Router.all_failed.
Proof.
  intros run He Hnew Hne.
  destruct (Router_callModel_calls E modelName messages maxTokens st)
    as (new' & Hcalls & Hcases).
  fold run in Hcalls, Hcases.
  assert (new' = new) as ->.
  { rewrite Hnew in Hcalls. now apply app_inv_head in Hcalls. }
  destruct Hcases as [(-> & _)|(prompt & n & _ & _ & _ & Hmsg)];
    [congruence|].
  rewrite He in Hmsg. simpl in Hmsg. specialize (Hmsg eq_refl). congruence.
Qed.

(** C9: mock mode. With the mock flag set, [callModel] of [modelRouter.js]
    returns the fixed placeholder for every valid request (a non-empty
    sequence of messages with non-empty string contents of at most 100000
    characters whose text is not blank, and a positive integer budget) and
    issues no call: the list of calls and the world are as before. The
    placeholder is [{ choices: [{ message: { content: "Mock response
    (MOCK_MODE=true)" } }] }], the same for every request, and it is a
    generation result: its content, read as the callers read it, is that
    text, which is not empty after trimming. *)
Theorem mock_mode_short_circuits (modelName : value) (ms : list value) (z : Z)
    (st : state W) :
  mockMode E = true ->
  valid_messages ms ->
  (0 < z)%Z ->
  let run := Router.callModel E modelName (VArr ms) (vint z) st in
  fst run = Ok Router.mock_response
  /\ Router.mock_response = chat_response (vstr "Mock response (MOCK_MODE=true)")
  /\ content_of Router.mock_response (str "Mock response (MOCK_MODE=true)")
  /\ completion Router.mock_response
  /\ calls (snd run) = calls st
  /\ world (snd run) = world st.
Proof.
  intros Hmock Hvalid Hz run. subst run.
  assert (Hcontent : content_of Router.mock_response
                       (str "Mock response (MOCK_MODE=true)")).
  { now apply content_of_chat_response. }
  assert (Hresult : completion Router.mock_response).
  { exists (str "Mock response (MOCK_MODE=true)").
    split; [exact Hcontent|reflexivity]. }
  assert (Hdef : or_default (vint z) = vint z) by reflexivity.
  rewrite (Router_callModel_valid E modelName (vint z) ms (Fin (inject_Z z)) st
             (validateMessages_valid ms Hvalid)
             (eq_trans (f_equal Router.check_maxTokens Hdef)
                       (check_positive_integer z Hz))).
  cbv zeta. destruct Hvalid as (_ & _ & ->). rewrite Hmock. simpl fst. simpl snd.
  destruct (initializeClients_Ok E st) as (_ & Hc & Hw).
  split; [reflexivity|]. split; [reflexivity|]. split; [exact Hcontent|].
  split; [exact Hresult|]. split; [exact Hc|exact Hw].
Qed.
End Claims.

(** C2 fails on the Gemini and Ollama calls. With all clients present and
    Gemini answering, the one call of [callModel("x", hello, 5000)] is
    [generateContent("hello")] on [gemini-2.0-flash]: it carries no token
    budget, clamped or not, and it is the same call when the budget is 1.
    With every provider failing, the two Gemini calls and the Ollama call
    carry none either, whatever the budget, while the Groq and OpenAI calls
    of the same runs carry [Math.min(maxTokens, 2000)]. The sibling
    [modelRouter_optimized.js] drops the budget for the same two
    backends. *)
Theorem budget_not_passed_to_gemini_and_ollama :
  map call_request (calls (snd (router_run host_gemini_up env_all_keys (vint 5000))))
    = [GenerateContent (str "gemini-2.0-flash") (str "hello")]
  /\ map call_request (calls (snd (router_run host_gemini_up env_all_keys (vint 1))))
     = [GenerateContent (str "gemini-2.0-flash") (str "hello")]
  /\ budgets (router_run host_gemini_up env_all_keys (vint 5000)) = [None]
  /\ budgets (router_run host_gemini_up env_all_keys (vint 5000))
     <> [Some (Math_min (Fin 5000) (Fin 2000))]
  /\ budgets (router_run host_down env_all_keys (vint 5000))
     = [None; None; Some (Fin 2000); Some (Fin 2000); None]
  /\ budgets (router_run host_down env_all_keys (vint 50))
     = [None; None; Some (Fin 50); Some (Fin 50); None]
  /\ budgets (optimized_run host_down env_all_keys (vint 5000))
     = [None; None; Some (Fin 2000); Some (Fin 2000); None].
Proof.
  repeat split; try (vm_compute; reflexivity).
  vm_compute. discriminate.
Qed.

Lemma fallback_in_order_first_success_witness :
  (let run := router_run host_groq_up env_all_keys (vint 50) in
   exists new,
     calls (snd run) = calls fresh ++ new
     /\ traversal (available (snd run))
          (router_request env_all_keys (str "hello") (Fin 50))
          router_verdict FALLBACK_MODELS new (result_of (fst run)))
  /\
  (let run := optimized_run host_groq_up env_all_keys (vint 50) in
   exists new,
     calls (snd run) = calls fresh ++ new
     /\ traversal (available (snd run))
          (optimized_request (host := host_groq_up) env_all_keys (str "hello")
             hello_messages (vint 50))
          optimized_verdict FALLBACK_MODELS new (result_of (fst run)))
  /\
  (~ validates blank_groq_call
   /\ rejected router_verdict blank_groq_call
   /\ rejected optimized_verdict blank_groq_call).
Proof.
  destruct (fallback_in_order_first_success (host := host_groq_up) env_all_keys
              (vstr "x") (vint 50) hello_messages fresh eq_refl)
    as (HR & HO & HV).
  split; [|split].
  - exact (HR (Fin 50) hello_is_valid eq_refl).
  - refine (HO (str "hello") _ eq_refl eq_refl eq_refl). discriminate.
  - assert (Hblank : ~ validates blank_groq_call).
    { intros (s & (v & Hv & Hs) & Hnb). injection Hv as <-.
      apply content_of_chat_response in Hs. injection Hs as <-.
      discriminate Hnb. }
    destruct (HV blank_groq_call) as (_ & _ & Hrej & _).
    split; [exact Hblank|exact (Hrej Hblank)].
Defined.

(** A run in which Groq answers with blanks: the answer does not validate,
    the loop goes on, and OpenAI's answer, the fourth call, is returned, in
    both files. *)
Example blank_answer_is_passed_over :
  fst (router_run host_groq_blank env_all_keys (vint 50))
    = Ok (chat_response (vstr "hi there"))
  /\ attempted (router_run host_groq_blank env_all_keys (vint 50))
     = firstn 4 FALLBACK_MODELS
  /\ fst (optimized_run host_groq_blank env_all_keys (vint 50))
     = Ok (chat_response (vstr "hi there"))
  /\ attempted (optimized_run host_groq_blank env_all_keys (vint 50))
     = firstn 4 FALLBACK_MODELS.
Proof. repeat split; vm_compute; reflexivity. Qed.

(** That run, evaluated: Gemini fails twice, Groq answers, and OpenAI and
    Ollama are not called. *)
Example groq_wins :
  fst (router_run host_groq_up env_all_keys (vint 50))
    = Ok (chat_response (vstr "hi there"))
  /\ attempted (router_run host_groq_up env_all_keys (vint 50))
     = firstn 3 FALLBACK_MODELS
  /\ attempted (optimized_run host_groq_up env_all_keys (vint 50))
     = firstn 3 FALLBACK_MODELS.
Proof. repeat split; vm_compute; reflexivity. Qed.

(** C1 fails on [modelRouter.js]: with every provider failing for a reason of
    its own, all five entries are attempted and the error thrown is the fixed
    message, with no provider, model or reason in it; on the same input
    [modelRouter_optimized.js] throws the list of the five attempts with
    their reasons. *)
Theorem router_aggregate_error_has_no_reasons :
  fst (router_run host_down env_all_keys (vint 50))
    = Throw (Error Router.all_failed)
  /\ attempted (router_run host_down env_all_keys (vint 50)) = FALLBACK_MODELS
  /\ fst (optimized_run host_down env_all_keys (vint 50))
     = Throw (Error (Optimized.errorMsg
         [str "gemini:gemini-2.0-flash (Gemini error: fetch failed)";
          str "gemini:gemini-2.0-pro (Gemini error: fetch failed)";
          str "groq:llama-3.1-70b-versatile (Groq error: 401 invalid api key)";
          str "openai:gpt-4.1-mini (OpenAI error: 429 quota exceeded)";
          str "ollama:llama3 (Ollama error: connect ECONNREFUSED 127.0.0.1:11434)"])).
Proof. repeat split; vm_compute; reflexivity. Qed.

(** C6 fails on [NaN]: it is of type number and [NaN < 1] is false, so
    [callModel("x", hello, NaN)] passes the check whose message reads
    ["maxTokens must be a positive number"], and the Groq client is called,
    with [max_tokens: NaN]. *)
Theorem maxTokens_NaN_reaches_provider :
  ~ positive_number (VNum NaN)
  /\ fst (router_run host_groq_up env_groq_only (VNum NaN))
     = Ok (chat_response (vstr "hi there"))
  /\ attempted (router_run host_groq_up env_groq_only (VNum NaN))
     = [{| provider := str "groq"; model := str "llama-3.1-70b-versatile" |}]
  /\ budgets (router_run host_groq_up env_groq_only (VNum NaN)) = [Some NaN].
Proof.
  split.
  - intros [H|(q & H & _)]; discriminate H.
  - repeat split; vm_compute; reflexivity.
Qed.

Lemma mock_mode_short_circuits_witness :
  let run := router_run host_gemini_up env_mock (vint 50) in
  fst run = Ok Router.mock_response
  /\ Router.mock_response = chat_response (vstr "Mock response (MOCK_MODE=true)")
  /\ content_of Router.mock_response (str "Mock response (MOCK_MODE=true)")
  /\ completion Router.mock_response
  /\ calls (snd run) = calls fresh
  /\ world (snd run) = world fresh.
Proof.
  apply (mock_mode_short_circuits (host := host_gemini_up) env_mock
           (vstr "x") hello_messages 50 fresh).
  - reflexivity.
  - exact hello_is_valid.
  - reflexivity.
Defined.


(* ================================================================== *)
(** * Sample runs *)

(** The filtering example of the specification: of the four entries only the
    first has a non-empty [file] and a non-empty [comment]. *)
Example sanitizer_filtering :
  Review.comments
    (Review.validateReview
       (obj [("comments",
              VArr [obj [("file", vstr "a.js"); ("comment", vstr "ok")];
                    obj [("file", vstr ""); ("comment", vstr "ok")];
                    obj [("file", vstr "b.js"); ("comment", vstr "")];
                    vstr "not-an-object"])]))
  = [obj [("file", vstr "a.js"); ("comment", vstr "ok")]].
Proof. reflexivity. Qed.

(** [null], [42] and ["string"] give the default document; [{}] and an array
    give a validated one with the short summary; an accessor that throws
    gives the default document through the [catch]. *)
Example sanitizer_on_odd_inputs :
  Review.validateReview VNull = Review.createDefaultReview
  /\ Review.validateReview (vint 42) = Review.createDefaultReview
  /\ Review.validateReview (vstr "string") = Review.createDefaultReview
  /\ Review.validateReview (obj [])
     = {| Review.summary := str "Code review completed.";
          Review.comments := []; Review.patches := []; Review.testCases := [];
          Review.status := str "validated" |}
  /\ Review.validateReview (VArr [vint 1]) = Review.validateReview (obj [])
  /\ Review.validateReview
       (VObj [(str "summary", Data (vstr "fine"));
              (str "patches", Getter_throws (Error (str "boom")))])
     = Review.createDefaultReview.
Proof. repeat split. Qed.

(** Test cases are filtered, cut to 500 characters and capped at 20. *)
Example sanitizer_testCases :
  map (fun tc => match tc with VStr s => List.length s | _ => 0 end)
    (Review.testCases
       (Review.validateReview
          (obj [("testCases",
                 VArr (vint 1 :: vstr " " :: VStr (repeat 97%N 600)
                       :: repeat (vstr "t") 30))])))
  = 500 :: repeat 1 19.
Proof. vm_compute. reflexivity. Qed.

(** With only the Groq key set, the optimized router passes over the Gemini
    and OpenAI entries without an entry in its list of failures. *)
Example optimized_skips_without_entry :
  fst (optimized_run host_down env_groq_only (vint 50))
  = Throw (Error (Optimized.errorMsg
      [str "groq:llama-3.1-70b-versatile (Groq error: 401 invalid api key)";
       str "ollama:llama3 (Ollama error: connect ECONNREFUSED 127.0.0.1:11434)"]))
  /\ attempted (optimized_run host_down env_groq_only (vint 50))
     = [{| provider := str "groq"; model := str "llama-3.1-70b-versatile" |};
        {| provider := str "ollama"; model := str "llama3" |}].
Proof. repeat split; vm_compute; reflexivity. Qed.

(** Input validation of [modelRouter.js], by message. *)
Example router_validation_messages :
  fst (router_run host_down env_all_keys (vint 0))
    = Throw (Error (str "maxTokens must be a positive number"))
  /\ fst (router_run host_down env_all_keys (vstr "50"))
     = Throw (Error (str "maxTokens must be a positive number"))
  /\ fst (Router.callModel (host := host_down) env_all_keys (vstr "x") (VArr [])
            (vint 50) fresh)
     = Throw (Error (str "messages must be a non-empty array"))
  /\ fst (Router.callModel (host := host_down) env_all_keys (vstr "x")
            (VArr [obj [("role", vstr "user"); ("content", vstr "")]])
            (vint 50) fresh)
     = Throw (Error (str "each message must have a non-empty string content field"))
  /\ fst (Router.callModel (host := host_down) env_all_keys (vstr "x")
            (VArr [obj [("role", vstr "user"); ("content", vstr "  ")]])
            (vint 50) fresh)
     = Throw (Error (str "Empty prompt generated from messages"))
  /\ calls (snd (router_run host_down env_all_keys (vint 0))) = [].
Proof. repeat split; vm_compute; reflexivity. Qed.

(** The decoder on prose around an object, and on text with no JSON in it. *)
Example decoder_ladder :
  Review.extractJSON MiniJSON.parse
    (VStr (str "Here you go: " ++ MiniJSON.stringify fence_inside ++ str " bye"))
    = Ok fence_inside
  /\ Review.extractJSON MiniJSON.parse (vstr "no json here")
     = Throw (Error (str "Could not extract valid JSON from response after multiple attempts"))
  /\ Review.extractJSON MiniJSON.parse (vstr "   ")
     = Throw (Error (str "Empty text provided"))
  /\ Review.extractJSON MiniJSON.parse (vint 4)
     = Throw (Error (str "Invalid input: expected string")).
Proof. repeat split; vm_compute; reflexivity. Qed.

(* ================================================================== *)
(** * The responses the routers accept *)

(** X1: the two routers accept the same provider responses: those that are
    generation results, with a [choices[0].message.content] that is a string
    and is not empty after trimming. *)
Theorem routers_accept_the_same_responses (v : value) (p : string) :
  (Router.validateResponse v p = Ok true <-> completion v)
  /\ (Optimized.validateResponse v = Ok true <-> completion v)
  /\ (Router.validateResponse v p = Ok true
      <-> Optimized.validateResponse v = Ok true).
Proof.
  pose proof (Router_validateResponse_accepts v p) as HR.
  pose proof (Optimized_validateResponse_accepts v) as HO.
  repeat split; try tauto.
Qed.

(* ================================================================== *)
(** * What [callModel] returns *)

(** The verdicts of [modelRouter.js] that let a call win are completions. *)
Lemma router_verdict_completion (c : call) (v : value) :
  router_verdict c = Ok v -> completion v.
Proof.
  intros H. destruct (router_verdict_content c v H) as (s & _ & Hnb & Hs).
  now exists s.
Qed.

(** Those of [modelRouter_optimized.js], too. *)
Lemma optimized_verdict_completion (c : call) (v : value) :
  optimized_verdict c = Ok v -> completion v.
Proof.
  intros H. destruct (optimized_verdict_content c v H) as (s & _ & Hnb & Hs).
  now exists s.
Qed.

Lemma traversal_result_verdict avail req verdict attempts new v :
  traversal avail req verdict attempts new (Some v) ->
  exists c, In c new /\ verdict c = Ok v.
Proof.
  intros H. apply traversal_won in H.
  destruct H as (tried & a & rest & pre & c & _ & -> & _ & _ & _ & _ & Hv).
  exists c. split; [apply in_or_app; right; now left|assumption].
Qed.

Section Results.
Context {W : Type} {host : Host W}.
Variable E : env.

Lemma Router_callModel_completion (modelName messages maxTokens : value)
    (st : state W) (v : value) :
  fst (Router.callModel E modelName messages maxTokens st) = Ok v ->
  completion v.
Proof.
  intros Hrun.
  destruct (Router_callModel_calls E modelName messages maxTokens st)
    as (new & _ & Hcases). cbv zeta in Hcases.
  rewrite Hrun in Hcases. simpl result_of in Hcases.
  destruct Hcases as [(_ & _ & [H|Hmock])|(prompt & n & _ & _ & Htr & _)].
  - discriminate H.
  - (* mock mode: the run is the placeholder *)
    destruct (Router.validateMessages messages) as [[]|e] eqn:Hm.
    2: { rewrite (Router_rejects_messages E modelName messages maxTokens st e Hm)
           in Hrun. discriminate. }
    destruct (Router.check_maxTokens (or_default maxTokens)) as [n|e] eqn:Hn.
    2: { rewrite (Router_rejects_maxTokens E modelName messages maxTokens st e Hm Hn)
           in Hrun. discriminate. }
    assert (Harr : exists ms, messages = VArr ms).
    { destruct messages; try discriminate Hm. eauto. }
    destruct Harr as [ms ->].
    rewrite (Router_callModel_valid E modelName maxTokens ms n st Hm Hn) in Hrun.
    cbv zeta in Hrun. rewrite Hmock in Hrun.
    destruct (nonblank (join [newline] (contents_of ms))); simpl in Hrun;
      [|discriminate].
    injection Hrun as <-. now apply chat_response_completion.
  - destruct (traversal_result_verdict _ _ _ _ _ _ Htr) as (c & _ & Hv).
    now apply (router_verdict_completion c).
Qed.

Lemma Optimized_callModel_completion (modelName messages maxTokens : value)
    (st : state W) (v : value) :
  fst (Optimized.callModel E modelName messages maxTokens st) = Ok v ->
  completion v.
Proof.
  intros Hrun.
  destruct (Optimized_callModel_calls E modelName messages maxTokens st)
    as (new & _ & Hcases). cbv zeta in Hcases.
  rewrite Hrun in Hcases. simpl result_of in Hcases.
  destruct Hcases as [(_ & _ & [H|Hmock])|(prompt & ms & _ & _ & _ & Htr & _)].
  - discriminate H.
  - unfold Optimized.callModel in Hrun.
    destruct messages as [| | | | |[|m ms]|]; try discriminate Hrun.
    unfold bind, lift, ret, throw in Hrun. rewrite Hmock in Hrun.
    destruct (Optimized.initializeClients E st) as [[[]|e] st1];
      [|discriminate Hrun].
    destruct (prompt_of (m :: ms)) as [prompt|e]; [|discriminate Hrun].
    destruct (negb (truthy (VStr prompt)) || (List.length (trim prompt) =? 0)%nat);
      [discriminate Hrun|].
    simpl in Hrun. injection Hrun as <-. now apply chat_response_completion.
  - destruct (traversal_result_verdict _ _ _ _ _ _ Htr) as (c & _ & Hv).
    now apply (optimized_verdict_completion c).
Qed.

(** X2: whatever [callModel] returns is a completion, in both routers: the
    value has a non-empty [choices] array whose first element carries
    [message.content], a string that is not blank. *)
Theorem callModel_returns_a_completion (modelName messages maxTokens : value)
    (st : state W) (v : value) :
  (fst (Router.callModel E modelName messages maxTokens st) = Ok v
   -> completion v)
  /\ (fst (Optimized.callModel E modelName messages maxTokens st) = Ok v
      -> completion v).
Proof.
  split.
  - apply Router_callModel_completion.
  - apply Optimized_callModel_completion.
Qed.
End Results.

Lemma callModel_returns_a_completion_witness :
  completion (chat_response (vstr "hi there")).
Proof.
  apply (proj1 (callModel_returns_a_completion (host := host_groq_up) env_all_keys
                  (vstr "x") hello (vint 50) fresh (chat_response (vstr "hi there")))).
  vm_compute. reflexivity.
Defined.

(* ================================================================== *)
(** * Runs without keys *)

Section NoKeys.
Context {W : Type} {host : Host W}.
Variable E : env.

Lemma no_clients_available (st : state W) (a : attempt) :
  no_clients st -> available st a = jseqb (provider a) (str "ollama").
Proof.
  intros (Hg & Hq & Ho). unfold available. rewrite Hg, Hq, Ho.
  now rewrite !andb_false_r.
Qed.

Lemma Router_init_no_keys (st : state W) :
  no_keys E -> no_clients st ->
  no_clients (snd (Router.initializeClients E st)).
Proof.
  intros (Kg & Kq & Ko) (Hg & Hq & Ho).
  unfold Router.initializeClients, Router.init_client.
  destruct (clientsInitialized st); simpl; [repeat split; assumption|].
  rewrite Kg, Kq, Ko. repeat split; assumption.
Qed.

Lemma Optimized_init_no_keys (st : state W) :
  no_keys E -> no_clients st ->
  fst (Optimized.initializeClients E st) = Ok tt
  /\ no_clients (snd (Optimized.initializeClients E st)).
Proof.
  intros (Kg & Kq & Ko) (Hg & Hq & Ho).
  unfold Optimized.initializeClients, Optimized.init_client.
  rewrite Hg, Hq, Ho, Kg, Kq, Ko. simpl. repeat split.
Qed.

(** X3: with no API key, the router still calls out: the one call of a run is
    the request to the local Ollama server, at [OLLAMA_HOST] or
    [http://localhost:11434], for the model [llama3] and with the joined
    contents as prompt; the run returns what that call gives, or fails. *)
Theorem without_keys_only_ollama_is_called (modelName maxTokens : value)
    (ms : list value) (n : number) (st : state W) :
  mockMode E = false ->
  no_keys E ->
  no_clients st ->
  valid_messages ms ->
  Router.check_maxTokens (or_default maxTokens) = Ok n ->
  let prompt := join [newline] (contents_of ms) in
  (let run := Router.callModel E modelName (VArr ms) maxTokens st in
   exists c,
     calls (snd run) = calls st ++ [c]
     /\ call_request c =
          Fetch {| url := ollamaHost E ++ str "/api/generate";
                   body_model := str "llama3";
                   body_prompt := prompt;
                   body_stream := Some false;
                   timeout := 30000 |}
     /\ fst run = match router_verdict c with
                  | Ok v => Ok v
                  | Throw _ => Throw (Error Router.all_failed)
                  end)
  /\
  (let run := Optimized.callModel E modelName (VArr ms) maxTokens st in
   exists c,
     calls (snd run) = calls st ++ [c]
     /\ call_request c =
          Fetch {| url := ollamaHost E ++ str "/api/generate";
                   body_model := str "llama3";
                   body_prompt := prompt;
                   body_stream := None;
                   timeout := 30000 |}
     /\ fst run = match optimized_verdict c with
                  | Ok v => Ok v
                  | Throw e =>
                      Throw (Error (str "All AI providers failed. Attempted: "
                                    ++ str "ollama:llama3 (" ++ message e ++ str ")"))
                  end).
Proof.
  intros Hmock Hkeys Hcl Hvalid Hn prompt.
  destruct (valid_messages_prompt ms Hvalid) as [Hm Hnb]. fold prompt in Hnb.
  pose proof Hvalid as (Hne & Hall & _).
  split.
  - intros run. subst run.
    rewrite (Router_callModel_valid E modelName maxTokens ms n st Hm Hn).
    cbv zeta. fold prompt. rewrite Hnb, Hmock.
    destruct (initializeClients_Ok E st) as (_ & Hc1 & _).
    pose proof (Router_init_no_keys st Hkeys Hcl) as Hcl1.
    set (st1 := snd (Router.initializeClients E st)) in *.
    assert (Hskip : forall a, jseqb (provider a) (str "ollama") = false ->
              Router.run_attempt E prompt n a st1 = (Ok Skipped, st1)).
    { intros a Ha. apply Router_run_attempt_skip.
      now rewrite no_clients_available. }
    destruct (Router_run_attempt_call E prompt n ollama_entry st1)
      as (c & st' & Hrun & (Hcalls & _) & _ & Hreq).
    { now rewrite no_clients_available. }
    exists c.
    unfold FALLBACK_MODELS. cbn [Router.fallback_loop]. unfold bind.
    rewrite !Hskip by reflexivity.
    change {| provider := str "ollama"; model := str "llama3" |} with ollama_entry.
    rewrite Hrun.
    destruct (router_verdict c) as [v|e]; simpl;
      (split; [congruence|split; [exact Hreq|reflexivity]]).
  - intros run. subst run.
    destruct ms as [|m ms']; [congruence|].
    unfold Optimized.callModel.
    unfold bind, lift, ret, throw.
    destruct (Optimized_init_calls E st) as (Hc1 & _).
    destruct (Optimized_init_no_keys st Hkeys Hcl) as (Hinit & Hcl1).
    destruct (Optimized.initializeClients E st) as [[[]|e] st1];
      simpl in Hinit, Hc1, Hcl1; [|discriminate].
    pose proof (prompt_of_valid (m :: ms') Hall) as Hprompt. fold prompt in Hprompt.
    rewrite Hprompt, blank_check, Hnb, Hmock. cbn [negb]. cbv beta iota.
    fold (or_default maxTokens).
    assert (Hskip : forall a, jseqb (provider a) (str "ollama") = false ->
              Optimized.run_attempt E prompt (m :: ms') (or_default maxTokens) a st1
              = (Ok Skipped, st1)).
    { intros a Ha. apply Optimized_run_attempt_skip.
      now rewrite no_clients_available. }
    destruct (Optimized_run_attempt_call E prompt (m :: ms') (or_default maxTokens)
                ollama_entry st1 Hprompt)
      as (c & st' & Hrun & (Hcalls & _) & _ & Hreq).
    { now rewrite no_clients_available. }
    exists c.
    unfold FALLBACK_MODELS. cbn [Optimized.fallback_loop]. unfold bind.
    rewrite !Hskip by reflexivity.
    change {| provider := str "ollama"; model := str "llama3" |} with ollama_entry.
    rewrite Hrun.
    destruct (optimized_verdict c) as [v|e]; simpl;
      (split; [congruence|split; [exact Hreq|reflexivity]]).
Qed.
End NoKeys.

Lemma without_keys_only_ollama_is_called_witness :
  exists c,
    calls (snd (Router.callModel (host := host_down) env_no_keys (vstr "x") hello
                  (vint 50) fresh)) = [c]
    /\ call_request c =
         Fetch {| url := str "http://ollama:11434/api/generate";
                  body_model := str "llama3";
                  body_prompt := str "hello";
                  body_stream := Some false;
                  timeout := 30000 |}.
Proof.
  destruct (without_keys_only_ollama_is_called (host := host_down) env_no_keys
              (vstr "x") (vint 50) hello_messages (Fin 50) fresh)
    as [(c & Hcalls & Hreq & _) _].
  - reflexivity.
  - repeat split.
  - repeat split.
  - exact hello_is_valid.
  - reflexivity.
  - exists c. split; [exact Hcalls|exact Hreq].
Defined.

(* ================================================================== *)
(** * [validatePRInput] *)

Lemma first_non_string_None (l : list value) (i : N) :
  ReviewPR.first_non_string l i = None
  <-> Forall (fun f => is_string f = true) l.
Proof.
  revert i; induction l as [|v l IH]; intros i; simpl.
  - split; constructor.
  - destruct (is_string v) eqn:Hv.
    + rewrite IH. split; [now constructor|now inversion 1].
    + split; [discriminate|]. inversion 1; congruence.
Qed.

Lemma first_non_string_Some (l : list value) (i j : N) :
  ReviewPR.first_non_string l i = Some j ->
  exists pre x post,
    l = pre ++ x :: post
    /\ Forall (fun f => is_string f = true) pre
    /\ is_string x = false
    /\ j = (i + N.of_nat (List.length pre))%N.
Proof.
  revert i; induction l as [|v l IH]; intros i; simpl; [discriminate|].
  destruct (is_string v) eqn:Hv.
  - intros H. destruct (IH _ H) as (pre & x & post & -> & Hpre & Hx & ->).
    exists (v :: pre), x, post. repeat split; auto.
    simpl List.length. lia.
  - intros H. injection H as <-. exists [], v, l. repeat split; auto.
    simpl. lia.
Qed.

Lemma first_non_string_app (pre post : list value) (x : value) (i : N) :
  Forall (fun f => is_string f = true) pre ->
  is_string x = false ->
  ReviewPR.first_non_string (pre ++ x :: post) i
  = Some (i + N.of_nat (List.length pre))%N.
Proof.
  intros Hpre Hx. revert i.
  induction Hpre as [|v pre Hv _ IH]; intros i; simpl.
  - rewrite Hx. f_equal. lia.
  - rewrite Hv, IH. f_equal. lia.
Qed.

Lemma check_diffs_nil (diffs : value) :
  ReviewPR.check_diffs diffs = []
  <-> exists s, diffs = VStr s /\ nonblank s = true /\ (jslength s <= 100000)%N.
Proof.
  unfold ReviewPR.check_diffs. split.
  - destruct diffs as [| |b|n|s|l|p]; simpl; try discriminate;
      try (destruct b; discriminate);
      try (destruct n as [| |q]; try discriminate;
           destruct (Qeq_bool q 0); discriminate).
    destruct s as [|c s]; simpl; [discriminate|].
    destruct (List.length (trim (c :: s)) =? 0)%nat eqn:Hlen; [discriminate|].
    destruct (100000 <? jslength (c :: s))%N eqn:Hmax; [discriminate|].
    intros _. exists (c :: s). repeat split.
    + rewrite <- nonblank_trim_length, Hlen. reflexivity.
    + now apply N.ltb_ge.
  - intros (s & -> & Hnb & Hlen).
    destruct s as [|c s]; [discriminate Hnb|]. simpl truthy. simpl negb.
    rewrite <- nonblank_trim_length in Hnb.
    destruct (List.length (trim (c :: s)) =? 0)%nat; [discriminate Hnb|].
    simpl orb. cbv iota.
    apply N.ltb_ge in Hlen. now rewrite Hlen.
Qed.

Lemma check_title_nil (v : value) :
  ReviewPR.check_title v = []
  <-> v = VUndefined \/ exists s, v = VStr s /\ (jslength s <= 500)%N.
Proof.
  unfold ReviewPR.check_title. split.
  - destruct v as [| |b|n|s|l|p]; try discriminate; [now left|].
    destruct (500 <? jslength s)%N eqn:H; [discriminate|].
    intros _. right. exists s. split; [reflexivity|now apply N.ltb_ge].
  - intros [->|(s & -> & H)]; [reflexivity|].
    apply N.ltb_ge in H. now rewrite H.
Qed.

Lemma check_description_nil (v : value) :
  ReviewPR.check_description v = []
  <-> v = VUndefined \/ exists s, v = VStr s /\ (jslength s <= 5000)%N.
Proof.
  unfold ReviewPR.check_description. split.
  - destruct v as [| |b|n|s|l|p]; try discriminate; [now left|].
    destruct (5000 <? jslength s)%N eqn:H; [discriminate|].
    intros _. right. exists s. split; [reflexivity|now apply N.ltb_ge].
  - intros [->|(s & -> & H)]; [reflexivity|].
    apply N.ltb_ge in H. now rewrite H.
Qed.

Lemma check_filesChanged_nil (v : value) :
  ReviewPR.check_filesChanged v = []
  <-> v = VUndefined
      \/ exists l, v = VArr l /\ List.length l <= 1000
                   /\ Forall (fun f => is_string f = true) l.
Proof.
  unfold ReviewPR.check_filesChanged. split.
  - destruct v as [| |b|n|s|l|p]; try discriminate; [now left|].
    destruct (1000 <? List.length l)%nat eqn:H; [discriminate|].
    destruct (ReviewPR.first_non_string l 0) eqn:Hf; [discriminate|].
    intros _. right. exists l. split; [reflexivity|]. split.
    + now apply Nat.ltb_ge.
    + now apply (first_non_string_None l 0).
  - intros [->|(l & -> & H & Hall)]; [reflexivity|].
    apply Nat.ltb_ge in H. rewrite H.
    apply (first_non_string_None l 0) in Hall. now rewrite Hall.
Qed.

Lemma app_nil4 {A} (a b c d : list A) :
  a ++ b ++ c ++ d = [] <-> a = [] /\ b = [] /\ c = [] /\ d = [].
Proof.
  split.
  - intros H. apply app_eq_nil in H as [-> H].
    apply app_eq_nil in H as [-> H]. apply app_eq_nil in H as [-> ->]. auto.
  - intros (-> & -> & -> & ->). reflexivity.
Qed.

Lemma validatePRInput_valid (body : value) :
  ReviewPR.validatePRInput body = Ok [] <-> valid_pr_body body.
Proof.
  unfold ReviewPR.validatePRInput, valid_pr_body, optional_text.
  destruct (truthy body) eqn:Ht; simpl.
  2: { split; [discriminate|]. intros (H & _). discriminate. }
  destruct (is_object body) eqn:Ho; simpl.
  2: { split; [discriminate|]. intros (_ & H & _). discriminate. }
  destruct (get body "diffs") as [d|e]; simpl.
  2: { split; [discriminate|]. intros (_ & _ & (s & H & _) & _). discriminate. }
  destruct (get body "title") as [t|e]; simpl.
  2: { split; [discriminate|].
       intros (_ & _ & _ & [H|(s & H & _)] & _); discriminate. }
  destruct (get body "description") as [ds|e]; simpl.
  2: { split; [discriminate|].
       intros (_ & _ & _ & _ & [H|(s & H & _)] & _); discriminate. }
  destruct (get body "filesChanged") as [f|e]; simpl.
  2: { split; [discriminate|].
       intros (_ & _ & _ & _ & _ & [H|(s & H & _)]); discriminate. }
  split.
  - intros H. injection H as H. apply app_nil4 in H as (Hd & Htl & Hds & Hf).
    apply check_diffs_nil in Hd as (s & -> & Hnb & Hlen).
    apply check_title_nil in Htl. apply check_description_nil in Hds.
    apply check_filesChanged_nil in Hf.
    repeat split.
    + now exists s.
    + destruct Htl as [->|(s' & -> & H)]; [now left|right; now exists s'].
    + destruct Hds as [->|(s' & -> & H)]; [now left|right; now exists s'].
    + destruct Hf as [->|(l & -> & H)]; [now left|right; now exists l].
  - intros (_ & _ & (s & Hs & Hnb & Hlen) & Htl & Hds & Hf).
    injection Hs as ->. f_equal. apply app_nil4. repeat split.
    + apply check_diffs_nil. now exists s.
    + apply check_title_nil.
      destruct Htl as [H|(s' & H & Hl)]; injection H as ->;
        [now left|right; now exists s'].
    + apply check_description_nil.
      destruct Hds as [H|(s' & H & Hl)]; injection H as ->;
        [now left|right; now exists s'].
    + apply check_filesChanged_nil.
      destruct Hf as [H|(l & H & Hl)]; injection H as ->;
        [now left|right; now exists l].
Qed.

(** X4: what the review route lets through. [validatePRInput] returns no
    error exactly for the bodies that are objects with a [diffs] string that
    is not blank and has at most 100000 characters, a [title] and a
    [description] that are absent or strings of at most 500 and 5000
    characters, and a [filesChanged] that is absent or an array of at most
    1000 strings. *)
Theorem validatePRInput_accepts (body : value) :
  ReviewPR.validatePRInput body = Ok [] <-> valid_pr_body body.
Proof. apply validatePRInput_valid. Qed.

Ltac messages_differ :=
  repeat first [ apply Forall_nil
               | apply Forall_cons; [vm_compute; reflexivity|] ].

Lemma other_checks_not_about_files (d t ds : value) :
  Forall (fun e => starts_with (str "filesChanged") e = false)
    (ReviewPR.check_diffs d ++ ReviewPR.check_title t
     ++ ReviewPR.check_description ds).
Proof.
  apply Forall_app; split.
  - unfold ReviewPR.check_diffs.
    destruct (negb (truthy d) || _); [messages_differ|].
    destruct d; try messages_differ.
    destruct (100000 <? jslength s)%N; messages_differ.
  - apply Forall_app; split.
    + unfold ReviewPR.check_title. destruct t; try messages_differ.
      destruct (500 <? jslength s)%N; messages_differ.
    + unfold ReviewPR.check_description. destruct ds; try messages_differ.
      destruct (5000 <? jslength s)%N; messages_differ.
Qed.

(** X5: of the elements of [filesChanged] that are not strings,
    [validatePRInput] reports the first one only, by its index: the last
    error is the one for that index and no other error is about
    [filesChanged]. *)
Theorem filesChanged_reports_first_offender (body : value) (errors : list jsstring)
    (pre post : list value) (x : value) :
  ReviewPR.validatePRInput body = Ok errors ->
  get body "filesChanged" = Ok (VArr (pre ++ x :: post)) ->
  Forall (fun f => is_string f = true) pre ->
  is_string x = false ->
  List.length (pre ++ x :: post) <= 1000 ->
  exists others,
    errors = others ++ [str "filesChanged[" ++ decimal (N.of_nat (List.length pre))
                        ++ str "] must be a string"]
    /\ Forall (fun e => starts_with (str "filesChanged") e = false) others.
Proof.
  intros Hv Hf Hpre Hx Hlen.
  assert (Hobj : exists props, body = VObj props).
  { destruct body; try discriminate Hf. eauto. }
  destruct Hobj as [props ->].
  revert Hv. unfold ReviewPR.validatePRInput.
  change (negb (truthy (VObj props)) || negb (is_object (VObj props))) with false.
  cbv iota. rewrite Hf.
  destruct (get (VObj props) "diffs") as [d|e]; cbn [rbind]; [|discriminate].
  destruct (get (VObj props) "title") as [t|e]; cbn [rbind]; [|discriminate].
  destruct (get (VObj props) "description") as [ds|e]; cbn [rbind]; [|discriminate].
  intros Hv. injection Hv as <-.
  exists (ReviewPR.check_diffs d ++ ReviewPR.check_title t
          ++ ReviewPR.check_description ds).
  split; [|apply other_checks_not_about_files].
  rewrite <- !app_assoc. do 3 f_equal.
  unfold ReviewPR.check_filesChanged.
  apply Nat.ltb_ge in Hlen. rewrite Hlen.
  now rewrite (first_non_string_app pre post x 0 Hpre Hx).
Qed.

Lemma filesChanged_reports_first_offender_witness :
  exists others,
    [str "filesChanged[1] must be a string"]
    = others ++ [str "filesChanged[" ++ decimal (N.of_nat (List.length [vstr "a.js"]))
                 ++ str "] must be a string"]
    /\ Forall (fun e => starts_with (str "filesChanged") e = false) others.
Proof.
  apply (filesChanged_reports_first_offender body_with_odd_files
           [str "filesChanged[1] must be a string"] [vstr "a.js"] [VNull] (vint 1)).
  - reflexivity.
  - reflexivity.
  - repeat constructor.
  - reflexivity.
  - simpl. lia.
Defined.

Lemma validatePRInput_accepts_witness :
  ReviewPR.validatePRInput small_pr = Ok [] /\ valid_pr_body small_pr.
Proof.
  split; [reflexivity|].
  apply (proj1 (validatePRInput_accepts small_pr)). reflexivity.
Defined.

(* ================================================================== *)
(** * Outcomes of a handler *)

Section OutcomeFacts.
Context {W : Type} {host : Host W}.

Lemma may_return_ret {A} (P : A -> Prop) (a : A) :
  P a -> may_return (W := W) P (ret a).
Proof. intros H st. exact H. Qed.

Lemma may_return_throw {A} (P : A -> Prop) (e : exn) :
  may_return (W := W) P (throw e).
Proof. intros st. exact I. Qed.

Lemma may_return_bind {A B} (P : B -> Prop) (m : IO W A) (k : A -> IO W B) :
  (forall a, may_return P (k a)) -> may_return P (bind m k).
Proof.
  intros H st. unfold bind. destruct (m st) as [[a|e] st']; [apply H|exact I].
Qed.

Lemma returns_catch {A} (P : A -> Prop) (m : IO W A) (h : exn -> IO W A) :
  may_return P m -> (forall e, returns P (h e)) -> returns P (catch m h).
Proof.
  intros Hm Hh st. unfold catch. specialize (Hm st).
  destruct (m st) as [[a|e] st']; simpl in Hm.
  - now exists a, st'.
  - apply Hh.
Qed.
End OutcomeFacts.

(* ------------------------------------------------------------------ *)
(** * Blank and not blank *)

Lemma trimStart_nil (s : jsstring) :
  trimStart s = [] <-> forallb is_ws s = true.
Proof.
  induction s as [|c s IH]; simpl; [tauto|].
  destruct (is_ws c); simpl; [exact IH|]. split; discriminate.
Qed.

Lemma trimStart_suffix (s : jsstring) :
  exists p, s = p ++ trimStart s /\ forallb is_ws p = true.
Proof.
  induction s as [|c s (p & IH & Hp)]; simpl.
  - now exists [].
  - destruct (is_ws c) eqn:Hc.
    + exists (c :: p). simpl. rewrite Hc, Hp. split; [now f_equal|reflexivity].
    + now exists [].
Qed.

Lemma forallb_rev {A} (f : A -> bool) (l : list A) :
  forallb f (rev l) = forallb f l.
Proof.
  induction l as [|x l IH]; simpl; [reflexivity|].
  rewrite forallb_app, IH. simpl. rewrite andb_true_r. apply andb_comm.
Qed.

(** A string is blank when all its characters are white space. *)
Lemma nonblank_spec (s : jsstring) : nonblank s = negb (forallb is_ws s).
Proof.
  unfold nonblank, trim, trimEnd.
  destruct (trimStart_suffix s) as (p & Hs & Hp).
  destruct (forallb is_ws s) eqn:Hall.
  - apply trimStart_nil in Hall. rewrite Hall. reflexivity.
  - assert (Ht : forallb is_ws (trimStart s) = false).
    { rewrite Hs, forallb_app, Hp in Hall. exact Hall. }
    destruct (rev (trimStart (rev (trimStart s)))) as [|x r] eqn:Hr; [|reflexivity].
    apply (f_equal (@rev jschar)) in Hr. rewrite rev_involutive in Hr. simpl in Hr.
    apply trimStart_nil in Hr. rewrite forallb_rev in Hr. congruence.
Qed.

Lemma nonblank_app_l (a b : jsstring) :
  nonblank a = true -> nonblank (a ++ b) = true.
Proof.
  rewrite !nonblank_spec, forallb_app.
  destruct (forallb is_ws a); [discriminate|reflexivity].
Qed.

Lemma join_cons (sep p q : jsstring) (rest : list jsstring) :
  join sep (p :: q :: rest) = p ++ sep ++ join sep (q :: rest).
Proof. reflexivity. Qed.

Lemma length_join (sep : jsstring) (parts : list jsstring) :
  List.length (join sep parts)
  = list_sum (map (@List.length jschar) parts)
    + List.length sep * (List.length parts - 1).
Proof.
  induction parts as [|p [|q rest] IH].
  - simpl. lia.
  - simpl. lia.
  - rewrite join_cons, !length_app, IH.
    unfold list_sum. cbn [map fold_right List.length].
    change (S (S (List.length rest)) - 1) with (S (List.length rest)).
    change (S (List.length rest) - 1) with (List.length rest - 0).
    rewrite Nat.sub_0_r, Nat.mul_succ_r. lia.
Qed.

(* ================================================================== *)
(** * Prompts and requests of one message *)

Section PromptFacts.
Context {W : Type} {host : Host W}.

Lemma reviewPrompt_nonblank (t d s : value) (files : list value) :
  nonblank (Prompts.reviewPrompt t d s files) = true.
Proof.
  unfold Prompts.reviewPrompt. rewrite join_cons.
  apply nonblank_app_l. vm_compute. reflexivity.
Qed.

Lemma chatPrompt_nonblank (t : value) :
  nonblank (Prompts.chatPrompt t) = true.
Proof.
  unfold Prompts.chatPrompt. rewrite join_cons.
  apply nonblank_app_l. vm_compute. reflexivity.
Qed.

Lemma completionPrompt_nonblank (t : value) :
  nonblank (Prompts.completionPrompt t) = true.
Proof.
  unfold Prompts.completionPrompt. rewrite join_cons.
  apply nonblank_app_l. vm_compute. reflexivity.
Qed.

Lemma chatPrompt_length (t : value) :
  List.length (Prompts.chatPrompt t) = 300 + List.length (ToString t).
Proof.
  unfold Prompts.chatPrompt. rewrite length_join.
  unfold list_sum. cbn [map fold_right].
  repeat match goal with
         | |- context [List.length (str ?s)] =>
             let n := eval vm_compute in (List.length (str s)) in
             change (List.length (str s)) with n
         end.
  change (List.length (@nil jschar)) with 0.
  change (List.length [newline]) with 1.
  cbn [List.length]. lia.
Qed.

Lemma completionPrompt_length (t : value) :
  List.length (Prompts.completionPrompt t) = 323 + List.length (ToString t).
Proof.
  unfold Prompts.completionPrompt. rewrite length_join.
  unfold list_sum. cbn [map fold_right].
  repeat match goal with
         | |- context [List.length (str ?s)] =>
             let n := eval vm_compute in (List.length (str s)) in
             change (List.length (str s)) with n
         end.
  change (List.length (@nil jschar)) with 0.
  change (List.length [newline]) with 1.
  cbn [List.length]. lia.
Qed.

(** The length of the review prompt: 773 characters of template, and the
    four texts put into it. *)
Lemma reviewPrompt_length (t d s : value) (files : list value) :
  List.length (Prompts.reviewPrompt t d s files)
  = 773
    + List.length (if truthy t then ToString t else str "Untitled PR")
    + List.length (if truthy d then ToString d else str "No description provided")
    + List.length (match files with
                   | _ :: _ => join_values (str ", ") files
                   | [] => str "No file information"
                   end)
    + List.length (ToString s).
Proof.
  unfold Prompts.reviewPrompt. rewrite length_join.
  unfold list_sum. cbn [map fold_right].
  rewrite !length_app.
  repeat match goal with
         | |- context [List.length (str ?s)] =>
             let n := eval vm_compute in (List.length (str s)) in
             change (List.length (str s)) with n
         | |- context [List.length (quoted ?s)] =>
             let n := eval vm_compute in (List.length (quoted s)) in
             change (List.length (quoted s)) with n
         end.
  change (List.length (@nil jschar)) with 0.
  change (List.length [newline]) with 1.
  cbn [List.length].
  destruct (truthy t), (truthy d), files;
    repeat match goal with
         | |- context [List.length (str ?s)] =>
             let n := eval vm_compute in (List.length (str s)) in
             change (List.length (str s)) with n
         end; lia.
Qed.
End PromptFacts.

(* ------------------------------------------------------------------ *)
(** * A request of one message *)

Lemma one_message_valid (m : value) (prompt : jsstring) :
  truthy m = true -> is_object m = true ->
  get m "content" = Ok (VStr prompt) ->
  nonblank prompt = true ->
  (jslength prompt <= 100000)%N ->
  valid_messages [m] /\ join [newline] (contents_of [m]) = prompt.
Proof.
  intros Ht Ho Hc Hnb Hlen.
  assert (Hjoin : join [newline] (contents_of [m]) = prompt).
  { unfold contents_of. simpl. now rewrite Hc. }
  split; [|exact Hjoin].
  split; [discriminate|]. split; [|now rewrite Hjoin].
  constructor; [|constructor].
  split; [assumption|]. split; [assumption|].
  exists prompt. split; [assumption|]. split; [|assumption].
  now apply nonblank_nonempty.
Qed.

Lemma one_message_too_long (m : value) (prompt : jsstring) :
  truthy m = true -> is_object m = true ->
  get m "content" = Ok (VStr prompt) ->
  (100000 < jslength prompt)%N ->
  Router.validateMessages (VArr [m])
  = Throw (Error (str "message content exceeds maximum length (100KB)")).
Proof.
  intros Ht Ho Hc Hlen. unfold Router.validateMessages, Router.validateEach,
    Router.validateMessage.
  rewrite Ht, Ho, Hc. cbn [negb orb rbind].
  destruct prompt as [|c p]; [discriminate Hlen|].
  cbn [truthy is_string typeof negb orb].
  apply N.ltb_lt in Hlen. now rewrite Hlen.
Qed.

Section RouterOutcomes.
Context {W : Type} {host : Host W}.
Variable E : env.

(** A run of [callModel] on valid input returns a completion or fails with
    the one message of the exhausted list. *)
Lemma Router_valid_run (modelName maxTokens : value) (ms : list value)
    (n : number) (st : state W) :
  valid_messages ms ->
  Router.check_maxTokens (or_default maxTokens) = Ok n ->
  let run := Router.callModel E modelName (VArr ms) maxTokens st in
  (exists v, fst run = Ok v /\ completion v)
  \/ (fst run = Throw (Error Router.all_failed) /\ mockMode E = false).
Proof.
  intros Hvalid Hn run. subst run.
  destruct (valid_messages_prompt ms Hvalid) as [Hm Hnb].
  rewrite (Router_callModel_valid E modelName maxTokens ms n st Hm Hn).
  cbv zeta. rewrite Hnb.
  destruct (mockMode E) eqn:Hmock.
  { left. exists Router.mock_response. split; [reflexivity|].
    now apply chat_response_completion. }
  destruct (Router_loop E (join [newline] (contents_of ms)) n FALLBACK_MODELS
              (snd (Router.initializeClients E st)))
    as (r & new & st' & Hloop & _ & _ & Htr).
  rewrite Hloop. destruct r as [v|]; simpl.
  - left. exists v. split; [reflexivity|].
    destruct (traversal_result_verdict _ _ _ _ _ _ Htr) as (c & _ & Hv).
    now apply (router_verdict_completion c).
  - right. split; reflexivity.
Qed.
End RouterOutcomes.

(* ------------------------------------------------------------------ *)
(** * Review documents *)

(** The document [validateReview] returns keeps the invariants. *)
Lemma validateReview_document (data : value) :
  ReviewDocument (Review.validateReview data).
Proof.
  unfold Review.validateReview.
  destruct (negb (truthy data) || negb (is_object data));
    [apply default_is_ReviewDocument|].
  destruct (Review.validateReview_try data) as [r|e] eqn:Htry;
    [|apply default_is_ReviewDocument].
  destruct (validateReview_try_Ok _ _ Htry)
    as (s & cs & ps & ts & _ & _ & _ & _ & Hs & Hc & Hp & Ht & Hst).
  constructor.
  - rewrite Hs. destruct s; try (apply Nat.leb_le; reflexivity).
    apply firstn_capped.
  - rewrite Hc. destruct cs; try (simpl; lia). apply firstn_capped.
  - rewrite Hp. destruct ps; try (simpl; lia). apply firstn_capped.
  - destruct ts; try (rewrite Ht; simpl; lia).
    destruct Ht as (ks & cut & _ & _ & ->). apply firstn_capped.
  - intros tc Hin.
    destruct ts; try (rewrite Ht in Hin; contradiction).
    destruct Ht as (ks & cut & _ & Hcut & Heq). rewrite Heq in Hin.
    apply firstn_In in Hin.
    destruct (Forall2_In_right _ _ _ _ (mapM_Forall2 _ _ _ Hcut) Hin) as (x & _ & Hx).
    destruct x as [| | | |s0| |]; try discriminate Hx.
    exists (firstn 500 s0). split; [|apply firstn_capped].
    change (Ok (VStr (firstn 500 s0)) = Ok tc) in Hx. congruence.
  - intros c Hin. rewrite Hc in Hin.
    destruct cs; try contradiction.
    apply firstn_In, filter_In in Hin. now apply kept_fields.
  - intros p Hin. rewrite Hp in Hin.
    destruct ps; try contradiction.
    apply firstn_In, filter_In in Hin. now apply kept_fields.
  - now left.
Qed.

(** The raw-text fallback is a review document, too. *)
Lemma raw_text_document (text : jsstring) :
  ReviewDocument (with_summary (substring0 2000 text) Review.createDefaultReview).
Proof.
  constructor.
  - change (List.length (firstn 2000 text) <= 3000).
    pose proof (firstn_capped 2000 text). lia.
  - apply Nat.leb_le. reflexivity.
  - apply Nat.leb_le. reflexivity.
  - apply Nat.leb_le. reflexivity.
  - intros tc [].
  - intros c [].
  - intros p [].
  - now right.
Qed.

Ltac carries_it := repeat split; vm_compute; reflexivity.

(* ================================================================== *)
(** * The review route *)

Lemma valid_body_reads (body : value) :
  valid_pr_body body ->
  truthy body = true
  /\ get_or body "title" (VStr []) = Ok (VStr (field_text body "title"))
  /\ get_or body "description" (VStr []) = Ok (VStr (field_text body "description"))
  /\ get_or body "diffs" (VStr []) = Ok (VStr (field_text body "diffs"))
  /\ get_or body "filesChanged" (VArr [])
     = Ok (VArr (field_array body "filesChanged"))
  /\ nonblank (field_text body "diffs") = true
  /\ (jslength (field_text body "diffs") <= 100000)%N.
Proof.
  intros (Ht & _ & (s & Hs & Hnb & Hlen) & Htl & Hds & Hf).
  unfold get_or, field_text, field_array.
  rewrite Hs. cbn [rbind].
  repeat split; try assumption.
  - destruct Htl as [->|(t & -> & _)]; reflexivity.
  - destruct Hds as [->|(t & -> & _)]; reflexivity.
  - destruct Hf as [->|(l & -> & _)]; reflexivity.
Qed.

Section ReviewRoute.
Context {W : Type} {host : Host W}.
Variable E : env.
Variable cfg : settings.
Variable JSON_parse : jsstring -> option value.
Variable now : W -> jsstring.
Variable stack : exn -> value.

Lemma generate_run (t d s : jsstring) (f : list value) (st : state W) :
  ReviewPR.generate E JSON_parse now (VStr t) (VStr d) (VStr s) (VArr f) st
  = let files := filter is_string (firstn 100 f) in
    let prompt :=
      Prompts.reviewPrompt (VStr (substring0 500 t)) (VStr (substring0 5000 d))
        (VStr s) files in
    match Router.callModel E (vstr "gemini-2.0-pro")
            (ReviewPR.messages_of prompt) (vint 2000) st with
    | (Throw e, st') =>
        (Throw (Error (str "AI service unavailable: " ++ message e)), st')
    | (Ok result, st') =>
        if negb (truthy result) then
          (Throw (Error (str "Null response from AI model")), st')
        else
          match get result "choices" with
          | Throw e => (Throw e, st')
          | Ok (VArr (c0 :: _)) => ReviewPR.respond JSON_parse now c0 files st'
          | Ok _ =>
              send 500
                (("error", vstr "Invalid API response structure")
                 :: review_fields Review.createDefaultReview) st'
          end
    end.
Proof.
  cbv zeta. unfold ReviewPR.generate.
  set (files := filter is_string (firstn 100 f)).
  set (prompt := Prompts.reviewPrompt _ _ _ files).
  assert (Hne : negb (truthy (VStr prompt)) || (List.length prompt =? 0)%nat = false).
  { pose proof (reviewPrompt_nonblank (VStr (substring0 500 t))
                  (VStr (substring0 5000 d)) (VStr s) files) as Hnb.
    fold prompt in Hnb. apply nonblank_nonempty in Hnb.
    destruct prompt; [congruence|reflexivity]. }
  unfold bind, lift, catch, throw, ret. cbn [get_length].
  rewrite Hne.
  destruct (Router.callModel E (vstr "gemini-2.0-pro")
              (ReviewPR.messages_of prompt) (vint 2000) st) as [[result|e] st'];
    [|reflexivity].
  destruct (negb (truthy result)); [reflexivity|].
  destruct (get result "choices") as [[| | | | |[|c0 rest]|]|e]; reflexivity.
Qed.

Lemma respond_completion (c0 m : value) (s : jsstring) (files : list value)
    (st : state W) :
  get c0 "message" = Ok m ->
  get m "content" = Ok (VStr s) ->
  nonblank s = true ->
  ReviewPR.respond JSON_parse now c0 files st
  = (Ok {| reply_status := 200;
           reply_body :=
             match Review.extractJSON JSON_parse (VStr s) with
             | Throw _ =>
                 obj (review_fields
                        (with_summary (substring0 2000 s) Review.createDefaultReview)
                      ++ [("rawResponse", VBool true);
                          ("timestamp", VStr (now (world st)))])
             | Ok reviewData =>
                 obj (review_fields (Review.validateReview reviewData)
                      ++ [("timestamp", VStr (now (world st)));
                          ("filesAnalyzed", vnat (List.length files))])
             end |}, st).
Proof.
  intros Hm Hc Hnb. unfold ReviewPR.respond, bind, lift.
  rewrite Hm.
  assert (Hopt : get_opt m "content" = Ok (VStr s)).
  { destruct m; try discriminate Hc; exact Hc. }
  rewrite Hopt.
  pose proof Hnb as Hlen. rewrite <- nonblank_trim_length in Hlen.
  destruct s as [|c t]; [discriminate Hnb|].
  destruct (List.length (trim (c :: t)) =? 0)%nat; [discriminate Hlen|].
  destruct (Review.extractJSON JSON_parse (VStr (c :: t))); reflexivity.
Qed.
End ReviewRoute.

Section ReviewRouteTheorems.
Context {W : Type} {host : Host W}.
Variable E : env.
Variable cfg : settings.
Variable JSON_parse : jsstring -> option value.
Variable now : W -> jsstring.
Variable stack : exn -> value.

Lemma checked_body_reads (body : value) (errors : list jsstring) :
  ReviewPR.validatePRInput body = Ok errors ->
  exists t d s f,
    get_or (if truthy body then body else VObj []) "title" (VStr []) = Ok t
    /\ get_or (if truthy body then body else VObj []) "description" (VStr []) = Ok d
    /\ get_or (if truthy body then body else VObj []) "diffs" (VStr []) = Ok s
    /\ get_or (if truthy body then body else VObj []) "filesChanged" (VArr []) = Ok f.
Proof.
  unfold ReviewPR.validatePRInput, get_or.
  destruct (truthy body) eqn:Ht.
  2: { intros _. repeat eexists. }
  destruct body as [| |b|n|s|l|props]; try discriminate Ht;
    try (intros _; repeat eexists; fail).
  cbn [negb orb is_object typeof].
  destruct (get (VObj props) "diffs") as [d0|e]; cbn [rbind]; [|discriminate].
  destruct (get (VObj props) "title") as [t0|e]; cbn [rbind]; [|discriminate].
  destruct (get (VObj props) "description") as [ds0|e]; cbn [rbind]; [|discriminate].
  destruct (get (VObj props) "filesChanged") as [f0|e]; cbn [rbind]; [|discriminate].
  intros _. repeat eexists.
Qed.

Lemma post_invalid (body : value) (e : jsstring) (es : list jsstring)
    (st : state W) :
  ReviewPR.validatePRInput body = Ok (e :: es) ->
  ReviewPR.post E cfg JSON_parse now stack body st
  = (Ok {| reply_status := 400;
           reply_body :=
             obj ([("error", vstr "Validation failed");
                   ("details", VArr (map VStr (e :: es)));
                   ("suggestion", vstr "Check request parameters")]
                  ++ review_fields Review.createDefaultReview) |}, st).
Proof.
  intros Hv.
  destruct (checked_body_reads body _ Hv) as (t & d & s & f & Ht & Hd & Hs & Hf).
  unfold ReviewPR.post, catch, bind, lift. cbv zeta.
  rewrite Ht, Hd, Hs, Hf, Hv. reflexivity.
Qed.

Lemma post_valid (body : value) (st : state W) :
  valid_pr_body body ->
  ReviewPR.post E cfg JSON_parse now stack body st
  = catch
      (ReviewPR.generate E JSON_parse now
         (VStr (field_text body "title"))
         (VStr (field_text body "description"))
         (VStr (field_text body "diffs"))
         (VArr (field_array body "filesChanged")))
      (ReviewPR.failed cfg stack) st.
Proof.
  intros Hvalid.
  destruct (valid_body_reads body Hvalid) as (Htr & Ht & Hd & Hs & Hf & _).
  apply validatePRInput_valid in Hvalid.
  unfold ReviewPR.post, catch, bind, lift. cbv zeta.
  rewrite Htr, Ht, Hd, Hs, Hf, Hvalid. reflexivity.
Qed.

(** X6: a body that fails the input check is answered 400 with the list of
    errors and the default review, and nothing else happens: the router is
    not called and no client is set up. *)
Theorem review_route_rejects_invalid_input (body : value) (e : jsstring)
    (es : list jsstring) (st : state W) :
  ReviewPR.validatePRInput body = Ok (e :: es) ->
  exists r,
    ReviewPR.post E cfg JSON_parse now stack body st = (Ok r, st)
    /\ reply_status r = 400%N
    /\ get (reply_body r) "error" = Ok (vstr "Validation failed")
    /\ get (reply_body r) "details" = Ok (VArr (map VStr (e :: es)))
    /\ carries (reply_body r) Review.createDefaultReview.
Proof.
  intros Hv. eexists. split; [apply (post_invalid body e es st Hv)|].
  cbn [reply_status reply_body]. split; [reflexivity|].
  split; [reflexivity|]. split; [reflexivity|]. carries_it.
Qed.

Lemma review_run_errors (prompt : jsstring) (st : state W) (err : exn) :
  nonblank prompt = true ->
  fst (Router.callModel E (vstr "gemini-2.0-pro") (ReviewPR.messages_of prompt)
         (vint 2000) st) = Throw err ->
  (err = Error (str "message content exceeds maximum length (100KB)")
   /\ (100000 < jslength prompt)%N
   /\ snd (Router.callModel E (vstr "gemini-2.0-pro") (ReviewPR.messages_of prompt)
             (vint 2000) st) = st)
  \/ (err = Error Router.all_failed /\ (jslength prompt <= 100000)%N).
Proof.
  intros Hnb Hrun.
  destruct (N.ltb_spec 100000 (jslength prompt)) as [Hlong|Hshort].
  - left.
    pose proof (one_message_too_long
                  (obj [("role", vstr "user"); ("content", VStr prompt)]) prompt
                  eq_refl eq_refl eq_refl Hlong) as Hm.
    unfold ReviewPR.messages_of in *.
    rewrite (Router_rejects_messages E _ _ (vint 2000) st _ Hm) in *.
    simpl in Hrun. injection Hrun as <-. auto.
  - right. split; [|assumption].
    destruct (one_message_valid
                (obj [("role", vstr "user"); ("content", VStr prompt)]) prompt
                eq_refl eq_refl eq_refl Hnb Hshort) as [Hvalid _].
    destruct (Router_valid_run E (vstr "gemini-2.0-pro") (vint 2000) _ (Fin 2000) st
                Hvalid eq_refl) as [(v & Hv & _)|[Hf _]];
      unfold ReviewPR.messages_of in Hrun; congruence.
Qed.

Lemma failed_reply (err : exn) (st : state W) :
  includes (str "Validation") (message err) = false ->
  exists r,
    ReviewPR.failed cfg stack err st = (Ok r, st)
    /\ reply_status r = 500%N
    /\ get (reply_body r) "error" = Ok (vstr "Internal server error during review")
    /\ get (reply_body r) "message"
       = Ok (if development cfg then VStr (message err)
             else vstr "Please try again")
    /\ carries (reply_body r) Review.createDefaultReview.
Proof.
  intros Hinc. unfold ReviewPR.failed, send, ret. rewrite Hinc.
  eexists. split; [reflexivity|]. cbn [reply_status reply_body].
  split; [reflexivity|]. split; [reflexivity|]. split; [reflexivity|].
  carries_it.
Qed.

(** X7: the review route on a body it lets through. The router is called once,
    with the one message that holds the prompt and a budget of 2000. If
    that fails, the answer is 500 with the default review; it is never 400.
    If it returns, the answer is 200: with the sanitized document when the
    text of the completion decodes, and with the default review around the
    first 2000 characters of the text when it does not. *)
Theorem review_route_on_valid_input (body : value) (st : state W) :
  valid_pr_body body ->
  let run := Router.callModel E (vstr "gemini-2.0-pro")
               (ReviewPR.messages_of (review_prompt body)) (vint 2000) st in
  exists r,
    ReviewPR.post E cfg JSON_parse now stack body st = (Ok r, snd run)
    /\ match fst run with
       | Throw err =>
           reply_status r = 500%N
           /\ get (reply_body r) "message"
              = Ok (if development cfg
                    then VStr (str "AI service unavailable: " ++ message err)
                    else vstr "Please try again")
           /\ carries (reply_body r) Review.createDefaultReview
       | Ok v =>
           reply_status r = 200%N
           /\ exists s,
                content_of v s
                /\ match Review.extractJSON JSON_parse (VStr s) with
                   | Ok data =>
                       carries (reply_body r) (Review.validateReview data)
                       /\ get (reply_body r) "filesAnalyzed"
                          = Ok (vnat (List.length (safe_files body)))
                   | Throw _ =>
                       carries (reply_body r)
                         (with_summary (substring0 2000 s)
                            Review.createDefaultReview)
                       /\ get (reply_body r) "rawResponse" = Ok (VBool true)
                   end
       end.
Proof.
  intros Hvalid run.
  rewrite (post_valid body st Hvalid). unfold catch.
  rewrite generate_run. cbv zeta.
  change (Prompts.reviewPrompt (VStr (substring0 500 (field_text body "title")))
            (VStr (substring0 5000 (field_text body "description")))
            (VStr (field_text body "diffs"))
            (filter is_string (firstn 100 (field_array body "filesChanged"))))
    with (review_prompt body).
  fold run.
  pose proof (reviewPrompt_nonblank
                (VStr (substring0 500 (field_text body "title")))
                (VStr (substring0 5000 (field_text body "description")))
                (VStr (field_text body "diffs")) (safe_files body)) as Hnb.
  change (nonblank (review_prompt body) = true) in Hnb.
  destruct run as [[v|err] st'] eqn:Hrun; cbn [fst snd].
  - assert (Hc : completion v).
    { apply (Router_callModel_completion E (vstr "gemini-2.0-pro")
               (ReviewPR.messages_of (review_prompt body)) (vint 2000) st).
      fold run. now rewrite Hrun. }
    destruct (completion_get v Hc)
      as (c0 & rest & m & s & _ & _ & Htr & Hch & _ & Hm & _ & Hs & _ & Hs_nb).
    rewrite Htr, Hch. cbn [negb].
    rewrite (respond_completion JSON_parse now c0 m s _ st' Hm Hs Hs_nb).
    eexists. split; [reflexivity|]. cbn [reply_status reply_body].
    split; [reflexivity|].
    exists s. split; [now exists c0, rest, m|].
    destruct (Review.extractJSON JSON_parse (VStr s)).
    + split; [carries_it|reflexivity].
    + split; [carries_it|reflexivity].
  - assert (Herr : fst run = Throw err) by now rewrite Hrun.
    apply (review_run_errors _ st err Hnb) in Herr.
    assert (Hinc : includes (str "Validation")
                     (message (Error (str "AI service unavailable: " ++ message err)))
                   = false).
    { destruct Herr as [(-> & _)|(-> & _)]; vm_compute; reflexivity. }
    destruct (failed_reply _ st' Hinc) as (r & Hr & Hst & _ & Hmsg & Hcar).
    exists r. split; [exact Hr|]. auto.
Qed.

(** X8: [diffs] that pass the size check of the route can still be too long
    for the router. The prompt adds at least 775 characters to them, and the
    router takes no message above 100000: a body the route lets through
    whose [diffs] have more than 99225 characters is answered 500 without
    any provider being called. *)
Theorem review_route_turns_down_long_diffs (body : value) (st : state W) :
  valid_pr_body body ->
  (99225 < jslength (field_text body "diffs"))%N ->
  exists r,
    ReviewPR.post E cfg JSON_parse now stack body st = (Ok r, st)
    /\ reply_status r = 500%N
    /\ get (reply_body r) "message"
       = Ok (if development cfg
             then vstr "AI service unavailable: message content exceeds maximum length (100KB)"
             else vstr "Please try again")
    /\ carries (reply_body r) Review.createDefaultReview.
Proof.
  intros Hvalid Hlong.
  assert (Hprompt : (100000 < jslength (review_prompt body))%N).
  { unfold review_prompt, jslength in *. rewrite reviewPrompt_length.
    set (t := substring0 500 (field_text body "title")).
    set (d := substring0 5000 (field_text body "description")).
    assert (Ht : 1 <= List.length (if truthy (VStr t) then ToString (VStr t)
                                   else str "Untitled PR")).
    { destruct t; simpl; lia. }
    assert (Hd : 1 <= List.length (if truthy (VStr d) then ToString (VStr d)
                                   else str "No description provided")).
    { destruct d; simpl; lia. }
    cbn [ToString] in *. lia. }
  pose proof (one_message_too_long
                (obj [("role", vstr "user"); ("content", VStr (review_prompt body))])
                (review_prompt body) eq_refl eq_refl eq_refl Hprompt) as Hm.
  pose proof (Router_rejects_messages E (vstr "gemini-2.0-pro") _ (vint 2000) st _ Hm)
    as Hrun.
  rewrite (post_valid body st Hvalid). unfold catch.
  rewrite generate_run. cbv zeta.
  change (Prompts.reviewPrompt (VStr (substring0 500 (field_text body "title")))
            (VStr (substring0 5000 (field_text body "description")))
            (VStr (field_text body "diffs"))
            (filter is_string (firstn 100 (field_array body "filesChanged"))))
    with (review_prompt body).
  unfold ReviewPR.messages_of. rewrite Hrun.
  destruct (failed_reply
              (Error (str "AI service unavailable: "
                      ++ str "message content exceeds maximum length (100KB)")) st)
    as (r & Hr & Hst & _ & Hmsg & Hcar).
  { vm_compute. reflexivity. }
  exists r. split; [exact Hr|]. auto.
Qed.

Lemma review_reply_default (status : N) (before : list (string * value)) :
  (status = 200 \/ status = 400 \/ status = 500)%N ->
  carries (obj (before ++ review_fields Review.createDefaultReview))
    Review.createDefaultReview ->
  review_reply {| reply_status := status;
                  reply_body := obj (before ++ review_fields Review.createDefaultReview) |}.
Proof.
  intros Hs Hc. split; [exact Hs|].
  exists Review.createDefaultReview. split; [apply default_is_ReviewDocument|exact Hc].
Qed.

Tactic Notation "bound_as" ident(x) := apply may_return_bind; intros x.

(** X9: the review route always answers, and always with a review. Whatever
    the request body is and whatever the providers do, the handler ends with
    a reply of status 200, 400 or 500 whose body carries a document that
    keeps the invariants of the sanitizer: no exception leaves it. *)
Theorem review_route_always_answers (body : value) (st : state W) :
  exists r st',
    ReviewPR.post E cfg JSON_parse now stack body st = (Ok r, st')
    /\ review_reply r.
Proof.
  revert st. change (returns review_reply (ReviewPR.post E cfg JSON_parse now stack body)).
  unfold ReviewPR.post. apply returns_catch.
  - cbv zeta. bound_as title. bound_as description. bound_as diffs.
    bound_as filesChanged. bound_as errors.
    destruct errors as [|e es].
    + unfold ReviewPR.generate. bound_as files_length. bound_as diffs_length.
      bound_as checked. bound_as result.
      destruct (negb (truthy result)); [apply may_return_throw|].
      bound_as choices.
      destruct choices as [| | | | |[|c0 rest]|];
        try (apply may_return_ret;
             apply (review_reply_default 500 [("error", vstr "Invalid API response structure")]);
             [auto|carries_it]).
      unfold ReviewPR.respond. bound_as msg. bound_as responseText.
      destruct responseText as [| | | |[|c t]| |];
        try (apply may_return_ret;
             apply (review_reply_default 500 [("error", vstr "Empty response from AI model")]);
             [auto|carries_it]).
      destruct (List.length (trim (c :: t)) =? 0)%nat.
      { apply may_return_ret.
        apply (review_reply_default 500 [("error", vstr "AI returned empty response")]);
          [auto|carries_it]. }
      destruct (Review.extractJSON JSON_parse (VStr (c :: t))) as [data|parseErr].
      * bound_as ts. apply may_return_ret. split; [now left|].
        exists (Review.validateReview data).
        split; [apply validateReview_document|carries_it].
      * bound_as ts. apply may_return_ret. split; [now left|].
        exists (with_summary (substring0 2000 (c :: t)) Review.createDefaultReview).
        split; [apply raw_text_document|carries_it].
    + apply may_return_ret.
      apply (review_reply_default 400
               [("error", vstr "Validation failed");
                ("details", VArr (map VStr (e :: es)));
                ("suggestion", vstr "Check request parameters")]);
        [auto|carries_it].
  - intros err st'. unfold ReviewPR.failed, send, ret.
    eexists. eexists. split; [reflexivity|].
    apply (review_reply_default _
             [("error", vstr "Internal server error during review");
              ("message", if development cfg then VStr (message err)
                          else vstr "Please try again");
              ("details", if development cfg then stack err else VUndefined)]).
    + destruct (includes (str "Validation") (message err)); auto.
    + carries_it.
Qed.
End ReviewRouteTheorems.

(* ================================================================== *)
(** * The chat route *)

Lemma num_lt_integers (a b : Z) :
  num_lt (Fin (inject_Z a)) (Fin (inject_Z b)) = (a <? b)%Z.
Proof.
  unfold num_lt, Qcompare, inject_Z. simpl.
  rewrite !Z.mul_1_r. unfold Z.ltb. now destruct (a ?= b)%Z.
Qed.

Lemma is_zero_vnat (n : nat) : is_zero (vnat n) = (n =? 0)%nat.
Proof.
  unfold is_zero, vnat, vint, Qeq_bool, inject_Z. simpl.
  rewrite Z.mul_1_r. destruct n; [reflexivity|].
  simpl. reflexivity.
Qed.

Section ChatFacts.
Context {W : Type} {host : Host W}.

Lemma greater_vnat (n : nat) (limit : Z) :
  greater (vnat n) (Fin (inject_Z limit)) = (limit <? Z.of_nat n)%Z.
Proof. unfold greater, vnat, vint. cbn [ToNumber]. apply num_lt_integers. Qed.

(** [validateChatInput] on a body whose [message] is a string. *)
Lemma validateChatInput_string (body : value) (s : jsstring) :
  get body "message" = Ok (VStr s) ->
  Chat.validateChatInput body
  = Ok (match s with
        | [] => [str "message is required and must be a string"]
        | _ :: _ =>
            if (10000 <? jslength s)%N
            then [str "message exceeds maximum length (10KB)"]
            else []
        end).
Proof.
  intros Hm. unfold Chat.validateChatInput. rewrite Hm. cbn [rbind].
  destruct s as [|c s]; [reflexivity|].
  cbn [truthy is_string typeof negb orb get_length rbind app].
  rewrite is_zero_vnat.
  change (Fin 10000) with (Fin (inject_Z 10000)). rewrite greater_vnat.
  cbn [List.length Nat.eqb app].
  replace (10000 <? Z.of_nat (S (List.length s)))%Z
    with (10000 <? jslength (c :: s))%N; [reflexivity|].
  unfold jslength. cbn [List.length].
  destruct (N.ltb_spec 10000 (N.of_nat (S (List.length s))));
    destruct (Z.ltb_spec 10000 (Z.of_nat (S (List.length s)))); try reflexivity; lia.
Qed.

Lemma validateChatInput_valid (body : value) :
  Chat.validateChatInput body = Ok [] <-> valid_chat_body body.
Proof.
  split.
  - destruct (get body "message") as [m|e] eqn:Hm.
    2: { unfold Chat.validateChatInput. rewrite Hm. discriminate. }
    destruct m as [| |b|n|s|l|p].
    5: { rewrite (validateChatInput_string body s Hm). intros H.
         exists s. split; [exact Hm|]. clear Hm.
         destruct s as [|c s]; [discriminate H|]. split; [discriminate|].
         destruct (10000 <? jslength (c :: s))%N eqn:Hl; [discriminate H|].
         now apply N.ltb_ge. }
    all: unfold Chat.validateChatInput; rewrite Hm; cbn [rbind].
    + discriminate.
    + discriminate.
    + destruct b; cbn [truthy negb orb is_string typeof get_length rbind app];
        discriminate.
    + destruct (truthy (VNum n)); cbn [negb orb is_string typeof get_length rbind app];
        discriminate.
    + cbn [truthy negb orb is_string typeof].
      destruct (get_length (VArr l)); cbn [rbind app]; discriminate.
    + cbn [truthy negb orb is_string typeof].
      destruct (get_length (VObj p)); cbn [rbind app]; discriminate.
  - intros (s & Hm & Hne & Hlen).
    rewrite (validateChatInput_string body s Hm).
    destruct s as [|c s]; [congruence|].
    apply N.ltb_ge in Hlen. now rewrite Hlen.
Qed.

(** X10: the input check of the chat route on a string. An empty [message] is
    reported as missing, one of more than 10000 characters as too long, and
    any other string passes, blank or not; the error ["message cannot be
    empty"] is never given for a string. *)
Theorem validateChatInput_on_strings (body : value) (s : jsstring) :
  get body "message" = Ok (VStr s) ->
  Chat.validateChatInput body
  = Ok (match s with
        | [] => [str "message is required and must be a string"]
        | _ :: _ =>
            if (10000 <? jslength s)%N
            then [str "message exceeds maximum length (10KB)"]
            else []
        end)
  /\ forall errors, Chat.validateChatInput body = Ok errors ->
                    ~ In (str "message cannot be empty") errors.
Proof.
  intros Hm. pose proof (validateChatInput_string body s Hm) as Hv.
  split; [exact Hv|].
  intros errors He. rewrite Hv in He. injection He as <-.
  destruct s as [|c s].
  - intros [H|[]]. discriminate H.
  - destruct (10000 <? jslength (c :: s))%N.
    + intros [H|[]]. discriminate H.
    + intros [].
Qed.
End ChatFacts.

Lemma content_path_completion (v : value) (s : jsstring) :
  content_of v s -> content_path v = Ok (VStr s).
Proof.
  intros (c0 & rest & m & Hch & Hm & Hs).
  unfold content_path.
  assert (Hv : get_opt v "choices" = Ok (VArr (c0 :: rest))).
  { destruct v; try discriminate Hch; exact Hch. }
  rewrite Hv. cbn [rbind get_first].
  assert (Hm' : get_opt c0 "message" = Ok m).
  { destruct c0; try discriminate Hm; exact Hm. }
  rewrite Hm'. cbn [rbind].
  destruct m; try discriminate Hs; exact Hs.
Qed.

Section ChatRoute.
Context {W : Type} {host : Host W}.
Variable E : env.
Variable cfg : settings.
Variable now : W -> jsstring.

Lemma chat_run (modelName : value) (prompt : jsstring) (st : state W) :
  nonblank prompt = true ->
  (jslength prompt <= 100000)%N ->
  let run := Router.callModel E modelName (Chat.messages_of prompt) VUndefined st in
  (exists v, fst run = Ok v /\ completion v)
  \/ (fst run = Throw (Error Router.all_failed) /\ mockMode E = false).
Proof.
  intros Hnb Hlen.
  destruct (one_message_valid
              (obj [("role", vstr "system"); ("content", VStr prompt)]) prompt
              eq_refl eq_refl eq_refl Hnb Hlen) as [Hvalid _].
  exact (Router_valid_run E modelName VUndefined _ (Fin (inject_Z 200)) st
           Hvalid eq_refl).
Qed.

(** X11: the chat route on a message it lets through. The prompt built around
    the message always passes the checks of the router, so the run either
    returns a completion, and the answer is 200 with its text, the model
    name of [pickModel("chat")] and the time, or every provider has failed,
    and the answer is 500; nothing else can happen. *)
Theorem chat_route_on_valid_input (body : value) (s : jsstring) (st : state W) :
  get body "message" = Ok (VStr s) ->
  s <> [] ->
  (jslength s <= 10000)%N ->
  let model := env_or (MODEL_CHAT cfg) "gemini-2.0-pro" in
  let run := Router.callModel E (VStr model)
               (Chat.messages_of (Prompts.chatPrompt (VStr s))) VUndefined st in
  exists r,
    Chat.post E cfg now body st = (Ok r, snd run)
    /\ match fst run with
       | Ok v =>
           reply_status r = 200%N
           /\ exists text,
                content_of v text /\ nonblank text = true
                /\ reply_body r
                   = obj [("answer", VStr text); ("model", VStr model);
                          ("timestamp", VStr (now (world (snd run))))]
       | Throw err =>
           err = Error Router.all_failed
           /\ reply_status r = 500%N
           /\ reply_body r
              = obj [("error", vstr "Failed to generate chat response");
                     ("message", if development cfg then VStr Router.all_failed
                                 else VUndefined)]
       end.
Proof.
  intros Hm Hne Hlen model run.
  assert (Hvalid : Chat.validateChatInput body = Ok []).
  { apply validateChatInput_valid. now exists s. }
  assert (Hd : destructure "req.body" body "message" = Ok (VStr s)).
  { destruct body; try discriminate Hm; exact Hm. }
  assert (Hnb : nonblank (Prompts.chatPrompt (VStr s)) = true)
    by apply chatPrompt_nonblank.
  assert (Hpl : (jslength (Prompts.chatPrompt (VStr s)) <= 100000)%N).
  { unfold jslength in *. rewrite chatPrompt_length. cbn [ToString]. lia. }
  unfold Chat.post, catch, bind, lift. rewrite Hd, Hvalid.
  change (RouterExports.pickModel cfg (vstr "chat")) with (Picked model).
  cbn [picked_value]. fold run.
  destruct (chat_run (VStr model) _ st Hnb Hpl) as [(v & Hv & Hc)|[Hf _]];
    fold run in Hv || fold run in Hf.
  - destruct run as [[v'|e] st'] eqn:Hrun; simpl in Hv; [|discriminate].
    injection Hv as ->. destruct Hc as (text & Hct & Htnb).
    rewrite (content_path_completion v text Hct).
    assert (Htr : truthy (VStr text) = true).
    { destruct text; [discriminate Htnb|reflexivity]. }
    rewrite Htr. cbn [negb]. unfold timestamp, send, ret.
    eexists. split; [reflexivity|]. cbn [fst snd reply_status reply_body].
    split; [reflexivity|]. exists text. auto.
  - destruct run as [[v'|e] st'] eqn:Hrun; simpl in Hf; [discriminate|].
    injection Hf as ->. unfold send, ret.
    eexists. split; [reflexivity|]. cbn [fst snd reply_status reply_body].
    auto.
Qed.
End ChatRoute.

(* ================================================================== *)
(** * The routes on examples *)

Lemma review_route_rejects_invalid_input_witness :
  exists r,
    ReviewPR.post (host := host_down) env_all_keys dev MiniJSON.parse noon no_stack
      body_with_odd_files fresh = (Ok r, fresh)
    /\ reply_status r = 400%N
    /\ get (reply_body r) "details"
       = Ok (VArr [vstr "filesChanged[1] must be a string"]).
Proof.
  destruct (review_route_rejects_invalid_input (host := host_down) env_all_keys dev
              MiniJSON.parse noon no_stack body_with_odd_files
              (str "filesChanged[1] must be a string") [] fresh)
    as (r & Hr & Hs & _ & Hd & _).
  - reflexivity.
  - exists r. split; [exact Hr|]. split; [exact Hs|exact Hd].
Defined.

Lemma review_route_on_valid_input_witness :
  valid_pr_body small_pr
  /\ exists r st',
       ReviewPR.post (host := host_groq_up) env_all_keys dev MiniJSON.parse noon
         no_stack small_pr fresh = (Ok r, st')
       /\ List.length (calls st') = 3.
Proof.
  assert (Hvalid : valid_pr_body small_pr).
  { apply validatePRInput_valid. reflexivity. }
  split; [exact Hvalid|].
  destruct (review_route_on_valid_input (host := host_groq_up) env_all_keys dev
              MiniJSON.parse noon no_stack small_pr fresh Hvalid)
    as (r & Hr & _).
  exists r. eexists. split; [exact Hr|]. vm_compute. reflexivity.
Defined.

Lemma get_first_field (k : string) (v : value) (rest : list (string * value)) :
  get (obj ((k, v) :: rest)) k = Ok v.
Proof.
  unfold get, obj. cbn [map lookup fst snd].
  now rewrite (proj2 (jseqb_eq (str k) (str k)) eq_refl).
Qed.

Lemma get_other_field (k k' : string) (v : value) (rest : list (string * value)) :
  jseqb (str k') (str k) = false ->
  get (obj ((k, v) :: rest)) k' = get (obj rest) k'.
Proof. intros H. unfold get, obj. cbn [map lookup fst snd]. now rewrite H. Qed.

Lemma letters_nonblank (n : nat) : n <> 0 -> nonblank (repeat 97%N n) = true.
Proof.
  intros Hn. rewrite nonblank_spec. destruct n; [congruence|reflexivity].
Qed.

Lemma long_diffs_length : jslength long_diffs = 99226%N.
Proof. unfold jslength, long_diffs. now rewrite repeat_length, N2Nat.id. Qed.

Lemma review_route_turns_down_long_diffs_witness :
  valid_pr_body long_pr
  /\ exists r,
       ReviewPR.post (host := host_groq_up) env_all_keys dev MiniJSON.parse noon
         no_stack long_pr fresh = (Ok r, fresh)
       /\ reply_status r = 500%N.
Proof.
  assert (Hvalid : valid_pr_body long_pr).
  { unfold long_pr.
    split; [vm_compute; reflexivity|]. split; [vm_compute; reflexivity|].
    split; [|split; [|split]].
    - exists long_diffs. split; [apply get_first_field|]. split.
      + apply letters_nonblank. lia.
      + rewrite long_diffs_length. lia.
    - left. now rewrite get_other_field.
    - left. now rewrite get_other_field.
    - left. now rewrite get_other_field. }
  split; [exact Hvalid|].
  destruct (review_route_turns_down_long_diffs (host := host_groq_up) env_all_keys
              dev MiniJSON.parse noon no_stack long_pr fresh Hvalid)
    as (r & Hr & Hs & _).
  - unfold field_text, long_pr. rewrite get_first_field, long_diffs_length. lia.
  - exists r. split; [exact Hr|exact Hs].
Defined.

Lemma validateChatInput_on_strings_witness :
  Chat.validateChatInput (host := host_down) (obj [("message", vstr "   ")]) = Ok [].
Proof.
  exact (proj1 (validateChatInput_on_strings (host := host_down)
                  (obj [("message", vstr "   ")]) (str "   ") eq_refl)).
Defined.

Lemma chat_route_on_valid_input_witness :
  exists r st',
    Chat.post (host := host_groq_up) env_all_keys dev noon chat_hi fresh = (Ok r, st')
    /\ List.length (calls st') = 3.
Proof.
  destruct (chat_route_on_valid_input (host := host_groq_up) env_all_keys dev noon
              chat_hi (str "hi") fresh)
    as (r & Hr & _).
  - reflexivity.
  - discriminate.
  - vm_compute. discriminate.
  - exists r. eexists. split; [exact Hr|]. vm_compute. reflexivity.
Defined.

(* ================================================================== *)
(** * [buildFileContext] *)

(* ------------------------------------------------------------------ *)
(** * Numbers that are integers *)

Lemma Qred_inject_Z (z : Z) : Qred (inject_Z z) = inject_Z z.
Proof.
  unfold Qred, inject_Z. simpl Qnum. simpl Qden.
  pose proof (Z.ggcd_correct_divisors z 1) as H.
  pose proof (Z.ggcd_gcd z 1) as Hg.
  destruct (Z.ggcd z 1) as [g [aa bb]]. simpl in *.
  rewrite Z.gcd_1_r in Hg. subst g. destruct H as [Ha Hb].
  rewrite Z.mul_1_l in Ha, Hb. subst aa bb. reflexivity.
Qed.

Lemma num_add_integers (a b : Z) :
  num_add (Fin (inject_Z a)) (Fin (inject_Z b)) = Fin (inject_Z (a + b)).
Proof.
  unfold num_add. f_equal.
  rewrite <- (Qred_inject_Z (a + b)). apply Qred_complete.
  rewrite inject_Z_plus. reflexivity.
Qed.

Lemma num_sub_integers (a b : Z) :
  num_sub (Fin (inject_Z a)) (Fin (inject_Z b)) = Fin (inject_Z (a - b)).
Proof.
  unfold num_sub, num_neg.
  change (- inject_Z b)%Q with (inject_Z (- b)).
  rewrite Qred_inject_Z, num_add_integers. reflexivity.
Qed.

Lemma Math_max_integers (a b : Z) :
  Math_max (Fin (inject_Z a)) (Fin (inject_Z b)) = Fin (inject_Z (Z.max a b)).
Proof.
  unfold Math_max. rewrite num_lt_integers.
  destruct (Z.ltb_spec a b); f_equal; f_equal; lia.
Qed.

Lemma Math_min_integers (a b : Z) :
  Math_min (Fin (inject_Z a)) (Fin (inject_Z b)) = Fin (inject_Z (Z.min a b)).
Proof.
  unfold Math_min. rewrite num_lt_integers.
  destruct (Z.ltb_spec b a); f_equal; f_equal; lia.
Qed.

Lemma relative_index_nat (n len : nat) :
  relative_index (number_of_nat n) len = Nat.min n len.
Proof.
  unfold relative_index, number_of_nat, inject_Z. simpl Qnum. simpl Qden.
  rewrite Z.quot_1_r.
  destruct (Z.ltb_spec (Z.of_nat n) 0); [lia|].
  now rewrite Nat2Z.id.
Qed.

(* ------------------------------------------------------------------ *)
(** * Lines *)

Lemma split_lines_cons (s : jsstring) :
  exists line rest, split_lines s = line :: rest.
Proof.
  destruct s as [|c s]; simpl; [now exists [], []|].
  destruct (c =? 10)%N; [now eexists; eexists|].
  destruct (split_lines s); now eexists; eexists.
Qed.

(** Splitting at the line feeds and joining with line feeds gives the text
    back. *)
Lemma join_split_lines (s : jsstring) : join [newline] (split_lines s) = s.
Proof.
  induction s as [|c s IH]; [reflexivity|]. cbn [split_lines].
  destruct (split_lines_cons s) as (line & rest & Hs). rewrite Hs in *.
  destruct (N.eqb_spec c 10) as [->|Hc].
  - rewrite join_cons, IH. reflexivity.
  - destruct rest as [|r rest].
    + simpl in *. now rewrite IH.
    + rewrite join_cons in *. rewrite <- IH. reflexivity.
Qed.

Lemma firstn_skipn_nth {A} (d : A) (l : list A) (s cnt : nat) :
  s + cnt <= List.length l ->
  firstn cnt (skipn s l) = map (fun n => nth n l d) (seq s cnt).
Proof.
  revert s l. induction cnt as [|cnt IH]; intros s l Hlen; [reflexivity|].
  simpl. destruct (skipn s l) as [|x t] eqn:Hsk.
  - apply (f_equal (@List.length A)) in Hsk. rewrite length_skipn in Hsk.
    simpl in Hsk. lia.
  - simpl. f_equal.
    + pose proof (nth_skipn s l 0 d) as Hn. rewrite Hsk in Hn. simpl in Hn.
      rewrite Nat.add_0_r in Hn. now symmetry.
    + rewrite <- IH by lia. f_equal.
      rewrite <- (Nat.add_1_l s), <- skipn_skipn, Hsk. reflexivity.
Qed.

Lemma map_indexed_map {A B} (f : A -> nat -> B) (d : A) (l : list A) (i : nat) :
  map_indexed f i l
  = map (fun n => f (nth (n - i) l d) n) (seq i (List.length l)).
Proof.
  revert i. induction l as [|x l IH]; intros i; [reflexivity|].
  simpl. rewrite Nat.sub_diag. f_equal. rewrite IH.
  apply map_ext_in. intros n Hn. apply in_seq in Hn.
  replace (n - i) with (S (n - S i)) by lia. reflexivity.
Qed.

Lemma map_indexed_slice {A B} (F : nat -> A -> B) (d : A) (l : list A) :
  forall cnt s i,
    s + cnt <= List.length l ->
    map_indexed (fun x idx => F idx x) i (firstn cnt (skipn s l))
    = map (fun j => F (i + j) (nth (s + j) l d)) (seq 0 cnt).
Proof.
  induction cnt as [|cnt IH]; intros s i Hlen; [reflexivity|].
  destruct (skipn s l) as [|x t] eqn:Hsk.
  - apply (f_equal (@List.length A)) in Hsk. rewrite length_skipn in Hsk.
    simpl in Hsk. lia.
  - cbn [firstn map_indexed seq map]. rewrite !Nat.add_0_r. f_equal.
    + pose proof (nth_skipn s l 0 d) as Hn. rewrite Hsk in Hn. simpl in Hn.
      rewrite Nat.add_0_r in Hn. now rewrite Hn.
    + assert (Ht : t = skipn (S s) l).
      { rewrite <- (Nat.add_1_l s), <- skipn_skipn, Hsk. reflexivity. }
      rewrite Ht, (IH (S s) (S i)) by lia.
      rewrite <- seq_shift, map_map. apply map_ext. intros j.
      now rewrite !Nat.add_succ_r.
Qed.

Lemma seq_from (s cnt : nat) : seq s cnt = map (fun j => s + j) (seq 0 cnt).
Proof.
  revert s. induction cnt as [|cnt IH]; intros s; [reflexivity|].
  cbn [seq map]. rewrite Nat.add_0_r. f_equal.
  rewrite (IH (S s)), <- (seq_shift cnt 0), map_map.
  apply map_ext. intros j. lia.
Qed.

Section ContextFacts.
Context {W : Type} {host : Host W}.
Variable parseInt : value -> number.

Lemma cursorLine_effective (parsed : number) (cl : nat) :
  integral parsed ->
  effective_line parsed = Some cl ->
  Math_max (Fin 0) (if truthy (VNum parsed) then parsed else Fin 0)
  = number_of_nat cl.
Proof.
  destruct parsed as [|[]|q]; cbn [effective_line integral]; intros Hi He;
    try discriminate.
  - injection He as <-. reflexivity.
  - injection He as <-. reflexivity.
  - destruct Hi as [z ->]. injection He as <-.
    change (Qnum (inject_Z z)) with z.
    unfold number_of_nat. cbn [truthy].
    destruct (Qeq_bool (inject_Z z) 0) eqn:Hz; cbn [negb].
    + apply Qeq_bool_eq in Hz. unfold Qeq in Hz. simpl in Hz.
      rewrite Z.mul_1_r in Hz. subst z. reflexivity.
    + change (Fin 0) with (Fin (inject_Z 0)).
      rewrite Math_max_integers.
      do 2 f_equal. lia.
Qed.

(** The context around the line [cl], with [k] lines of context. *)
Lemma context_at_host (c : jschar) (s : jsstring) (cursor line : value)
    (cl k : nat) :
  let lines := split_lines (c :: s) in
  get cursor "line" = Ok line ->
  Math_max (Fin 0) (if truthy (VNum (parseInt line)) then parseInt line else Fin 0)
    = number_of_nat cl ->
  ContextBuilder.buildFileContext parseInt (VStr (c :: s)) cursor (number_of_nat k)
  = Ok (join [newline]
          (numbered_by (fun n => NumberToString (number_of_nat n)) lines (cl - k)
             (Nat.min (cl + k) (List.length lines) - (cl - k)))).
Proof.
  intros lines Hget Hcl.
  unfold ContextBuilder.buildFileContext. fold lines. rewrite Hget. cbn [rbind].
  rewrite Hcl. unfold number_of_nat in *.
  rewrite num_sub_integers, num_add_integers.
  change (Fin 0) with (Fin (inject_Z 0)).
  rewrite Math_max_integers, Math_min_integers.
  replace (Z.max (Z.of_nat cl - Z.of_nat k) 0) with (Z.of_nat (cl - k)) by lia.
  replace (Z.min (Z.of_nat cl + Z.of_nat k) (Z.of_nat (List.length lines)))
    with (Z.of_nat (Nat.min (cl + k) (List.length lines))) by lia.
  unfold slice.
  pose proof relative_index_nat as Hri. unfold number_of_nat in Hri.
  rewrite !Hri. clear Hri.
  set (len := List.length lines) in *.
  set (st := cl - k).
  f_equal. f_equal.
  destruct (Nat.le_gt_cases len st) as [Hout|Hin].
  - replace (Nat.min (Nat.min (cl + k) len) len - Nat.min st len) with 0 by lia.
    replace (Nat.min (cl + k) len - st) with 0 by lia. reflexivity.
  - replace (Nat.min (Nat.min (cl + k) len) len - Nat.min st len)
      with (Nat.min (cl + k) len - st) by lia.
    replace (Nat.min st len) with st by lia.
    set (cnt := Nat.min (cl + k) len - st).
    assert (Hcnt : st + cnt <= len) by (subst cnt st; lia).
    rewrite (map_indexed_slice
               (fun idx line =>
                  ToString (VNum (num_add (num_add (Fin (inject_Z (Z.of_nat st)))
                                             (Fin (inject_Z (Z.of_nat idx))))
                                    (Fin 1)))
                  ++ str ": " ++ line) [] lines cnt st 0 Hcnt).
    unfold numbered_by. rewrite (seq_from (st + 1) cnt), map_map.
    apply map_ext_in. intros j Hj. apply in_seq in Hj.
    replace (st + 1 + j - 1) with (st + j) by lia.
    f_equal. cbn [ToString Nat.add].
    change (Fin 1) with (Fin (inject_Z 1)).
    rewrite !num_add_integers.
    replace (Z.of_nat st + Z.of_nat j + 1)%Z with (Z.of_nat (st + 1 + j)) by lia.
    reflexivity.
Qed.

(** The same for a host that prints the line numbers of the file in
    decimal. *)
Lemma context_at (c : jschar) (s : jsstring) (cursor line : value) (cl k : nat) :
  let lines := split_lines (c :: s) in
  get cursor "line" = Ok line ->
  Math_max (Fin 0) (if truthy (VNum (parseInt line)) then parseInt line else Fin 0)
    = number_of_nat cl ->
  (forall n, n <= List.length lines ->
             NumberToString (number_of_nat n) = decimal (N.of_nat n)) ->
  ContextBuilder.buildFileContext parseInt (VStr (c :: s)) cursor (number_of_nat k)
  = Ok (join [newline]
          (numbered lines (cl - k)
             (Nat.min (cl + k) (List.length lines) - (cl - k)))).
Proof.
  intros lines Hget Hcl Hprint.
  rewrite (context_at_host c s cursor line cl k Hget Hcl). fold lines.
  f_equal. f_equal. unfold numbered, numbered_by.
  apply map_ext_in. intros n Hn. apply in_seq in Hn.
  rewrite Hprint by lia. reflexivity.
Qed.
End ContextFacts.

Section ContextTheorems.
Context {W : Type} {host : Host W}.
Variable parseInt : value -> number.

(** X12: what [buildFileContext] shows. For a file that is not empty and a
    cursor whose line parses to [NaN] or to an integer, [cl] being that
    integer, or 0 when it is negative or [NaN], and for a host that prints
    the line numbers of the file in decimal: the context is made of the
    lines numbered [cl - k + 1] to [cl + k], as far as the file has them, in
    order and joined by line feeds, each behind its own number counted from
    1, a colon and a space. There are at most [2 k] of them, all of them
    lines of the file, and none when the cursor is [k] lines or more past
    the end of the file: the context is then the empty string. *)
Theorem buildFileContext_window (c : jschar) (s : jsstring)
    (cursor line : value) (cl k : nat) :
  let lines := split_lines (c :: s) in
  let first := cl - k in
  let count := Nat.min (cl + k) (List.length lines) - first in
  get cursor "line" = Ok line ->
  integral (parseInt line) ->
  effective_line (parseInt line) = Some cl ->
  (forall n, n <= List.length lines ->
             NumberToString (number_of_nat n) = decimal (N.of_nat n)) ->
  ContextBuilder.buildFileContext parseInt (VStr (c :: s)) cursor (number_of_nat k)
  = Ok (join [newline] (numbered lines first count))
  /\ count <= 2 * k
  /\ (count = 0 \/ first + count <= List.length lines)
  /\ (List.length lines + k <= cl ->
      ContextBuilder.buildFileContext parseInt (VStr (c :: s)) cursor
        (number_of_nat k) = Ok []).
Proof.
  intros lines first count Hget Hint Heff Hprint.
  pose proof (context_at parseInt c s cursor line cl k Hget
                (cursorLine_effective _ cl Hint Heff) Hprint) as Hctx.
  cbv zeta in Hctx. fold lines first count in Hctx.
  split; [exact Hctx|]. split; [subst count first; lia|].
  split; [subst count first; lia|].
  intros Hpast. rewrite Hctx.
  replace count with 0 by (subst count first; lia). reflexivity.
Qed.
End ContextTheorems.

Lemma buildFileContext_window_witness :
  ContextBuilder.buildFileContext (host := host_decimal) parseInt_integer
    (VStr four_lines) (obj [("line", vint 2)]) (number_of_nat 1)
  = Ok (join [newline] [str "2: b"; str "3: c"]).
Proof.
  destruct (buildFileContext_window (host := host_decimal) parseInt_integer
              97%N (newline :: join [newline] [str "b"; str "c"; str "d"])
              (obj [("line", vint 2)]) (vint 2) 2 1) as (H & _).
  - reflexivity.
  - now exists 2%Z.
  - reflexivity.
  - intros n _. simpl. f_equal. lia.
  - exact H.
Defined.

(* ================================================================== *)
(** * [validateEnvironment] and the clients of the routers *)

Section EnvValidatorFacts.
Context {W : Type} {host : Host W}.
Variable E : env.
Variable cfg : settings.

Lemma nonblank_key_truthy (k : jsstring) :
  nonblank k = true -> key_truthy (Some k) = Some k.
Proof. destruct k; [discriminate|reflexivity]. Qed.

Lemma check_key_errors (variable label : string) (key : option jsstring)
    (r : report) :
  report_errors (EnvValidator.check_key variable label key r)
  = report_errors r
    ++ (if too_short key
        then [str variable ++ str " appears invalid (too short)"] else []).
Proof.
  unfold EnvValidator.check_key, too_short.
  destruct key as [[|c k]|]; simpl key_truthy; cbn [nonblank];
    try (simpl; now rewrite app_nil_r).
  destruct (nonblank (c :: k)); simpl; [|now rewrite app_nil_r].
  destruct (jslength (c :: k) <? 20)%N; simpl; [reflexivity|now rewrite app_nil_r].
Qed.

Lemma check_key_providers (variable label : string) (key : option jsstring)
    (r : report) :
  report_providers (EnvValidator.check_key variable label key r)
  = report_providers r ++ (if usable key then [str label] else []).
Proof.
  unfold EnvValidator.check_key, usable.
  destruct key as [[|c k]|]; simpl key_truthy; cbn [nonblank];
    try (simpl; now rewrite app_nil_r).
  destruct (nonblank (c :: k)); simpl; [|now rewrite app_nil_r].
  rewrite N.leb_antisym.
  destruct (jslength (c :: k) <? 20)%N; simpl; [now rewrite app_nil_r|reflexivity].
Qed.

Ltac split_ifs :=
  repeat match goal with
         | |- context [if ?b then _ else _] => destruct b
         end.

(** The providers that [validateEnvironment] lists. *)
Lemma validateEnvironment_providers :
  providers (EnvValidator.validateEnvironment E cfg)
  = (if usable (GEMINI_API_KEY E) then [str "Gemini"] else [])
    ++ (if usable (GROQ_API_KEY E) then [str "Groq"] else [])
    ++ (if usable (OPENAI_API_KEY E) then [str "OpenAI"] else []).
Proof.
  unfold EnvValidator.validateEnvironment. cbv zeta. cbn [providers].
  match goal with
  | |- context [EnvValidator.check_key "OPENAI_API_KEY" ?l ?k ?r] =>
      set (r3 := EnvValidator.check_key "OPENAI_API_KEY" l k r)
  end.
  assert (H3 : report_providers r3
               = (if usable (GEMINI_API_KEY E) then [str "Gemini"] else [])
                 ++ (if usable (GROQ_API_KEY E) then [str "Groq"] else [])
                 ++ (if usable (OPENAI_API_KEY E) then [str "OpenAI"] else [])).
  { subst r3. rewrite !check_key_providers. cbn [report_providers app].
    now rewrite app_assoc. }
  rewrite <- H3. clearbody r3. split_ifs; reflexivity.
Qed.

Lemma validateEnvironment_errors :
  errors (EnvValidator.validateEnvironment E cfg)
  = (if too_short (GEMINI_API_KEY E)
     then [str "GEMINI_API_KEY appears invalid (too short)"] else [])
    ++ (if too_short (GROQ_API_KEY E)
        then [str "GROQ_API_KEY appears invalid (too short)"] else [])
    ++ (if too_short (OPENAI_API_KEY E)
        then [str "OPENAI_API_KEY appears invalid (too short)"] else [])
    ++ (if negb (usable (GEMINI_API_KEY E) || usable (GROQ_API_KEY E)
                 || usable (OPENAI_API_KEY E))
           && negb (mockMode E)
        then [str "No AI API keys found (need GEMINI_API_KEY, GROQ_API_KEY, or OPENAI_API_KEY) and MOCK_MODE is disabled"]
        else [])
    ++ (if EnvValidator.bad_port cfg
        then [str "Invalid PORT: " ++ ToString (EnvValidator.port cfg)
              ++ str " (must be 1-65535)"]
        else []).
Proof.
  unfold EnvValidator.validateEnvironment. cbv zeta. cbn [errors].
  match goal with
  | |- context [EnvValidator.check_key "OPENAI_API_KEY" ?l ?k ?r] =>
      set (r3 := EnvValidator.check_key "OPENAI_API_KEY" l k r)
  end.
  assert (Hp : (List.length (report_providers r3) =? 0)%nat
               = negb (usable (GEMINI_API_KEY E) || usable (GROQ_API_KEY E)
                       || usable (OPENAI_API_KEY E))).
  { subst r3. rewrite !check_key_providers. cbn [report_providers app].
    destruct (usable (GEMINI_API_KEY E)), (usable (GROQ_API_KEY E)),
      (usable (OPENAI_API_KEY E)); reflexivity. }
  assert (He : report_errors r3
               = (if too_short (GEMINI_API_KEY E)
                  then [str "GEMINI_API_KEY appears invalid (too short)"] else [])
                 ++ (if too_short (GROQ_API_KEY E)
                     then [str "GROQ_API_KEY appears invalid (too short)"] else [])
                 ++ (if too_short (OPENAI_API_KEY E)
                     then [str "OPENAI_API_KEY appears invalid (too short)"] else [])).
  { subst r3. rewrite !check_key_errors. cbn [report_errors app].
    now rewrite app_assoc. }
  rewrite Hp. rewrite !app_assoc. rewrite <- (app_assoc _ _ (if too_short (OPENAI_API_KEY E) then _ else _)).
  rewrite <- He. clearbody r3.
  destruct (negb (usable (GEMINI_API_KEY E) || usable (GROQ_API_KEY E)
                  || usable (OPENAI_API_KEY E)) && negb (mockMode E));
    destruct (EnvValidator.bad_port cfg);
    destruct (negb (jseqb (env_or (NODE_ENV cfg) "development") (str "development"))
              && negb (jseqb (env_or (NODE_ENV cfg) "development") (str "production")));
    destruct (mockMode E);
    cbn [push_error push_warning report_errors]; rewrite ?app_nil_r, <- ?app_assoc;
    reflexivity.
Qed.


Lemma Router_init_usable (k : sdk) (key : option jsstring) (current : bool) :
  (forall key', construct k key' = None) ->
  usable key = true -> Router.init_client k key current = true.
Proof.
  intros Hc Hu. unfold Router.init_client, usable in *.
  destruct key as [s|]; [|discriminate].
  apply andb_prop in Hu. destruct Hu as [Hnb _].
  rewrite (nonblank_key_truthy s Hnb), Hnb, Hc. reflexivity.
Qed.

Lemma Optimized_init_usable (k : sdk) (key : option jsstring) (current : bool) :
  (forall key', construct k key' = None) ->
  usable key = true -> Optimized.init_client k key current = Ok true.
Proof.
  intros Hc Hu. unfold Optimized.init_client, usable in *.
  destruct key as [s|]; [|discriminate].
  apply andb_prop in Hu. destruct Hu as [Hnb _].
  rewrite (nonblank_key_truthy s Hnb), Hc.
  destruct current; reflexivity.
Qed.

Lemma Optimized_init_total (k : sdk) (key : option jsstring) (current : bool) :
  (forall key', construct k key' = None) ->
  exists b, Optimized.init_client k key current = Ok b.
Proof.
  intros Hc. unfold Optimized.init_client.
  destruct (negb current); [|eauto].
  destruct (key_truthy key) as [key'|]; [|eauto].
  rewrite Hc. eauto.
Qed.

Lemma listed_usable :
  let v := EnvValidator.validateEnvironment E cfg in
  (In (str "Gemini") (providers v) -> usable (GEMINI_API_KEY E) = true)
  /\ (In (str "Groq") (providers v) -> usable (GROQ_API_KEY E) = true)
  /\ (In (str "OpenAI") (providers v) -> usable (OPENAI_API_KEY E) = true).
Proof.
  cbv zeta. rewrite validateEnvironment_providers.
  destruct (usable (GEMINI_API_KEY E)), (usable (GROQ_API_KEY E)),
    (usable (OPENAI_API_KEY E)); cbn [app In];
    repeat split; intros H; try reflexivity;
    repeat (destruct H as [H|H]; [discriminate H|]); destruct H.
Qed.

(** X14: the providers that [validateEnvironment] lists are those the routers
    have a client for. If no SDK constructor throws, every provider in the
    list has its client set up by the first [initializeClients] of
    [modelRouter.js] and by that of [modelRouter_optimized.js]; and an
    environment that is valid without [MOCK_MODE] leaves the router with a
    client of some provider. *)
Theorem listed_providers_have_clients (st : state W) :
  (forall k key, construct k key = None) ->
  clientsInitialized st = false ->
  let v := EnvValidator.validateEnvironment E cfg in
  let r := snd (Router.initializeClients E st) in
  let o := snd (Optimized.initializeClients E st) in
  (In (str "Gemini") (providers v) -> gemini r = true /\ gemini o = true)
  /\ (In (str "Groq") (providers v) -> groq r = true /\ groq o = true)
  /\ (In (str "OpenAI") (providers v) -> openai r = true /\ openai o = true)
  /\ (isValid v = true -> mockMode E = false ->
      gemini r || groq r || openai r = true).
Proof.
  intros Hc Hinit v r o.
  destruct listed_usable as (Lg & Lq & Lo). fold v in Lg, Lq, Lo.
  assert (Hr : r = {| world := world st; calls := calls st;
                      gemini := Router.init_client Gemini (GEMINI_API_KEY E) (gemini st);
                      groq := Router.init_client Groq (GROQ_API_KEY E) (groq st);
                      openai := Router.init_client OpenAI (OPENAI_API_KEY E) (openai st);
                      clientsInitialized := true |}).
  { subst r. unfold Router.initializeClients. now rewrite Hinit. }
  destruct (Optimized_init_total Gemini (GEMINI_API_KEY E) (gemini st) (Hc Gemini))
    as [bg Hbg].
  destruct (Optimized_init_total Groq (GROQ_API_KEY E) (groq st) (Hc Groq))
    as [bq Hbq].
  destruct (Optimized_init_total OpenAI (OPENAI_API_KEY E) (openai st) (Hc OpenAI))
    as [bo Hbo].
  assert (Ho : gemini o = bg /\ groq o = bq /\ openai o = bo).
  { subst o. unfold Optimized.initializeClients. rewrite Hbg, Hbq, Hbo.
    repeat split. }
  destruct Ho as (Hog & Hoq & Hoo).
  assert (Ug : usable (GEMINI_API_KEY E) = true -> gemini r = true /\ gemini o = true).
  { intros U. split.
    - rewrite Hr. apply (Router_init_usable _ _ _ (Hc Gemini) U).
    - rewrite Hog. pose proof (Optimized_init_usable _ _ (gemini st) (Hc Gemini) U).
      congruence. }
  assert (Uq : usable (GROQ_API_KEY E) = true -> groq r = true /\ groq o = true).
  { intros U. split.
    - rewrite Hr. apply (Router_init_usable _ _ _ (Hc Groq) U).
    - rewrite Hoq. pose proof (Optimized_init_usable _ _ (groq st) (Hc Groq) U).
      congruence. }
  assert (Uo : usable (OPENAI_API_KEY E) = true -> openai r = true /\ openai o = true).
  { intros U. split.
    - rewrite Hr. apply (Router_init_usable _ _ _ (Hc OpenAI) U).
    - rewrite Hoo. pose proof (Optimized_init_usable _ _ (openai st) (Hc OpenAI) U).
      congruence. }
  split; [auto|]. split; [auto|]. split; [auto|].
  intros Hvalid Hmock.
  assert (Hsome : usable (GEMINI_API_KEY E) || usable (GROQ_API_KEY E)
                  || usable (OPENAI_API_KEY E) = true).
  { subst v.
    change (isValid (EnvValidator.validateEnvironment E cfg))
      with (List.length (errors (EnvValidator.validateEnvironment E cfg)) =? 0)%nat
      in Hvalid.
    rewrite validateEnvironment_errors, Hmock in Hvalid.
    destruct (usable (GEMINI_API_KEY E) || usable (GROQ_API_KEY E)
              || usable (OPENAI_API_KEY E)); [reflexivity|].
    cbn [negb andb] in Hvalid.
    rewrite !length_app in Hvalid. cbn [List.length] in Hvalid.
    apply Nat.eqb_eq in Hvalid. lia. }
  apply orb_true_iff in Hsome. destruct Hsome as [Hsome|U].
  - apply orb_true_iff in Hsome. destruct Hsome as [U|U].
    + destruct (Ug U) as [-> _]. reflexivity.
    + destruct (Uq U) as [-> _]. now rewrite orb_true_r.
  - destruct (Uo U) as [-> _]. now rewrite orb_true_r.
Qed.
End EnvValidatorFacts.


Lemma listed_providers_have_clients_witness :
  gemini (snd (Router.initializeClients (host := host_down) env_long_keys fresh))
  = true.
Proof.
  destruct (listed_providers_have_clients (host := host_down) env_long_keys dev fresh)
    as (Hg & _).
  - reflexivity.
  - reflexivity.
  - apply Hg. vm_compute. left. reflexivity.
Defined.

(* ================================================================== *)
(** * The completion route *)

Section CompletionFacts.
Context {W : Type} {host : Host W}.

Lemma validateCompletionInput_string (body : value) (c : jschar) (s : jsstring)
    (cur : value) :
  get body "fileContent" = Ok (VStr (c :: s)) ->
  get body "cursorLine" = Ok cur ->
  Completion.validateCompletionInput body
  = Ok ((if (50000 <? jslength (c :: s))%N
         then [str "fileContent exceeds maximum length (50KB)"] else [])
        ++ (if truthy cur && negb (is_number cur)
            then [str "cursorLine must be a number"] else [])).
Proof.
  intros Hf Hc. unfold Completion.validateCompletionInput.
  rewrite Hf. cbn [rbind truthy is_string typeof negb orb get_length app].
  rewrite Hc. cbn [rbind].
  change (Fin 50000) with (Fin (inject_Z 50000)). rewrite greater_vnat.
  replace (50000 <? Z.of_nat (List.length (c :: s)))%Z
    with (50000 <? jslength (c :: s))%N; [reflexivity|].
  unfold jslength.
  destruct (N.ltb_spec 50000 (N.of_nat (List.length (c :: s))));
    destruct (Z.ltb_spec 50000 (Z.of_nat (List.length (c :: s))));
    try reflexivity; lia.
Qed.

Lemma validateCompletionInput_valid (body : value) :
  Completion.validateCompletionInput body = Ok [] <-> valid_completion_body body.
Proof.
  split.
  - destruct (get body "fileContent") as [m|e] eqn:Hm.
    2: { unfold Completion.validateCompletionInput. rewrite Hm. discriminate. }
    assert (Hreq : forall (r : jsstring) (x : res (list jsstring)),
              (too_long <- x ;;
               cursorLine <- get body "cursorLine" ;;
               Ok ([r] ++ too_long
                   ++ (if truthy cursorLine && negb (is_number cursorLine)
                       then [str "cursorLine must be a number"] else [])))%res
              <> Ok []).
    { intros r [t|e]; cbn [rbind]; [|discriminate].
      destruct (get body "cursorLine"); cbn [rbind]; discriminate. }
    destruct m as [| |b|n|[|c s]|l|p];
      try (unfold Completion.validateCompletionInput; rewrite Hm; cbn [rbind];
           cbn [truthy is_string typeof negb orb];
           intros H; exfalso; revert H; apply Hreq).
    + unfold Completion.validateCompletionInput; rewrite Hm; cbn [rbind].
      destruct (truthy (VBool b)); cbn [is_string typeof negb orb];
        intros H; exfalso; revert H; apply Hreq.
    + unfold Completion.validateCompletionInput; rewrite Hm; cbn [rbind].
      destruct (truthy (VNum n)); cbn [is_string typeof negb orb];
        intros H; exfalso; revert H; apply Hreq.
    + destruct (get body "cursorLine") as [cur|e] eqn:Hc.
      2: { unfold Completion.validateCompletionInput. rewrite Hm, Hc.
           cbn [rbind truthy is_string typeof negb orb get_length]. discriminate. }
      rewrite (validateCompletionInput_string body c s cur Hm Hc).
      destruct (50000 <? jslength (c :: s))%N eqn:Hl; [discriminate|].
      destruct (truthy cur && negb (is_number cur)) eqn:Hcur; [discriminate|].
      intros _. split.
      * exists (c :: s). split; [exact Hm|]. split; [discriminate|].
        now apply N.ltb_ge.
      * exists cur. split; [exact Hc|].
        destruct (truthy cur); [right|now left].
        destruct (is_number cur); [reflexivity|discriminate].
  - intros ((s & Hf & Hne & Hlen) & cur & Hc & Hcur).
    destruct s as [|c s]; [congruence|].
    rewrite (validateCompletionInput_string body c s cur Hf Hc).
    apply N.ltb_ge in Hlen. rewrite Hlen.
    destruct Hcur as [-> | ->]; [reflexivity|].
    now rewrite andb_false_r.
Qed.

(** X15: the input check of the completion route. It passes exactly the
    bodies whose [fileContent] is a string that is not empty and has at most
    50000 characters and whose [cursorLine] is a number or counts as false:
    absent, [null], [false], [0], [NaN] or the empty string. *)
Theorem validateCompletionInput_accepts (body : value) :
  Completion.validateCompletionInput body = Ok [] <-> valid_completion_body body.
Proof. exact (validateCompletionInput_valid body). Qed.
End CompletionFacts.

(* ------------------------------------------------------------------ *)
(** * The size of a context *)

Lemma window_sum (l : list jsstring) (f c : nat) :
  list_sum (map (@List.length jschar) (firstn c (skipn f l)))
  <= list_sum (map (@List.length jschar) l).
Proof.
  assert (H : list_sum (map (@List.length jschar) l)
              = list_sum (map (@List.length jschar) (firstn f l))
                + (list_sum (map (@List.length jschar) (firstn c (skipn f l)))
                   + list_sum (map (@List.length jschar) (skipn c (skipn f l))))).
  { rewrite <- !list_sum_app, <- !map_app, !firstn_skipn. reflexivity. }
  lia.
Qed.

Lemma sum_bound (g h : nat -> nat) (B : nat) (l : list nat) :
  (forall n, In n l -> g n <= B + h n) ->
  list_sum (map g l) <= List.length l * B + list_sum (map h l).
Proof.
  intros H. induction l as [|x l IH]; [simpl; lia|].
  cbn [map List.length].
  change (list_sum (g x :: map g l)) with (g x + list_sum (map g l)).
  change (list_sum (h x :: map h l)) with (h x + list_sum (map h l)).
  pose proof (H x (or_introl eq_refl)) as Hx.
  assert (IH' : forall n, In n l -> g n <= B + h n) by (intros n Hn; apply H; now right).
  specialize (IH IH'). rewrite Nat.mul_succ_l. lia.
Qed.

(** A context is at most as long as the file plus the numbers it adds. *)
Lemma numbered_by_length (print : nat -> jsstring) (B : nat) (s : jsstring)
    (first count : nat) :
  (forall n, n <= List.length (split_lines s) -> List.length (print n) <= B) ->
  first + count <= List.length (split_lines s) ->
  List.length (join [newline] (numbered_by print (split_lines s) first count))
  <= count * (B + 2) + List.length s.
Proof.
  intros Hprint Hin. set (lines := split_lines s) in *.
  destruct count as [|count]; [simpl; lia|].
  rewrite length_join. unfold numbered_by.
  rewrite !length_map, length_seq, map_map.
  cbn [List.length Nat.mul].
  pose proof (sum_bound
                (fun n => List.length (print n ++ str ": " ++ nth (n - 1) lines []))
                (fun n => List.length (nth (n - 1) lines ([] : jsstring)))
                (B + 2) (seq (first + 1) (S count))) as Hsum.
  rewrite length_seq in Hsum.
  assert (Hg : forall n, In n (seq (first + 1) (S count)) ->
             List.length (print n ++ str ": " ++ nth (n - 1) lines [])
             <= B + 2 + List.length (nth (n - 1) lines ([] : jsstring))).
  { intros n Hn. apply in_seq in Hn. rewrite !length_app.
    assert (Hp : List.length (print n) <= B) by (apply Hprint; lia).
    change (List.length (str ": ")) with 2. lia. }
  specialize (Hsum Hg).
  assert (Hsel : list_sum (map (fun n => List.length (nth (n - 1) lines ([] : jsstring)))
                             (seq (first + 1) (S count)))
                 = list_sum (map (@List.length jschar)
                               (firstn (S count) (skipn first lines)))).
  { rewrite (firstn_skipn_nth (A := jsstring) [] lines first (S count) Hin), map_map.
    rewrite Nat.add_1_r, <- seq_shift, map_map. f_equal.
    apply map_ext. intros n. now rewrite Nat.sub_1_r. }
  rewrite Hsel in Hsum.
  pose proof (window_sum lines first (S count)) as Hw.
  pose proof (length_join [newline] lines) as Hall.
  unfold lines in Hall at 1. rewrite join_split_lines in Hall.
  change (List.length [newline]) with 1 in Hall.
  lia.
Qed.

Section CompletionRoute.
Context {W : Type} {host : Host W}.
Variable E : env.
Variable cfg : settings.
Variable now : W -> jsstring.
Variable parseInt : value -> number.

Lemma completion_run (modelName : value) (prompt : jsstring) (st : state W) :
  nonblank prompt = true ->
  (jslength prompt <= 100000)%N ->
  let run := Router.callModel E modelName (Completion.messages_of prompt)
               (vint 150) st in
  (exists v, fst run = Ok v /\ completion v)
  \/ (fst run = Throw (Error Router.all_failed) /\ mockMode E = false).
Proof.
  intros Hnb Hlen.
  destruct (one_message_valid
              (obj [("role", vstr "system"); ("content", VStr prompt)]) prompt
              eq_refl eq_refl eq_refl Hnb Hlen) as [Hvalid _].
  exact (Router_valid_run E modelName (vint 150) _ (Fin (inject_Z 150)) st
           Hvalid eq_refl).
Qed.

(** The context of a file of at most 50000 characters fits in a message. *)
Lemma context_fits (c : jschar) (s : jsstring) (line : value) (cl : nat) :
  (jslength (c :: s) <= 50000)%N ->
  integral (parseInt line) ->
  effective_line (parseInt line) = Some cl ->
  (forall n, n <= List.length (split_lines (c :: s)) ->
             List.length (NumberToString (number_of_nat n)) <= 25) ->
  exists prefix,
    ContextBuilder.buildFileContext parseInt (VStr (c :: s))
      (obj [("line", line)]) (Fin 50) = Ok prefix
    /\ (jslength prefix <= 52700)%N.
Proof.
  intros Hlen Hint Heff Hprint.
  pose proof (context_at_host parseInt c s (obj [("line", line)]) line cl 50
                eq_refl (cursorLine_effective _ cl Hint Heff)) as Hctx.
  cbv zeta in Hctx.
  change (number_of_nat 50) with (Fin 50) in Hctx.
  eexists. split; [exact Hctx|].
  set (lines := split_lines (c :: s)) in *.
  set (count := Nat.min (cl + 50) (List.length lines) - (cl - 50)).
  destruct (Nat.eq_dec count 0) as [->|Hpos]; [vm_compute; discriminate|].
  pose proof (numbered_by_length (fun n => NumberToString (number_of_nat n)) 25
                (c :: s) (cl - 50) count Hprint) as Hb.
  fold lines in Hb.
  assert (Hin : cl - 50 + count <= List.length lines) by (subst count; lia).
  specialize (Hb Hin). unfold jslength in *.
  assert (count <= 100) by (subst count; lia). lia.
Qed.

(** X16: the completion route on a body it lets through. The context of the
    file around the cursor, numbered, is put in the completion prompt; the
    prompt always passes the checks of the router, so the run, for the model
    of [pickModel("completion")] and a budget of 150, either returns a
    completion, and the answer is 200 with its text, the model name and the
    time, or every provider has failed, and the answer is 500. *)
Theorem completion_route_on_valid_input (body : value) (c : jschar)
    (s : jsstring) (cur : value) (cl : nat) (st : state W) :
  get body "fileContent" = Ok (VStr (c :: s)) ->
  (jslength (c :: s) <= 50000)%N ->
  get body "cursorLine" = Ok cur ->
  truthy cur = false \/ is_number cur = true ->
  let line := match cur with VUndefined => vint 0 | _ => cur end in
  integral (parseInt line) ->
  effective_line (parseInt line) = Some cl ->
  (forall n, n <= List.length (split_lines (c :: s)) ->
             List.length (NumberToString (number_of_nat n)) <= 25) ->
  exists prefix,
    ContextBuilder.buildFileContext parseInt (VStr (c :: s))
      (obj [("line", line)]) (Fin 50) = Ok prefix
    /\ let model := env_or (MODEL_COMPLETION cfg) "gemini-2.0-flash" in
       let run := Router.callModel E (VStr model)
                    (Completion.messages_of
                       (Prompts.completionPrompt (VStr prefix)))
                    (vint 150) st in
       exists r,
         Completion.post E cfg now parseInt body st = (Ok r, snd run)
         /\ match fst run with
            | Ok v =>
                reply_status r = 200%N
                /\ exists text,
                     content_of v text /\ nonblank text = true
                     /\ reply_body r
                        = obj [("completion", VStr text); ("model", VStr model);
                               ("timestamp", VStr (now (world (snd run))))]
            | Throw err =>
                err = Error Router.all_failed
                /\ reply_status r = 500%N
                /\ reply_body r
                   = obj [("error", vstr "Failed to generate completion");
                          ("message", if development cfg
                                      then VStr Router.all_failed
                                      else VUndefined)]
            end.
Proof.
  intros Hf Hlen Hc Hcur line Hint Heff Hprint.
  destruct (context_fits c s line cl Hlen Hint Heff Hprint) as (prefix & Hctx & Hpl).
  exists prefix. split; [exact Hctx|]. intros model run.
  assert (Hvalid : Completion.validateCompletionInput body = Ok []).
  { apply validateCompletionInput_valid. split.
    - exists (c :: s). split; [exact Hf|]. split; [discriminate|exact Hlen].
    - now exists cur. }
  assert (Hd : destructure "req.body" body "fileContent" = Ok (VStr (c :: s))).
  { destruct body; try discriminate Hf; exact Hf. }
  assert (Hnb : nonblank (Prompts.completionPrompt (VStr prefix)) = true)
    by apply completionPrompt_nonblank.
  assert (Hfit : (jslength (Prompts.completionPrompt (VStr prefix)) <= 100000)%N).
  { unfold jslength in *. rewrite completionPrompt_length. cbn [ToString]. lia. }
  unfold Completion.post, catch, bind, lift, get_or.
  rewrite Hd, Hc. cbn [rbind]. fold line. rewrite Hvalid, Hctx.
  change (RouterExports.pickModel cfg (vstr "completion")) with (Picked model).
  cbn [picked_value]. fold run.
  destruct (completion_run (VStr model) _ st Hnb Hfit) as [(v & Hv & Hcm)|[Hfail _]];
    fold run in Hv || fold run in Hfail.
  - destruct run as [[v'|e] st'] eqn:Hrun; simpl in Hv; [|discriminate].
    injection Hv as ->. destruct Hcm as (text & Hct & Htnb).
    rewrite (content_path_completion v text Hct).
    assert (Htr : truthy (VStr text) = true).
    { destruct text; [discriminate Htnb|reflexivity]. }
    rewrite Htr. cbn [negb]. unfold timestamp, send, ret.
    eexists. split; [reflexivity|]. cbn [fst snd reply_status reply_body].
    split; [reflexivity|]. exists text. auto.
  - destruct run as [[v'|e] st'] eqn:Hrun; simpl in Hfail; [discriminate|].
    injection Hfail as ->. unfold send, ret.
    eexists. split; [reflexivity|]. cbn [fst snd reply_status reply_body].
    auto.
Qed.
End CompletionRoute.

Lemma validateCompletionInput_accepts_witness :
  valid_completion_body completion_at_2.
Proof.
  apply (proj1 (validateCompletionInput_accepts (host := host_decimal)
                  completion_at_2)).
  reflexivity.
Defined.

Lemma completion_route_on_valid_input_witness :
  exists r st',
    Completion.post (host := host_decimal) env_all_keys dev noon parseInt_integer
      completion_at_2 fresh = (Ok r, st').
Proof.
  destruct (completion_route_on_valid_input (host := host_decimal) env_all_keys dev
              noon parseInt_integer completion_at_2 97%N
              (newline :: join [newline] [str "b"; str "c"; str "d"])
              (vint 2) 2 fresh)
    as (prefix & _ & r & Hr & _).
  - reflexivity.
  - vm_compute. discriminate.
  - reflexivity.
  - right. reflexivity.
  - now exists 2%Z.
  - reflexivity.
  - intros n Hn. change (List.length (split_lines _)) with 4 in Hn.
    do 5 (destruct n as [|n]; [vm_compute; lia|]). lia.
  - exists r. eexists. exact Hr.
Defined.

(* ================================================================== *)
(** * [extractJSON] returns what it parsed *)

Lemma end_of_refl (s : jsstring) : end_of s s.
Proof. now exists []. Qed.

Lemma end_of_trans (a b c : jsstring) : end_of a b -> end_of b c -> end_of a c.
Proof. intros [p ->] [q ->]. exists (q ++ p). now rewrite app_assoc. Qed.

Lemma end_of_cons (c : jschar) (s' s : jsstring) : end_of s' s -> end_of s' (c :: s).
Proof. intros [p ->]. now exists (c :: p). Qed.

Lemma piece_of_end (g s t : jsstring) : piece_of g s -> end_of s t -> piece_of g t.
Proof.
  intros (a & b & ->) [p ->]. exists (p ++ a), b. now rewrite app_assoc.
Qed.

Lemma piece_of_trans (g s t : jsstring) : piece_of g s -> piece_of s t -> piece_of g t.
Proof.
  intros (a & b & ->) (a' & b' & ->). exists (a' ++ a), (b ++ b').
  now rewrite <- !app_assoc.
Qed.

Lemma capture_in_end (cap : option jsstring) (s t : jsstring) :
  capture_in cap s -> end_of s t -> capture_in cap t.
Proof. destruct cap; [apply piece_of_end|trivial]. Qed.

Lemma firstn_piece (n : nat) (s : jsstring) : piece_of (firstn n s) s.
Proof. exists [], (skipn n s). simpl. now rewrite firstn_skipn. Qed.

Lemma lit_match_end (l s s' : jsstring) : lit_match l s = Some s' -> end_of s' s.
Proof.
  revert s. induction l as [|c l IH]; intros s H; simpl in H.
  - injection H as <-. apply end_of_refl.
  - destruct s as [|d s]; [discriminate|].
    destruct (N.eqb c d); [|discriminate].
    apply end_of_cons. now apply IH.
Qed.

Section MatcherFacts.
Variable R : Type.

Lemma star_greedy_end (p : jschar -> bool) (k : jsstring -> option R) (s : jsstring)
    (x : R) :
  star_greedy p k s = Some x -> exists s', end_of s' s /\ k s' = Some x.
Proof.
  induction s as [|c s IH]; simpl; intros H.
  - exists []. split; [apply end_of_refl|exact H].
  - destruct (p c).
    + destruct (star_greedy p k s) as [r|] eqn:Hs.
      * injection H as <-. destruct (IH eq_refl) as (s' & He & Hk).
        exists s'. split; [now apply end_of_cons|exact Hk].
      * exists (c :: s). split; [apply end_of_refl|exact H].
    + exists (c :: s). split; [apply end_of_refl|exact H].
Qed.

Lemma star_lazy_end (p : jschar -> bool) (k : jsstring -> option R) (s : jsstring)
    (x : R) :
  star_lazy p k s = Some x -> exists s', end_of s' s /\ k s' = Some x.
Proof.
  induction s as [|c s IH]; simpl; intros H.
  - destruct (k []) as [r|] eqn:Hk; [|discriminate].
    exists []. split; [apply end_of_refl|congruence].
  - destruct (k (c :: s)) as [r|] eqn:Hk.
    + exists (c :: s). split; [apply end_of_refl|congruence].
    + destruct (p c); [|discriminate].
      destruct (IH H) as (s' & He & Hk'). exists s'.
      split; [now apply end_of_cons|exact Hk'].
Qed.

(** A match hands its continuation an end of the input and the capture it
    was given or a piece of the input. *)
Lemma rmatch_end (r : regex) :
  forall (s : jsstring) (cap : option jsstring)
         (k : jsstring -> option jsstring -> option R) (x : R),
    rmatch r s cap k = Some x ->
    exists s' cap',
      end_of s' s /\ (cap' = cap \/ capture_in cap' s) /\ k s' cap' = Some x.
Proof.
  induction r as [l|greedy p|r1 IH1 r2 IH2|r1 IH1 r2 IH2|r IH|r IH];
    intros s cap k x H; simpl in H.
  - destruct (lit_match l s) as [s'|] eqn:Hl; [|discriminate].
    exists s', cap. split; [now apply (lit_match_end l)|]. split; [now left|exact H].
  - destruct greedy.
    + destruct (star_greedy_end _ _ _ _ H) as (s' & He & Hk).
      exists s', cap. auto.
    + destruct (star_lazy_end _ _ _ _ H) as (s' & He & Hk).
      exists s', cap. auto.
  - destruct (IH1 _ _ _ _ H) as (s1 & cap1 & He1 & Hc1 & H1).
    destruct (IH2 _ _ _ _ H1) as (s2 & cap2 & He2 & Hc2 & H2).
    exists s2, cap2. split; [now apply (end_of_trans _ s1)|]. split; [|exact H2].
    destruct Hc2 as [->|Hc2]; [exact Hc1|].
    right. now apply (capture_in_end _ s1).
  - destruct (rmatch r1 s cap k) as [y|] eqn:H1.
    + injection H as <-. now apply IH1.
    + now apply IH2.
  - destruct (rmatch r s cap k) as [y|] eqn:H1.
    + injection H as <-. now apply IH.
    + exists s, cap. split; [apply end_of_refl|]. split; [now left|exact H].
  - destruct (IH _ _ _ _ H) as (s' & cap' & He & _ & Hk).
    exists s', (Some (firstn (List.length s - List.length s') s)).
    split; [exact He|]. split; [right; apply firstn_piece|exact Hk].
Qed.
End MatcherFacts.

(** What [match] captures is a piece of the text. *)
Lemma exec_piece (r : regex) (t g : jsstring) :
  exec r t = Some (Some g) -> piece_of g t.
Proof.
  induction t as [|c t IH]; simpl; intros H.
  - destruct (rmatch r [] None (fun _ cap => Some cap)) as [cap|] eqn:Hm;
      [|discriminate].
    injection H as ->.
    destruct (rmatch_end _ r _ _ _ _ Hm) as (s' & cap' & _ & Hc & Hk).
    injection Hk as ->. destruct Hc as [Hc|Hc]; [discriminate|exact Hc].
  - destruct (rmatch r (c :: t) None (fun _ cap => Some cap)) as [cap|] eqn:Hm.
    + injection H as ->.
      destruct (rmatch_end _ r _ _ _ _ Hm) as (s' & cap' & _ & Hc & Hk).
      injection Hk as ->. destruct Hc as [Hc|Hc]; [discriminate|exact Hc].
    + apply (piece_of_end g t); [now apply IH|]. now exists [c].
Qed.

Lemma group1_piece (r : regex) (t g : jsstring) :
  group1 (exec r t) = Some g -> piece_of g t.
Proof.
  destruct (exec r t) as [[[|c g']|]|] eqn:He; simpl; try discriminate.
  intros H. injection H as <-. now apply (exec_piece r).
Qed.

Lemma trim_piece (t : jsstring) : piece_of (trim t) t.
Proof.
  unfold trim, trimEnd.
  destruct (trimStart_suffix t) as (p & Ht & _).
  destruct (trimStart_suffix (rev (trimStart t))) as (q & Hr & _).
  exists p, (rev q). rewrite Ht at 1. f_equal.
  apply (f_equal (@rev jschar)) in Hr. rewrite rev_involutive, rev_app_distr in Hr.
  exact Hr.
Qed.

Section DecoderFacts.
Variable JSON_parse : jsstring -> option value.

Lemma parse_match_piece (r : regex) (t : jsstring) (prep : jsstring -> jsstring)
    (v : value) :
  (forall g, piece_of (prep g) g) ->
  Review.parse_match JSON_parse (exec r t) prep = Some v ->
  exists g, piece_of g t /\ JSON_parse g = Some v.
Proof.
  intros Hprep. unfold Review.parse_match.
  destruct (group1 (exec r t)) as [g|] eqn:Hg; [|discriminate].
  intros H. exists (prep g). split; [|exact H].
  apply (piece_of_trans _ g); [apply Hprep|now apply (group1_piece r)].
Qed.

Lemma piece_of_refl (g : jsstring) : piece_of g g.
Proof. exists [], []. simpl. now rewrite app_nil_r. Qed.

(** X17: what [extractJSON] returns is never made up: it is what [JSON.parse]
    gives for a piece of the text, characters of the text in a row. When it
    throws, the error is one of three: the input is not a string or is
    empty, the text is blank, or no piece it tried could be parsed, the
    trimmed text among them. *)
Theorem extractJSON_returns_a_parsed_piece (text : value) :
  match Review.extractJSON JSON_parse text with
  | Ok v =>
      exists t g, text = VStr t /\ piece_of g t /\ JSON_parse g = Some v
  | Throw e =>
      (e = Error (str "Invalid input: expected string")
       /\ forall c t, text <> VStr (c :: t))
      \/ (e = Error (str "Empty text provided")
          /\ exists t, text = VStr t /\ nonblank t = false)
      \/ (e = Error (str "Could not extract valid JSON from response after multiple attempts")
          /\ exists t, text = VStr t /\ nonblank t = true
                       /\ JSON_parse (trim t) = None)
  end.
Proof.
  unfold Review.extractJSON.
  destruct text as [| | | |[|c t]| |]; try (left; split; [reflexivity|discriminate]).
  cbn [truthy negb].
  destruct (List.length (trim (c :: t)) =? 0)%nat eqn:Hlen.
  { right. left. split; [reflexivity|]. exists (c :: t). split; [reflexivity|].
    unfold nonblank. apply Nat.eqb_eq in Hlen.
    destruct (trim (c :: t)); [reflexivity|discriminate]. }
  assert (Hnb : nonblank (c :: t) = true).
  { unfold nonblank. destruct (trim (c :: t)); [discriminate|reflexivity]. }
  destruct (JSON_parse (trim (c :: t))) as [v|] eqn:Hdirect.
  { exists (c :: t), (trim (c :: t)). split; [reflexivity|].
    split; [apply trim_piece|exact Hdirect]. }
  destruct (Review.parse_match JSON_parse (exec Review.re_fenced (c :: t)) trim)
    as [v|] eqn:H1.
  { destruct (parse_match_piece _ _ _ _ trim_piece H1) as (g & Hg & Hp).
    exists (c :: t), g. auto. }
  destruct (Review.parse_match JSON_parse (exec Review.re_bracketed (c :: t))
              (fun g => g)) as [v|] eqn:H2.
  { destruct (parse_match_piece _ _ _ _ piece_of_refl H2) as (g & Hg & Hp).
    exists (c :: t), g. auto. }
  destruct (Review.parse_match JSON_parse (exec Review.re_labeled (c :: t))
              (fun g => g)) as [v|] eqn:H3.
  { destruct (parse_match_piece _ _ _ _ piece_of_refl H3) as (g & Hg & Hp).
    exists (c :: t), g. auto. }
  right. right. split; [reflexivity|]. exists (c :: t). auto.
Qed.
End DecoderFacts.

(* ================================================================== *)
(** * The clients of [modelRouter.js] are set up once *)

Section ClientsOnce.
Context {W : Type} {host : Host W}.





End ClientsOnce.


(* ================================================================== *)
(** * The text of the prompts *)


Section PromptTexts.
Context {W : Type} {host : Host W}.

End PromptTexts.
